(** * SkyShot API: the generic resource-query helpers

    A shallow embedding of [utils/ApiFeatures.js] (filter, sort, limitFields,
    search, paginate), of the controller factory built on it (getAll,
    searchDocuments) and of the resource-specific listings that paginate by
    hand (getAllSettings, getOpenMissions, the gallery search), together with
    the properties of the pagination metadata, of the filter translation and
    of the search guards; then of what these handlers answer with
    ([utils/ApiError.js], [utils/ApiResponse.js]) and of the documents
    behind them: the like counter of the gallery, the pre-save hooks of
    the Upload and Mission models and the application methods of a
    mission.

    Conventions.
    - A JavaScript string is a [string]: a sequence of code units below 256.
    - A JavaScript number is modelled on the integers ([Num z]), the two
      infinities and [NaN]. Doubles are exact on integers of magnitude
      below 2^53; reading a number outside this fragment (a fractional
      literal, an exponent, a literal of 2^53 or more) or dividing by zero
      yields [None]. A product of two such integers is kept exact: the code
      only uses its sign and its comparison with a count of documents,
      which rounding preserves.
    - A JavaScript object is the list of its own entries in enumeration
      order. *)

From Stdlib Require Import ZArith List String Ascii Bool Lia DecimalString
  Permutation.
Import ListNotations.

Open Scope string_scope.
Open Scope list_scope.
Open Scope Z_scope.

(** ** Values *)

(** Arrays and objects over scalars of type [A]: request parameters carry
    string scalars, store conditions carry strings, numbers and booleans. *)
#[local] Unset Elimination Schemes.
Inductive jsval (A : Type) : Type :=
| JLeaf (a : A)
| JArr (items : list (jsval A))
| JObj (entries : list (string * jsval A)).

#[local] Set Elimination Schemes.

Arguments JLeaf {A} a.
Arguments JArr {A} items.
Arguments JObj {A} entries.

Inductive jsnum : Type :=
| Num (z : Z)
| NaN
| Infinity (negative : bool).

Inductive scalar : Type :=
| SStr (s : string)
| SNum (n : jsnum)
| SBool (b : bool).

(** What [req.query] holds. *)
Definition json : Type := jsval string.
(** What the store receives as a condition. *)
Definition cond : Type := jsval scalar.

Definition JStr (s : string) : json := JLeaf s.

Fixpoint jsval_map {A B : Type} (f : A -> B) (v : jsval A) : jsval B :=
  match v with
  | JLeaf a => JLeaf (f a)
  | JArr items => JArr (map (jsval_map f) items)
  | JObj entries => JObj (map (fun kv => (fst kv, jsval_map f (snd kv))) entries)
  end.

Definition cond_of_json : json -> cond := jsval_map SStr.

(** Induction over a value and the values nested in it. *)
Section JsvalInd.
Variable A : Type.
Variable P : jsval A -> Prop.
Hypothesis Hleaf : forall a, P (JLeaf a).
Hypothesis Harr : forall items, Forall P items -> P (JArr items).
Hypothesis Hobj :
  forall entries, Forall (fun kv => P (snd kv)) entries -> P (JObj entries).

Fixpoint jsval_nested_ind (v : jsval A) : P v :=
  match v with
  | JLeaf a => Hleaf a
  | JArr items =>
      Harr items
        ((fix go (l : list (jsval A)) : Forall P l :=
            match l with
            | [] => Forall_nil P
            | x :: l' => Forall_cons x (jsval_nested_ind x) (go l')
            end) items)
  | JObj entries =>
      Hobj entries
        ((fix go (l : list (string * jsval A))
            : Forall (fun kv => P (snd kv)) l :=
            match l with
            | [] => Forall_nil _
            | kv :: l' =>
                Forall_cons kv (jsval_nested_ind (snd kv)) (go l')
            end) entries)
  end.
End JsvalInd.

(** ** Objects as entry lists *)

Module Obj.
Section Ops.
Context {V : Type}.

(** [o[k]]: [None] stands for [undefined]. *)
Fixpoint get (o : list (string * V)) (k : string) : option V :=
  match o with
  | [] => None
  | (k', v) :: o' => if String.eqb k' k then Some v else get o' k
  end.

(** [o[k] = v]: an existing key keeps its place, a new one goes last. *)
Fixpoint set (o : list (string * V)) (k : string) (v : V)
  : list (string * V) :=
  match o with
  | [] => [(k, v)]
  | (k', v') :: o' =>
      if String.eqb k' k then (k', v) :: o' else (k', v') :: set o' k v
  end.

(** [delete o[k]]. *)
Definition delete (o : list (string * V)) (k : string)
  : list (string * V) :=
  filter (fun kv => negb (String.eqb (fst kv) k)) o.

Definition keys (o : list (string * V)) : list string := map fst o.
End Ops.
End Obj.

(** ** Characters *)

Definition code (c : ascii) : Z := Z.of_N (N_of_ascii c).

Definition in_range (lo hi : Z) (c : ascii) : bool :=
  (lo <=? code c) && (code c <=? hi).

Definition is_digit (c : ascii) : bool := in_range 48 57 c.
Definition is_upper (c : ascii) : bool := in_range 65 90 c.
Definition is_lower (c : ascii) : bool := in_range 97 122 c.

(** The white space and line terminators of ECMAScript below 256. *)
Definition is_ws (c : ascii) : bool :=
  in_range 9 13 c || (code c =? 32) || (code c =? 160).

Definition chars (s : string) : list ascii := list_ascii_of_string s.
Definition text (l : list ascii) : string := string_of_list_ascii l.

Fixpoint drop_ws (l : list ascii) : list ascii :=
  match l with
  | c :: l' => if is_ws c then drop_ws l' else l
  | [] => []
  end.

(** [String.prototype.trim]. *)
Definition trim_chars (l : list ascii) : list ascii :=
  rev (drop_ws (rev (drop_ws l))).

Definition trim (s : string) : string := text (trim_chars (chars s)).

(** ** Numbers *)

Definition two53 : Z := 2 ^ 53.

(** The value of an integer literal, when it is a safe integer: the double
    holding it, its successor and its predecessor are then exact. *)
Definition exact (z : Z) : option jsnum :=
  if Z.abs z <? two53 then Some (Num z) else None.

Fixpoint span (p : ascii -> bool) (l : list ascii)
  : list ascii * list ascii :=
  match l with
  | c :: l' =>
      if p c then let (a, b) := span p l' in (c :: a, b) else ([], l)
  | [] => ([], [])
  end.

Definition nonempty {A : Type} (l : list A) : bool :=
  match l with [] => false | _ => true end.

Definition is_hex (c : ascii) : bool :=
  is_digit c || in_range 65 70 c || in_range 97 102 c.

Definition digit_value (c : ascii) : Z :=
  if is_digit c then code c - 48
  else if is_upper c then code c - 55
  else code c - 87.

Definition radix_value (radix : Z) (ds : list ascii) : Z :=
  fold_left (fun acc c => radix * acc + digit_value c) ds 0.

Definition is_sign (c : ascii) : bool := (code c =? 43) || (code c =? 45).

(** Splits an optional sign off: the factor is -1 after "-". *)
Definition split_sign (l : list ascii) : Z * list ascii :=
  match l with
  | c :: l' =>
      if code c =? 45 then (-1, l')
      else if code c =? 43 then (1, l')
      else (1, l)
  | [] => (1, [])
  end.

Definition all_digits (l : list ascii) : bool :=
  nonempty l && forallb is_digit l.

(** An exponent part, or nothing. *)
Definition exponent_shape (l : list ascii) : bool :=
  match l with
  | [] => true
  | e :: r =>
      ((code e =? 101) || (code e =? 69)) && all_digits (snd (split_sign r))
  end.

(** The unsigned decimal literals of StringToNumber that are not plain
    digit sequences: a fraction, an exponent. *)
Definition decimal_shape (l : list ascii) : bool :=
  let (ip, r1) := span is_digit l in
  match r1 with
  | c :: r2 =>
      if code c =? 46 then
        let (fp, r3) := span is_digit r2 in
        (nonempty ip || nonempty fp) && exponent_shape r3
      else nonempty ip && exponent_shape r1
  | [] => nonempty ip
  end.

(** 0x, 0o and 0b literals. *)
Definition radix_shape (l : list ascii) : bool :=
  match l with
  | z :: x :: r =>
      (code z =? 48) && nonempty r &&
      ((((code x =? 120) || (code x =? 88)) && forallb is_hex r) ||
       (((code x =? 111) || (code x =? 79)) && forallb (in_range 48 55) r) ||
       (((code x =? 98) || (code x =? 66)) && forallb (in_range 48 49) r))
  | _ => false
  end.

(** StringToNumber: the empty string is 0, a signed digit sequence is its
    value, a signed Infinity is the infinity, another numeric literal is
    outside the fragment, anything else is NaN. *)
Definition StringToNumber (s : string) : option jsnum :=
  let t := trim_chars (chars s) in
  match t with
  | [] => Some (Num 0)
  | _ =>
      let (sg, ds) := split_sign t in
      if all_digits ds then exact (sg * radix_value 10 ds)
      else if String.eqb (text ds) "Infinity" then Some (Infinity (sg <? 0))
      else if decimal_shape ds || radix_shape t then None
      else Some NaN
  end.

Definition join (sep : string) (l : list string) : string :=
  match l with
  | [] => ""
  | x :: l' => fold_left (fun acc y => acc ++ sep ++ y)%string l' x
  end.

(** ToString of a request parameter. *)
Fixpoint ToString (v : json) : string :=
  match v with
  | JLeaf s => s
  | JArr items => join "," (map ToString items)
  | JObj _ => "[object Object]"
  end.

(** [Number(x)] for [x] read from the query object ([None]: undefined). *)
Definition Number (x : option json) : option jsnum :=
  match x with
  | None => Some NaN
  | Some v => StringToNumber (ToString v)
  end.

(** [parseInt(x)] without a radix: the longest digit prefix after white
    space and a sign, in base 16 after 0x. *)
Definition parseInt (x : option json) : option jsnum :=
  match x with
  | None => Some NaN
  | Some v =>
      let (sg, r) := split_sign (drop_ws (chars (ToString v))) in
      let (radix, body) :=
        match r with
        | z :: x :: r' =>
            if (code z =? 48) && ((code x =? 120) || (code x =? 88))
            then (16, r') else (10, r)
        | _ => (10, r)
        end in
      let ds := fst (span (if radix =? 16 then is_hex else is_digit) body) in
      if nonempty ds then exact (sg * radix_value radix ds) else Some NaN
  end.

(** [n || d] for a number [n]: 0 and NaN are falsy. *)
Definition num_or (n : jsnum) (d : Z) : jsnum :=
  match n with
  | Num 0 | NaN => Num d
  | _ => n
  end.

(** Arithmetic and order of numbers. *)
Definition num_neg (a : jsnum) : jsnum :=
  match a with
  | Num x => Num (- x)
  | NaN => NaN
  | Infinity s => Infinity (negb s)
  end.

Definition num_add (a b : jsnum) : jsnum :=
  match a, b with
  | Num x, Num y => Num (x + y)
  | NaN, _ | _, NaN => NaN
  | Infinity s, Num _ | Num _, Infinity s => Infinity s
  | Infinity s, Infinity s' => if Bool.eqb s s' then Infinity s else NaN
  end.

Definition num_sub (a b : jsnum) : jsnum := num_add a (num_neg b).

Definition num_mul (a b : jsnum) : jsnum :=
  match a, b with
  | Num x, Num y => Num (x * y)
  | NaN, _ | _, NaN => NaN
  | Infinity s, Num y | Num y, Infinity s =>
      if y =? 0 then NaN else Infinity (xorb s (y <? 0))
  | Infinity s, Infinity s' => Infinity (xorb s s')
  end.

(** [a <= b] *)
Definition num_le (a b : jsnum) : bool :=
  match a, b with
  | Num x, Num y => x <=? y
  | NaN, _ | _, NaN => false
  | Infinity s, Num _ => s
  | Num _, Infinity s => negb s
  | Infinity s, Infinity s' => s || negb s'
  end.

(** [a < b] *)
Definition num_lt (a b : jsnum) : bool :=
  match a, b with
  | Num x, Num y => x <? y
  | NaN, _ | _, NaN => false
  | Infinity s, Num _ => s
  | Num _, Infinity s => negb s
  | Infinity s, Infinity s' => s && negb s'
  end.

(** [Math.ceil(a / b)] on integers, [b] not 0. *)
Definition ceil_div (a b : Z) : Z := - ((- a) / b).

(** [Math.ceil(count / limit)] for a limit that is not 0. *)
Definition pages (count : Z) (limit : jsnum) : jsnum :=
  match limit with
  | Num b => Num (ceil_div count b)
  | NaN => NaN
  | Infinity _ => Num 0
  end.

(** [Math.ceil(total / l)] for an integer [total]; a division by zero is
    outside the fragment. *)
Definition num_ceil_div (total : Z) (l : jsnum) : option jsnum :=
  match l with
  | Num 0 => None
  | _ => Some (pages total l)
  end.

(** JavaScript truthiness of a request parameter: only the empty string
    and undefined are falsy. *)
Definition truthy (x : option json) : bool :=
  match x with
  | None => false
  | Some (JLeaf s) => negb (String.eqb s "")
  | Some _ => true
  end.

(** ** Outcomes *)

Inductive error : Type :=
| TypeError        (* a method called on a value that lacks it *)
| SyntaxError      (* JSON.parse on ill-formed text *)
| ReferenceError   (* a name that the file does not bind *)
| StoreError       (* the store rejected the query *)
| OutOfModel.      (* outside the fragment that is modelled *)

Inductive res (A : Type) : Type :=
| Ok (a : A)
| Err (e : error).

Arguments Ok {A} a.
Arguments Err {A} e.

Definition bind {A B : Type} (m : res A) (k : A -> res B) : res B :=
  match m with
  | Ok a => k a
  | Err e => Err e
  end.

Notation "'do' x <- m ; k" := (bind m (fun x => k))
  (at level 10, x name, m at level 100, k at level 200).

Definition in_model {A : Type} (o : option A) : res A :=
  match o with
  | Some a => Ok a
  | None => Err OutOfModel
  end.

(** ** JSON.stringify *)

Definition ch (n : Z) : ascii := ascii_of_N (Z.to_N n).

Definition quote : ascii := ch 34.
Definition backslash : ascii := ch 92.
Definition dollar : ascii := ch 36.

Definition hex_digit (n : Z) : ascii :=
  if n <? 10 then ch (48 + n) else ch (87 + n).

(** QuoteJSONString on one code unit. *)
Definition escape_char (c : ascii) : list ascii :=
  let n := code c in
  if n =? 8 then [backslash; ch 98]
  else if n =? 9 then [backslash; ch 116]
  else if n =? 10 then [backslash; ch 110]
  else if n =? 12 then [backslash; ch 102]
  else if n =? 13 then [backslash; ch 114]
  else if n =? 34 then [backslash; quote]
  else if n =? 92 then [backslash; backslash]
  else if n <? 32 then
    [backslash; ch 117; ch 48; ch 48; hex_digit (n / 16); hex_digit (n mod 16)]
  else [c].

Definition escape (l : list ascii) : list ascii := flat_map escape_char l.

Definition quoted (s : string) : list ascii :=
  quote :: escape (chars s) ++ [quote].

(** Items separated by commas. *)
Fixpoint commas (parts : list (list ascii)) : list ascii :=
  match parts with
  | [] => []
  | [p] => p
  | p :: rest => p ++ ch 44 :: commas rest
  end.

Fixpoint JSON_stringify (v : json) : list ascii :=
  match v with
  | JLeaf s => quoted s
  | JArr items => ch 91 :: commas (map JSON_stringify items) ++ [ch 93]
  | JObj entries =>
      ch 123 ::
      commas (map (fun kv => quoted (fst kv) ++ ch 58 :: JSON_stringify (snd kv))
                  entries) ++ [ch 125]
  end.

(** ** The operator regex: /\b(gt|gte|lt|lte|in)\b/g *)

(** \w *)
Definition is_word (c : ascii) : bool :=
  is_digit c || is_upper c || is_lower c || (code c =? 95).

Definition tokens : list (list ascii) :=
  map chars ["gt"; "gte"; "lt"; "lte"; "in"].

(** One alternative followed by \b, tried at the head of [s]. *)
Fixpoint token_here (w s : list ascii) : bool :=
  match w with
  | [] => match s with
          | [] => true
          | c :: _ => negb (is_word c)
          end
  | y :: w' => match s with
               | [] => false
               | c :: s' => Ascii.eqb c y && token_here w' s'
               end
  end.

(** \b between the previous character and the head of [s]. *)
Definition boundary (prev_word : bool) (s : list ascii) : bool :=
  xorb prev_word (match s with c :: _ => is_word c | [] => false end).

(** The match of the regex starting exactly at the head of [s], if any:
    the alternatives are tried from left to right. *)
Definition match_at (prev_word : bool) (s : list ascii)
  : option (list ascii) :=
  if boundary prev_word s then find (fun w => token_here w s) tokens
  else None.

(** [replace] with the callback [(match) => `$${match}`]: scans from the
    left; [skip] counts the characters of the last match still to pass. *)
Fixpoint replace_from (prev_word : bool) (skip : nat) (s : list ascii)
  : list ascii :=
  match s with
  | [] => []
  | c :: s' =>
      match skip with
      | S k => replace_from (is_word c) k s'
      | O =>
          match match_at prev_word s with
          | Some w =>
              dollar :: w ++ replace_from (is_word c) (Nat.pred (List.length w)) s'
          | None => c :: replace_from (is_word c) 0 s'
          end
      end
  end.

Definition replace_operators (s : list ascii) : list ascii :=
  replace_from false 0 s.

(** ** JSON.parse

    On the texts whose scalars are string literals; a number, [true],
    [false] or [null] is refused, and so is an escape above 255. *)

Definition is_json_ws (c : ascii) : bool :=
  (code c =? 32) || (code c =? 9) || (code c =? 10) || (code c =? 13).

Fixpoint skip_ws (l : list ascii) : list ascii :=
  match l with
  | c :: l' => if is_json_ws c then skip_ws l' else l
  | [] => []
  end.

Definition hex_value (c : ascii) : option Z :=
  if is_hex c then Some (digit_value c) else None.

(** The character denoted by the escape letter [e] of a two-character
    escape. *)
Definition unescape_letter (e : ascii) : option ascii :=
  let n := code e in
  if (n =? 34) || (n =? 92) || (n =? 47) then Some e
  else if n =? 98 then Some (ch 8)
  else if n =? 102 then Some (ch 12)
  else if n =? 110 then Some (ch 10)
  else if n =? 114 then Some (ch 13)
  else if n =? 116 then Some (ch 9)
  else None.

Definition unicode_escape (a b c d : ascii) : option ascii :=
  match hex_value a, hex_value b, hex_value c, hex_value d with
  | Some x3, Some x2, Some x1, Some x0 =>
      let n := ((x3 * 16 + x2) * 16 + x1) * 16 + x0 in
      if n <? 256 then Some (ch n) else None
  | _, _, _, _ => None
  end.

Definition push (c : option ascii) (r : option (list ascii * list ascii))
  : option (list ascii * list ascii) :=
  match c, r with
  | Some c, Some (body, rest) => Some (c :: body, rest)
  | _, _ => None
  end.

(** A string literal after its opening quote: the characters it denotes
    and the text after its closing quote. *)
Fixpoint parse_string_body (s : list ascii)
  : option (list ascii * list ascii) :=
  match s with
  | [] => None
  | c :: s1 =>
      if code c =? 34 then Some ([], s1)
      else if code c =? 92 then
        match s1 with
        | e :: s2 =>
            if code e =? 117 then
              match s2 with
              | a :: b :: c' :: d :: s6 =>
                  push (unicode_escape a b c' d) (parse_string_body s6)
              | _ => None
              end
            else push (unescape_letter e) (parse_string_body s2)
        | [] => None
        end
      else if code c <? 32 then None
      else push (Some c) (parse_string_body s1)
  end.

Fixpoint parse_value (fuel : nat) (s : list ascii)
  : option (json * list ascii) :=
  match fuel with
  | O => None
  | S n =>
      match skip_ws s with
      | c :: r =>
          if code c =? 34 then
            match parse_string_body r with
            | Some (body, r') => Some (JStr (text body), r')
            | None => None
            end
          else if code c =? 91 then
            match skip_ws r with
            | c2 :: r2 =>
                if code c2 =? 93 then Some (JArr [], r2)
                else parse_elements n [] r
            | [] => None
            end
          else if code c =? 123 then
            match skip_ws r with
            | c2 :: r2 =>
                if code c2 =? 125 then Some (JObj [], r2)
                else parse_members n [] r
            | [] => None
            end
          else None
      | [] => None
      end
  end

with parse_elements (fuel : nat) (acc : list json) (s : list ascii)
  : option (json * list ascii) :=
  match fuel with
  | O => None
  | S n =>
      match parse_value n s with
      | Some (v, r) =>
          match skip_ws r with
          | c :: r' =>
              if code c =? 44 then parse_elements n (acc ++ [v]) r'
              else if code c =? 93 then Some (JArr (acc ++ [v]), r')
              else None
          | [] => None
          end
      | None => None
      end
  end

with parse_members (fuel : nat) (acc : list (string * json)) (s : list ascii)
  : option (json * list ascii) :=
  match fuel with
  | O => None
  | S n =>
      match skip_ws s with
      | q :: r0 =>
          if code q =? 34 then
            match parse_string_body r0 with
            | Some (key, r1) =>
                match skip_ws r1 with
                | colon :: r2 =>
                    if code colon =? 58 then
                      match parse_value n r2 with
                      | Some (v, r3) =>
                          match skip_ws r3 with
                          | c :: r4 =>
                              if code c =? 44 then
                                parse_members n (Obj.set acc (text key) v) r4
                              else if code c =? 125 then
                                Some (JObj (Obj.set acc (text key) v), r4)
                              else None
                          | [] => None
                          end
                      | None => None
                      end
                    else None
                | [] => None
                end
            | None => None
            end
          else None
      | [] => None
      end
  end.

(** [JSON.parse]: one value, then nothing but white space. *)
Definition JSON_parse (s : list ascii) : option json :=
  match parse_value (S (List.length s)) s with
  | Some (v, rest) =>
      match skip_ws rest with
      | [] => Some v
      | _ => None
      end
  | None => None
  end.

(** ** The store: Mongoose queries *)

Definition CStr (s : string) : cond := JLeaf (SStr s).
Definition CInt (z : Z) : cond := JLeaf (SNum (Num z)).
Definition CNum (n : jsnum) : cond := JLeaf (SNum n).

(** The state of a Mongoose query builder. Successive [find] calls merge
    their condition objects; the arguments are kept here in call order
    and merged when the query is sent ([merge_conditions] below). *)
Record Query : Type := mkQuery {
  q_conditions : list cond;
  q_projection : option cond;
  q_collation : option cond;
  q_sort : option cond;
  q_select : list string;
  q_populate : list cond;
  q_skip : option jsnum;
  q_limit : option jsnum
}.

(** The builder methods used by the controllers. *)
Module MQuery.
Definition find (conditions : cond) : Query :=
  mkQuery [conditions] None None None [] [] None None.

Definition and_find (c : cond) (q : Query) : Query :=
  mkQuery (q_conditions q ++ [c]) (q_projection q) (q_collation q) (q_sort q)
          (q_select q) (q_populate q) (q_skip q) (q_limit q).

Definition with_projection (p : cond) (q : Query) : Query :=
  mkQuery (q_conditions q) (Some p) (q_collation q) (q_sort q)
          (q_select q) (q_populate q) (q_skip q) (q_limit q).

Definition collation (c : cond) (q : Query) : Query :=
  mkQuery (q_conditions q) (q_projection q) (Some c) (q_sort q)
          (q_select q) (q_populate q) (q_skip q) (q_limit q).

Definition sort_by (s : cond) (q : Query) : Query :=
  mkQuery (q_conditions q) (q_projection q) (q_collation q) (Some s)
          (q_select q) (q_populate q) (q_skip q) (q_limit q).

Definition select (fields : string) (q : Query) : Query :=
  mkQuery (q_conditions q) (q_projection q) (q_collation q) (q_sort q)
          (q_select q ++ [fields]) (q_populate q) (q_skip q) (q_limit q).

Definition populate (p : cond) (q : Query) : Query :=
  mkQuery (q_conditions q) (q_projection q) (q_collation q) (q_sort q)
          (q_select q) (q_populate q ++ [p]) (q_skip q) (q_limit q).

Definition skip (n : jsnum) (q : Query) : Query :=
  mkQuery (q_conditions q) (q_projection q) (q_collation q) (q_sort q)
          (q_select q) (q_populate q) (Some n) (q_limit q).

Definition limit (n : jsnum) (q : Query) : Query :=
  mkQuery (q_conditions q) (q_projection q) (q_collation q) (q_sort q)
          (q_select q) (q_populate q) (q_skip q) (Some n).
End MQuery.

(** What the database decides: which documents a condition selects, how a
    sort argument orders them, what projection and population return. *)
Class Store (doc : Type) : Type := {
  matches : cond -> doc -> bool;
  sort_docs : option cond -> cond -> list doc -> list doc;
  shape : option cond -> list string -> list cond -> doc -> doc;
  distinct_values : string -> list doc -> list scalar
}.

Record Model (doc : Type) : Type := mkModel {
  modelName : string;
  documents : list doc;
  has_status_path : bool        (* Model.schema.paths.status *)
}.

Arguments mkModel {doc} modelName documents has_status_path.
Arguments modelName {doc} m.
Arguments documents {doc} m.
Arguments has_status_path {doc} m.

Inductive store_call : Type :=
| CountCall (model : string) (c : option cond)
| FindCall (model : string) (q : Query)
| DistinctCall (model : string) (field : string).

(** Keys that Mongoose's [utils.merge] passes over. *)
Definition specialProperties : list string :=
  ["__proto__"; "constructor"; "prototype"].

Definition is_special (k : string) : bool :=
  existsb (String.eqb k) specialProperties.

(** What [to[key]] holds after [utils.merge(to, from, { overwrite: true })]
    met [from[key]]: it is set when [to] had none, merged key by key when
    [from[key]] is an object (into an empty object when [to[key]] was
    none), and replaced otherwise. *)
Fixpoint merge_value (into : option cond) (v : cond) {struct v} : cond :=
  match into with
  | None => v
  | Some t =>
      match v with
      | JObj entries =>
          JObj (fold_left
                  (fun acc kv =>
                     if is_special (fst kv) then acc
                     else Obj.set acc (fst kv)
                            (merge_value (Obj.get acc (fst kv)) (snd kv)))
                  entries
                  match t with
                  | JObj held => held
                  | _ => []
                  end)
      | _ => v
      end
  end.

(** [utils.merge(to, from, { overwrite: true })] on two condition
    objects: a later key replaces an earlier one. *)
Definition merge (into from : list (string * cond)) : list (string * cond) :=
  fold_left
    (fun acc kv =>
       if is_special (fst kv) then acc
       else Obj.set acc (fst kv) (merge_value (Obj.get acc (fst kv)) (snd kv)))
    from into.

Definition has_key (o : list (string * cond)) (k : string) : bool :=
  match Obj.get o k with
  | Some _ => true
  | None => false
  end.

(** The conditions of a query whose [find] calls had the arguments [cs],
    from the empty conditions on. A [find] whose argument is no object is
    refused. When the conditions held and the argument both carry $and,
    or both $or, Mongoose overwrites or concatenates according to its
    version: outside the fragment. *)
Definition merge_conditions (cs : list cond) : res (list (string * cond)) :=
  fold_left
    (fun held c =>
       do into <- held;
       match c with
       | JObj from =>
           if (has_key into "$and" && has_key from "$and") ||
              (has_key into "$or" && has_key from "$or")
           then Err OutOfModel
           else Ok (merge into from)
       | _ => Err StoreError
       end)
    cs (Ok []).

Section StoreOps.
Context {doc : Type} {store : Store doc}.

(** The documents selected by the merged conditions of the query. *)
Definition selected (q : Query) (docs : list doc) : res (list doc) :=
  do conditions <- merge_conditions (q_conditions q);
  Ok (filter (matches (JObj conditions)) docs).

Definition ordered (q : Query) (docs : list doc) : list doc :=
  match q_sort q with
  | Some s => sort_docs (q_collation q) s docs
  | None => docs
  end.

(** [skip] then [limit]: a skip or a limit that is no integer (NaN, an
    infinity) and a negative skip are errors of the store, limit 0 is no
    limit and a negative limit counts as its absolute value. *)
Definition window (q : Query) (docs : list doc) : res (list doc) :=
  do sk <- match q_skip q with
           | None => Ok 0%nat
           | Some (Num z) =>
               if z <? 0 then Err StoreError else Ok (Z.to_nat z)
           | Some _ => Err StoreError
           end;
  match q_limit q with
  | None | Some (Num 0) => Ok (skipn sk docs)
  | Some (Num z) => Ok (firstn (Z.to_nat (Z.abs z)) (skipn sk docs))
  | Some _ => Err StoreError
  end.

(** Awaiting a query: select, order, cut the window, shape. *)
Definition exec (q : Query) (docs : list doc) : res (list doc) :=
  do matching <- selected q docs;
  do page <- window q (ordered q matching);
  Ok (map (shape (q_projection q) (q_select q) (q_populate q)) page).

(** [Model.countDocuments(c)]; without an argument every document
    counts, with one the documents selected by it as by a [find]. *)
Definition countDocuments (M : Model doc) (c : option cond) : res Z :=
  match c with
  | None => Ok (Z.of_nat (List.length (documents M)))
  | Some c =>
      do conditions <- merge_conditions [c];
      Ok (Z.of_nat
            (List.length (filter (matches (JObj conditions)) (documents M))))
  end.
End StoreOps.

(** ** utils/ApiFeatures.js *)

Module Pagination.
(** The [paginationResults] object; an absent property is [None]. *)
Record t : Type := mk {
  currentPage : jsnum;
  limit : jsnum;
  numberOfPages : jsnum;
  nextPage : option jsnum;
  previousPage : option jsnum
}.
End Pagination.

Record ApiFeatures : Type := mkApiFeatures {
  mongooseQuery : Query;
  queryString : list (string * json);
  paginationResults : option Pagination.t
}.

(** [new ApiFeatures(mongooseQuery, queryString)] *)
Definition new_ApiFeatures (q : Query) (qs : list (string * json))
  : ApiFeatures :=
  mkApiFeatures q qs None.

Definition excludeFields : list string :=
  ["page"; "sort"; "limit"; "fields"; "keyword"].

(** [s.split(",").join(" ")] *)
Definition commas_to_spaces (s : string) : string :=
  text (map (fun c => if code c =? 44 then ch 32 else c) (chars s)).

(** [{ $regex: keyword, $options: "i" }] *)
Definition regex_i (keyword : json) : cond :=
  JObj [("$regex", cond_of_json keyword); ("$options", CStr "i")].

Definition en_strength2 : cond :=
  JObj [("locale", CStr "en"); ("strength", CInt 2)].

Section ApiFeaturesMethods.
(** [qs.parse(_, { depth: 1 })] of the qs package. *)
Variable qs_parse : list (string * json) -> list (string * json).

(** The object handed to [find] by [filter]: the parsed parameters
    without the excluded fields, serialised, rewritten by the operator
    regex and parsed back. *)
Definition filter_conditions (qs : list (string * json)) : res json :=
  let queryStringObj := fold_left Obj.delete excludeFields (qs_parse qs) in
  let queryStr := JSON_stringify (JObj queryStringObj) in
  let queryStr := replace_operators queryStr in
  match JSON_parse queryStr with
  | Some v => Ok v
  | None => Err SyntaxError
  end.

Definition filter (this : ApiFeatures) : res ApiFeatures :=
  do queryStr <- filter_conditions (queryString this);
  Ok (mkApiFeatures (MQuery.and_find (cond_of_json queryStr) (mongooseQuery this))
                    (queryString this) (paginationResults this)).

Definition sort (this : ApiFeatures) : res ApiFeatures :=
  let param := Obj.get (queryString this) "sort" in
  if truthy param then
    match param with
    | Some (JLeaf s) =>
        let sortBy := commas_to_spaces s in
        Ok (mkApiFeatures
              (MQuery.sort_by (CStr sortBy)
                       (MQuery.collation en_strength2 (mongooseQuery this)))
              (queryString this) (paginationResults this))
    | _ => Err TypeError      (* no [split] on an array or an object *)
    end
  else
    Ok (mkApiFeatures
          (MQuery.sort_by (CStr "-createdAt")
                   (MQuery.collation en_strength2 (mongooseQuery this)))
          (queryString this) (paginationResults this)).

Definition limitFields (this : ApiFeatures) : res ApiFeatures :=
  let param := Obj.get (queryString this) "fields" in
  if truthy param then
    match param with
    | Some (JLeaf s) =>
        let fields := commas_to_spaces s in
        Ok (mkApiFeatures (MQuery.select fields (mongooseQuery this))
                          (queryString this) (paginationResults this))
    | _ => Err TypeError
    end
  else
    Ok (mkApiFeatures (MQuery.select "-__v" (mongooseQuery this))
                      (queryString this) (paginationResults this)).

(** The fields searched for a model name. *)
Definition search_fields (modelName : string) : list string :=
  if String.eqb modelName "Product" then ["title"; "description"]
  else ["name"].

Definition search (modelName : string) (this : ApiFeatures)
  : res ApiFeatures :=
  let param := Obj.get (queryString this) "keyword" in
  if truthy param then
    match param with
    | Some searchQuery =>
        let query : cond :=
          if String.eqb modelName "Product" then
            JObj [("$or",
                   JArr [JObj [("title", regex_i searchQuery)];
                         JObj [("description", regex_i searchQuery)]])]
          else
            JObj [("$or", JArr [JObj [("name", regex_i searchQuery)]])] in
        Ok (mkApiFeatures (MQuery.and_find query (mongooseQuery this))
                          (queryString this) (paginationResults this))
    | None => Ok this
    end
  else Ok this.

Definition paginate (countDocuments : Z) (this : ApiFeatures)
  : res ApiFeatures :=
  do p <- in_model (Number (Obj.get (queryString this) "page"));
  do l <- in_model (Number (Obj.get (queryString this) "limit"));
  let page := num_or p 1 in
  let limit := num_or l 25 in
  let skip := num_mul (num_sub page (Num 1)) limit in
  let endIndex := num_mul page limit in
  do numberOfPages <- in_model (num_ceil_div countDocuments limit);
  let paginationResults :=
    Pagination.mk page limit numberOfPages
      (if num_lt endIndex (Num countDocuments)
       then Some (num_add page (Num 1)) else None)
      (if num_lt (Num 0) skip then Some (num_sub page (Num 1)) else None) in
  Ok (mkApiFeatures
        (MQuery.limit limit (MQuery.skip skip (mongooseQuery this)))
        (queryString this) (Some paginationResults)).
End ApiFeaturesMethods.

(** ** Controllers *)

Record Request : Type := mkRequest {
  req_query : list (string * json);      (* req.query *)
  req_filterObj : option cond            (* req.filterObj *)
}.

(** The [pagination] object of the hand-written listings. *)
Record PageInfo : Type := mkPageInfo {
  pi_page : jsnum;
  pi_limit : jsnum;
  pi_total : Z;
  pi_pages : jsnum
}.

Inductive response (doc : Type) : Type :=
| Listed (status : Z) (results : Z)
         (paginationResults : option Pagination.t) (data : list doc)
| Paged (status : Z) (data : list doc) (pagination : PageInfo)
        (extras : list cond) (message : string)
| Failed (status : Z) (message : string).   (* next(new ApiError(...)) *)

Arguments Listed {doc} status results paginationResults data.
Arguments Paged {doc} status data pagination extras message.
Arguments Failed {doc} status message.

(** A destructuring default: [{ x = d } = req.query]. The default is
    written as the literal that reads as the number [d]. *)
Definition defaulted (x : option json) (d : string) : json :=
  match x with
  | Some v => v
  | None => JStr d
  end.

(** [searchFields.map((field) => ({ [field]: { $regex: q, $options: "i" } }))] *)
Definition search_conditions (searchFields : list string) (q : json)
  : list cond :=
  map (fun field => JObj [(field, regex_i q)]) searchFields.

Definition published_states : cond :=
  JObj [("$in", JArr [CStr "approved"; CStr "active"; CStr "published"])].

Definition created_desc : cond := JObj [("createdAt", CInt (-1))].

Definition text_score : cond :=
  JObj [("score", JObj [("$meta", CStr "textScore")])].

(** [let filterObj = {}; if (req.filterObj) filterObj = req.filterObj;] *)
Definition filterObj_of (req : Request) : cond :=
  match req_filterObj req with
  | Some f => f
  | None => JObj []
  end.

Section Controllers.
Context {doc : Type} {store : Store doc}.
Variable qs_parse : list (string * json) -> list (string * json).

(** A handler run: the store calls it made, in order, and how it ended. *)
Definition handled (A : Type) : Type := (list store_call * res A)%type.

Definition hbind {A B : Type} (m : handled A) (k : A -> handled B)
  : handled B :=
  match m with
  | (calls, Ok a) => let (calls', r) := k a in (calls ++ calls', r)
  | (calls, Err e) => (calls, Err e)
  end.

Notation "'await' x <- m ; k" := (hbind m (fun x => k))
  (at level 10, x name, m at level 100, k at level 200).

(** A computation that does not touch the store. *)
Definition pure {A : Type} (r : res A) : handled A := ([], r).

Definition respond (r : response doc) : handled (response doc) := ([], Ok r).

(** [await query] *)
Definition run_find (M : Model doc) (q : Query) : handled (list doc) :=
  ([FindCall (modelName M) q], exec q (documents M)).

(** [await Model.countDocuments(c)] *)
Definition run_count (M : Model doc) (c : option cond) : handled Z :=
  ([CountCall (modelName M) c], countDocuments M c).

(** [await Model.distinct(field)] *)
Definition run_distinct (M : Model doc) (field : string)
  : handled (list scalar) :=
  ([DistinctCall (modelName M) field],
   Ok (distinct_values field (documents M))).

(** [await Promise.all([a, b])]: both are started. *)
Definition both {A B : Type} (a : handled A) (b : handled B)
  : handled (A * B) :=
  (fst a ++ fst b,
   match snd a, snd b with
   | Ok x, Ok y => Ok (x, y)
   | Err e, _ => Err e
   | Ok _, Err e => Err e
   end).

(** The builder chain of [getAll]:
    [new ApiFeatures(Model.find(filterObj), req.query)
       .search(Model.modelName).limitFields().filter().sort()
       .paginate(countDocuments)] *)
Definition build_query (name : string) (filterObj : cond)
    (query : list (string * json)) (countDocuments : Z) : res ApiFeatures :=
  do a <- search name (new_ApiFeatures (MQuery.find filterObj) query);
  do a <- limitFields a;
  do a <- filter qs_parse a;
  do a <- sort a;
  paginate countDocuments a.

(** factory: [getAll(Model)] *)
Definition getAll (M : Model doc) (req : Request)
  : handled (response doc) :=
  let filterObj := filterObj_of req in
  await countDocuments <- run_count M None;
  await apiFeature <-
    pure (build_query (modelName M) filterObj (req_query req) countDocuments);
  await documents <- run_find M (mongooseQuery apiFeature);
  respond (Listed 200 (Z.of_nat (List.length documents))
                  (paginationResults apiFeature) documents).

(** factory: [searchDocuments(Model, searchFields, populateOptions)] *)
Definition searchDocuments (M : Model doc) (searchFields : list string)
    (populateOptions : option cond) (req : Request)
  : handled (response doc) :=
  let q := Obj.get (req_query req) "q" in
  let page := defaulted (Obj.get (req_query req) "page") "1" in
  let limit := defaulted (Obj.get (req_query req) "limit") "10" in
  if negb (truthy q) then respond (Failed 400 "Search query is required")
  else
    match q with
    | Some (JLeaf s) =>
        if String.eqb (trim s) "" then
          respond (Failed 400 "Search query is required")
        else
          let searchConditions := search_conditions searchFields (JStr s) in
          let baseFilter : cond :=
            if has_status_path M then JObj [("status", published_states)]
            else JObj [] in
          let conditions : cond :=
            JObj [("$and", JArr [JObj [("$or", JArr searchConditions)];
                                 baseFilter])] in
          await np <- pure (in_model (Number (Some page)));
          await nl <- pure (in_model (Number (Some limit)));
          await il <- pure (in_model (parseInt (Some limit)));
          let skip := num_mul (num_sub np (Num 1)) nl in
          let query :=
            MQuery.sort_by created_desc
              (MQuery.limit il (MQuery.skip skip (MQuery.find conditions))) in
          let query :=
            match populateOptions with
            | Some p => MQuery.populate p query
            | None => query
            end in
          await found <-
            both (run_find M query) (run_count M (Some conditions));
          (* the answer is built with [ApiResponse.paginated], a name
             that the factory file does not require: evaluating it
             throws, after the pagination object was computed *)
          pure (Err ReferenceError)
    | _ => pure (Err TypeError)     (* no [trim] on an array or an object *)
    end.

(** [parseInt(x) || d] *)
Definition parseInt_or (x : option json) (d : Z) : res Z :=
  do n <- in_model (parseInt x);
  match num_or n d with
  | Num z => Ok z
  | _ => Err OutOfModel         (* [parseInt] reads no infinity here *)
  end.

(** [if (x) o[k] = f(x)] *)
Definition set_if (x : option json) (k : string) (f : json -> res cond)
    (o : list (string * cond)) : res (list (string * cond)) :=
  match x with
  | Some v =>
      if truthy x then do c <- f v; Ok (Obj.set o k c) else Ok o
  | None => Ok o
  end.

Definition plain (v : json) : res cond := Ok (cond_of_json v).

(** [.limit(limit * 1).skip((page - 1) * limit)] *)
Definition page_window (page limit : Z) (q : Query) : Query :=
  MQuery.skip (Num ((page - 1) * limit)) (MQuery.limit (Num (limit * 1)) q).

(** [{ page, limit, total, pages: Math.ceil(total / limit) }] *)
Definition page_info (page limit total : Z) : PageInfo :=
  mkPageInfo (Num page) (Num limit) total (Num (ceil_div total limit)).

(** settingsController: [getAllSettings] *)
Definition getAllSettings (Settings : Model doc) (req : Request)
  : handled (response doc) :=
  let get := Obj.get (req_query req) in
  await page <- pure (parseInt_or (get "page") 1);
  await limit <- pure (parseInt_or (get "limit") 50);
  await query <- pure (set_if (get "category") "category" plain []);
  await query <-
    pure (set_if (get "search") "$or"
            (fun search =>
               Ok (JArr [JObj [("key", regex_i search)];
                         JObj [("description", regex_i search)]]))
            query);
  await settings <-
    run_find Settings
      (page_window page limit
         (MQuery.sort_by (JObj [("category", CInt 1); ("key", CInt 1)])
            (MQuery.populate
               (JArr [CStr "lastModifiedBy"; CStr "firstName lastName email"])
               (MQuery.find (JObj query)))));
  await total <- run_count Settings (Some (JObj query));
  await categories <- run_distinct Settings "category";
  respond (Paged 200 settings (page_info page limit total)
                 (map JLeaf categories) "Settings retrieved successfully").

(** missionController: [getOpenMissions] *)
Definition getOpenMissions (Mission : Model doc) (req : Request)
  : handled (response doc) :=
  let get := Obj.get (req_query req) in
  let bound (op : string) (v : json) : res cond :=
    do n <- in_model (parseInt (Some v));
    Ok (JObj [(op, CNum n)]) in
  await page <- pure (parseInt_or (get "page") 1);
  await limit <- pure (parseInt_or (get "limit") 10);
  await filters <-
    pure (set_if (get "type") "type" plain [("status", CStr "open")]);
  await filters <-
    pure (set_if (get "city") "location.city"
            (fun city => Ok (regex_i city)) filters);
  await filters <-
    pure (set_if (get "minBudget") "budget.min" (bound "$gte") filters);
  await filters <-
    pure (set_if (get "maxBudget") "budget.max" (bound "$lte") filters);
  await missions <-
    run_find Mission
      (page_window page limit
         (MQuery.sort_by created_desc
            (MQuery.populate
               (JArr [CStr "createdBy"; CStr "firstName lastName"])
               (MQuery.find (JObj filters)))));
  await total <- run_count Mission (Some (JObj filters));
  respond (Paged 200 missions (page_info page limit total) []
                 "Open missions retrieved successfully").

(** Upload model: the static [searchUploads(query, filters)] *)
Definition Upload_searchUploads (query : json)
    (filters : list (string * cond)) : Query :=
  let searchQuery :=
    fold_left (fun o kv => Obj.set o (fst kv) (snd kv)) filters
      [("$text", JObj [("$search", cond_of_json query)]);
       ("status", CStr "approved")] in
  MQuery.sort_by text_score
    (MQuery.with_projection text_score (MQuery.find (JObj searchQuery))).

(** galleryController: [searchUploads] *)
Definition searchUploads (Upload : Model doc) (req : Request)
  : handled (response doc) :=
  let get := Obj.get (req_query req) in
  let query := get "q" in
  await page <- pure (parseInt_or (get "page") 1);
  await limit <- pure (parseInt_or (get "limit") 20);
  match query with
  | Some qv =>
      if negb (truthy query) then
        respond (Failed 400 "Search query is required")
      else
        await filters <- pure (set_if (get "category") "category" plain []);
        await filters <-
          pure (set_if (get "fileType") "fileType" plain filters);
        await uploads <-
          run_find Upload
            (page_window page limit
               (MQuery.select "-originalFileUrl"
                  (MQuery.populate
                     (JArr [CStr "user"; CStr "firstName lastName avatar"])
                     (Upload_searchUploads qv filters))));
        let total := Z.of_nat (List.length uploads) in
        respond (Paged 200 uploads (page_info page limit total)
                       [cond_of_json qv]
                       "Search results retrieved successfully")
  | None => respond (Failed 400 "Search query is required")
  end.
End Controllers.

(** ** What the filter rewriting amounts to

    The regex runs over the serialised text, in which a control character
    is written as an escape that ends in a letter or a digit. Read on the
    string itself, an operator word is therefore prefixed when it is
    followed by a non-word character or the end, and preceded by the start
    or by a character that is neither a word character nor a control
    character. *)

(** The serialisation of [c] ends in a word character. *)
Definition ends_word (c : ascii) : bool := is_word c || (code c <? 32).

(** The regex matches at the head of [s]. *)
Definition matched (prev_word : bool) (s : list ascii) : bool :=
  boundary prev_word s && existsb (fun w => token_here w s) tokens.

Fixpoint rewrite_from (prev_word : bool) (s : list ascii) : list ascii :=
  match s with
  | [] => []
  | c :: s' =>
      (if matched prev_word s then [dollar] else [])
        ++ c :: rewrite_from (ends_word c) s'
  end.

Definition rewrite_string (s : string) : string :=
  text (rewrite_from false (chars s)).

Fixpoint rewrite_json (v : json) : json :=
  match v with
  | JLeaf s => JLeaf (rewrite_string s)
  | JArr items => JArr (map rewrite_json items)
  | JObj entries =>
      JObj (fold_left
              (fun acc kv =>
                 Obj.set acc (rewrite_string (fst kv)) (rewrite_json (snd kv)))
              entries [])
  end.

(** The replacement seen as an insertion: a dollar goes before every
    position where the regex matches, and nothing else changes. *)
Fixpoint insert_from (prev_word : bool) (s : list ascii) : list ascii :=
  match s with
  | [] => []
  | c :: s' =>
      (if matched prev_word s then [dollar] else [])
        ++ c :: insert_from (is_word c) s'
  end.

(** The shape of a serialised value, over the text put between the quotes
    of each string. *)
Fixpoint render (body : string -> list ascii) (v : json) : list ascii :=
  match v with
  | JLeaf s => quote :: body s ++ [quote]
  | JArr items => ch 91 :: commas (map (render body) items) ++ [ch 93]
  | JObj entries =>
      ch 123 ::
      commas (map (fun kv =>
                     quote :: body (fst kv) ++ quote :: ch 58
                       :: render body (snd kv)) entries) ++ [ch 125]
  end.

Definition escaped (s : string) : list ascii := escape (chars s).

Definition rewritten (s : string) : list ascii :=
  insert_from false (escaped s).

(** Fuel that suffices to parse the serialisation of a value. *)
Fixpoint json_size (v : json) : nat :=
  match v with
  | JLeaf _ => 1
  | JArr items => S (fold_right (fun x n => S (json_size x + n)) 0 items)
  | JObj entries =>
      S (fold_right (fun kv n => S (json_size (snd kv) + n)) 0 entries)
  end%nat.

(** The fields named by a list of single-field conditions. *)
Definition searched_fields (conditions : list cond) : list string :=
  flat_map (fun c => match c with
                     | JObj ((field, _) :: _) => [field]
                     | _ => []
                     end) conditions.

(** What each builder step contributes, read off the parameters: the
    condition of [search], the argument of [select] and that of [sort]. *)
Definition keyword_condition (name : string) (query : list (string * json))
  : list cond :=
  match Obj.get query "keyword" with
  | Some keyword =>
      if truthy (Some keyword)
      then [JObj [("$or", JArr (search_conditions (search_fields name) keyword))]]
      else []
  | None => []
  end.

Definition string_argument (param : option json) (default : string)
  : res string :=
  if truthy param then
    match param with
    | Some (JLeaf s) => Ok (commas_to_spaces s)
    | _ => Err TypeError
    end
  else Ok default.

(** The query with other [find] arguments. *)
Definition with_conditions (conditions : list cond) (q : Query) : Query :=
  mkQuery conditions (q_projection q) (q_collation q) (q_sort q)
          (q_select q) (q_populate q) (q_skip q) (q_limit q).

(** The builder chain in the order filter, search, sort, projection,
    pagination, to compare with [build_query]. *)
Definition build_query_in_stated_order
    (qs_parse : list (string * json) -> list (string * json))
    (name : string) (filterObj : cond) (query : list (string * json))
    (countDocuments : Z) : res ApiFeatures :=
  do a <- filter qs_parse (new_ApiFeatures (MQuery.find filterObj) query);
  do a <- search name a;
  do a <- sort a;
  do a <- limitFields a;
  paginate countDocuments a.

(** ** A small in-memory store for the fixtures

    Flat records; equality, the comparison and membership operators, $or
    and $and, $text as a match of words; operands written as strings are
    cast to numbers against a numeric field, as Mongoose casts them to the
    schema type. *)
Module Fixture.

Definition record : Type := list (string * scalar).

Definition as_number (s : scalar) : option Z :=
  match s with
  | SNum (Num z) => Some z
  | SStr t => match StringToNumber t with
              | Some (Num z) => Some z
              | _ => None
              end
  | _ => None
  end.

Definition lower (c : ascii) : ascii :=
  if is_upper c then ch (code c + 32) else c.

Definition fold_case (s : string) : string := text (map lower (chars s)).

(** The order of two scalars of one kind, if they have one. *)
Definition compare_scalar (insensitive : bool) (field operand : scalar)
  : option comparison :=
  match field with
  | SNum (Num x) =>
      match as_number operand with
      | Some y => Some (x ?= y)
      | None => None
      end
  | SStr x =>
      match operand with
      | SStr y =>
          if insensitive
          then Some (String.compare (fold_case x) (fold_case y))
          else Some (String.compare x y)
      | _ => None
      end
  | SBool x =>
      match operand with
      | SBool y => if Bool.eqb x y then Some Eq else None
      | SStr y =>
          if String.eqb y (if x then "true" else "false") then Some Eq
          else None
      | _ => None
      end
  | SNum _ => None
  end.

Definition is_cmp (c : comparison) (o : option comparison) : bool :=
  match o with
  | Some c' => match c, c' with
               | Eq, Eq | Lt, Lt | Gt, Gt => true
               | _, _ => false
               end
  | None => false
  end.

Definition equals (field operand : scalar) : bool :=
  is_cmp Eq (compare_scalar false field operand).

Definition operator_holds (op : string) (field : scalar) (operand : cond)
  : bool :=
  match operand with
  | JLeaf x =>
      let o := compare_scalar false field x in
      if String.eqb op "$gt" then is_cmp Gt o
      else if String.eqb op "$gte" then is_cmp Gt o || is_cmp Eq o
      else if String.eqb op "$lt" then is_cmp Lt o
      else if String.eqb op "$lte" then is_cmp Lt o || is_cmp Eq o
      else false
  | JArr items =>
      String.eqb op "$in" &&
      existsb (fun i => match i with
                        | JLeaf x => equals field x
                        | _ => false
                        end) items
  | JObj _ => false
  end.

Definition field_holds (field : option scalar) (c : cond) : bool :=
  match field with
  | None => false
  | Some f =>
      match c with
      | JLeaf x => equals f x
      | JObj ops =>
          forallb (fun kv => operator_holds (fst kv) f (snd kv)) ops
      | JArr _ => false
      end
  end.

Fixpoint split_on (sep : Z) (l : list ascii) : list (list ascii) :=
  match l with
  | [] => [[]]
  | c :: l' =>
      if code c =? sep then [] :: split_on sep l'
      else match split_on sep l' with
           | w :: ws => (c :: w) :: ws
           | [] => [[c]]
           end
  end.

Definition words (s : string) : list string :=
  map text (List.filter nonempty (split_on 32 (chars s))).

(** [{ $search: q }] on the text index of the uploads: some word of [q]
    is a word of the title, the description or the tags, whatever the
    case. *)
Definition text_holds (search : cond) (d : record) : bool :=
  match search with
  | JObj ops =>
      match Obj.get ops "$search" with
      | Some (JLeaf (SStr q)) =>
          existsb
            (fun w =>
               existsb
                 (fun field =>
                    match Obj.get d field with
                    | Some (SStr v) =>
                        existsb (String.eqb (fold_case w))
                                (map fold_case (words v))
                    | _ => false
                    end)
                 ["title"; "description"; "tags"])
            (words q)
      | _ => false
      end
  | _ => false
  end.

Fixpoint matches_record (c : cond) (d : record) : bool :=
  match c with
  | JObj entries =>
      forallb
        (fun kv =>
           if String.eqb (fst kv) "$text" then text_holds (snd kv) d
           else if String.eqb (fst kv) "$or" then
             match snd kv with
             | JArr items => existsb (fun i => matches_record i d) items
             | _ => false
             end
           else if String.eqb (fst kv) "$and" then
             match snd kv with
             | JArr items => forallb (fun i => matches_record i d) items
             | _ => false
             end
           else field_holds (Obj.get d (fst kv)) (snd kv))
        entries
  | _ => false
  end.

(** Sort keys with their direction: [true] is descending. *)
Definition sort_keys (s : cond) : list (string * bool) :=
  match s with
  | JLeaf (SStr spec) =>
      map (fun w => match w with
                    | String c r =>
                        if code c =? 45 then (r, true) else (w, false)
                    | EmptyString => (w, false)
                    end) (words spec)
  | JObj entries =>
      map (fun kv => (fst kv,
                      match snd kv with
                      | JLeaf (SNum (Num z)) => z <? 0
                      | _ => false
                      end)) entries
  | _ => []
  end.

(** [a] goes before [b], or ties with it, under the keys. *)
Fixpoint before (insensitive : bool) (keys : list (string * bool))
    (a b : record) : bool :=
  match keys with
  | [] => true
  | (k, desc) :: keys' =>
      match Obj.get a k, Obj.get b k with
      | Some x, Some y =>
          match compare_scalar insensitive x y with
          | Some Lt => negb desc
          | Some Gt => desc
          | _ => before insensitive keys' a b
          end
      | _, _ => before insensitive keys' a b
      end
  end.

Fixpoint insert_sorted (le : record -> record -> bool) (x : record)
    (l : list record) : list record :=
  match l with
  | [] => [x]
  | y :: l' => if le x y then x :: l else y :: insert_sorted le x l'
  end.

Definition sort_records (coll : option cond) (s : cond) (l : list record)
  : list record :=
  fold_right (insert_sorted (before (nonempty (match coll with
                                               | Some _ => [tt]
                                               | None => []
                                               end))
                                    (sort_keys s))) [] l.

(** [select]: names after "-" are left out; otherwise only the names
    listed are kept. Population leaves a flat record as it is. *)
Definition select_record (fields : string) (d : record) : record :=
  let names := words fields in
  let excluded :=
    map (fun w => match w with String _ r => r | EmptyString => w end)
        (List.filter (fun w => match w with
                               | String c _ => code c =? 45
                               | EmptyString => false
                               end) names) in
  if nonempty excluded then
    List.filter (fun kv => negb (existsb (String.eqb (fst kv)) excluded)) d
  else
    List.filter (fun kv => existsb (String.eqb (fst kv)) names) d.

Definition scalar_eqb (a b : scalar) : bool :=
  match a, b with
  | SStr x, SStr y => String.eqb x y
  | SNum (Num x), SNum (Num y) => x =? y
  | SBool x, SBool y => Bool.eqb x y
  | _, _ => false
  end.

Fixpoint dedup (l : list scalar) : list scalar :=
  match l with
  | [] => []
  | x :: l' => x :: List.filter (fun y => negb (scalar_eqb x y)) (dedup l')
  end.

Definition distinct_field (field : string) (l : list record) : list scalar :=
  dedup (flat_map (fun d => match Obj.get d field with
                            | Some v => [v]
                            | None => []
                            end) l).

#[export] Instance store : Store record := {
  matches := matches_record;
  sort_docs := sort_records;
  shape := fun _ sel _ d => fold_left (fun acc f => select_record f acc) sel d;
  distinct_values := distinct_field
}.

End Fixture.

#[global] Existing Instance Fixture.store.

(** ** Notions used in the proofs about the filter *)

Definition wordy (w : list ascii) : Prop := Forall (fun c => is_word c = true) w.

(** A piece of text that the insertion rewrites on its own, whatever
    comes before and after it. *)
Definition closed_piece (piece piece' : list ascii) : Prop :=
  forall (p : bool) (rest : list ascii),
    insert_from p (piece ++ rest) = piece' ++ insert_from false rest.

(** A character that the serialisation leaves as it is. *)
Definition plain_char (c : ascii) : Prop :=
  escape_char c = [c] /\ (code c =? 34) = false /\ (code c =? 92) = false /\
  (code c <? 32) = false.

(** A character that the serialisation escapes: no match starts inside
    the escape, and the parser reads the character back. *)
Definition escaped_char (c : ascii) : Prop :=
  is_word c = false /\
  (exists e, escape_char c = backslash :: e) /\
  (forall (p : bool) (rest : list ascii),
     insert_from p (escape_char c ++ rest) =
       escape_char c ++ insert_from (ends_word c) rest) /\
  (forall rest : list ascii,
     parse_string_body (escape_char c ++ rest) =
       push (Some c) (parse_string_body rest)).

Definition parses_back (v : json) : Prop :=
  forall (fuel : nat) (rest : list ascii),
    (json_size v <= fuel)%nat ->
    parse_value fuel (render rewritten v ++ rest) = Some (rewrite_json v, rest).

Definition elements_size (items : list json) : nat :=
  fold_right (fun x n => S (json_size x + n)) 0%nat items.

Definition member (kv : string * json) : list ascii :=
  quote :: rewritten (fst kv) ++ quote :: ch 58 :: render rewritten (snd kv).

Definition members_size (entries : list (string * json)) : nat :=
  fold_right (fun kv n => S (json_size (snd kv) + n)) 0%nat entries.

Definition rewrite_entry (acc : list (string * json)) (kv : string * json)
  : list (string * json) :=
  Obj.set acc (rewrite_string (fst kv)) (rewrite_json (snd kv)).

(** A list that does not start with white space. *)
Definition headed (l : list ascii) : Prop :=
  match l with
  | [] => True
  | c :: _ => is_ws c = false
  end.

(** [n] is the ceiling of [a / b], for a positive [b]. *)
Definition is_ceiling (n a b : Z) : Prop := (n - 1) * b < a <= n * b.

(** ** Fixtures *)

(** An [ApiFeatures] object over [Model.find({})] and the given
    parameters. *)
Definition features_of (query : list (string * json)) : ApiFeatures :=
  new_ApiFeatures (MQuery.find (JObj [])) query.

(** The names of the properties of [Object.prototype]. *)
Definition prototype_names : list string :=
  ["constructor"; "__defineGetter__"; "__defineSetter__"; "hasOwnProperty";
   "__lookupGetter__"; "__lookupSetter__"; "isPrototypeOf";
   "propertyIsEnumerable"; "toString"; "valueOf"; "__proto__";
   "toLocaleString"].

(** [qs.parse(o, { depth: 1 })] on an object that Express has parsed and
    whose keys hold no bracket: an entry whose key is empty or names a
    property of [Object.prototype] is left out, the others come back as
    they are. *)
Definition parsed (o : list (string * json)) : list (string * json) :=
  List.filter
    (fun kv => negb (String.eqb (fst kv) "" ||
                     existsb (String.eqb (fst kv)) prototype_names))
    o.

(** Five uploads priced 5, 10, 30, 50 and 60. *)
Definition priced (title : string) (price : Z) : Fixture.record :=
  [("title", SStr title); ("price", SNum (Num price))].

Definition uploads : Model Fixture.record :=
  mkModel "Upload"
    [priced "a" 5; priced "b" 10; priced "c" 30; priced "d" 50; priced "e" 60]
    true.

(** [?price[gte]=10&price[lte]=50&limit=2], as Express parses it. *)
Definition priced_request : Request :=
  mkRequest [("price", JObj [("gte", JStr "10"); ("lte", JStr "50")]);
             ("limit", JStr "2")] None.

Definition priced_listing : list store_call * res (response Fixture.record) :=
  Eval vm_compute in
    getAll (store := Fixture.store) parsed uploads priced_request.

Definition settings : Model Fixture.record :=
  mkModel "Settings"
    [[("key", SStr "site_name"); ("category", SStr "general")];
     [("key", SStr "smtp_host"); ("category", SStr "email")];
     [("key", SStr "site_logo"); ("category", SStr "general")]]
    false.

Definition general_request : Request :=
  mkRequest [("category", JStr "general"); ("limit", JStr "1")] None.

Definition general_listing : list store_call * res (response Fixture.record) :=
  Eval vm_compute in
    getAllSettings (store := Fixture.store) settings general_request.

Definition missions : Model Fixture.record :=
  mkModel "Mission"
    [[("title", SStr "wedding"); ("status", SStr "open")];
     [("title", SStr "festival"); ("status", SStr "completed")];
     [("title", SStr "harbour"); ("status", SStr "open")]]
    true.

Definition open_listing : list store_call * res (response Fixture.record) :=
  Eval vm_compute in
    getOpenMissions (store := Fixture.store) missions (mkRequest [] None).

(** [GET /api/uploads/search?q=sunset], with the fields the upload
    controller passes to the factory. *)
Definition upload_search_fields : list string :=
  ["title"; "description"; "tags"].

Definition sunset_request : Request := mkRequest [("q", JStr "sunset")] None.

(** Uploads of the gallery, three of them approved, and
    [GET /api/gallery/search?q=sunset&limit=1]. *)
Definition gallery : Model Fixture.record :=
  mkModel "Upload"
    [[("title", SStr "sunset beach"); ("status", SStr "approved")];
     [("title", SStr "forest"); ("status", SStr "approved")];
     [("title", SStr "sunset hill"); ("status", SStr "approved")];
     [("title", SStr "sunset pier"); ("status", SStr "pending")]]
    true.

Definition sunset_page_request : Request :=
  mkRequest [("q", JStr "sunset"); ("limit", JStr "1")] None.

Definition sunset_query : Query :=
  Eval vm_compute in
    match fst (searchDocuments (store := Fixture.store) uploads
                 upload_search_fields None sunset_request) with
    | FindCall _ q :: _ => q
    | _ => MQuery.find (JObj [])
    end.

(** The query and the pagination results that the steps add up to, given
    what each step read from the parameters. *)
Definition assembled (conditions : list cond) (fields sortBy : string)
    (p l : jsnum) (count : Z) (query : list (string * json)) : ApiFeatures :=
  let page := num_or p 1 in
  let limit := num_or l 25 in
  let skip := num_mul (num_sub page (Num 1)) limit in
  mkApiFeatures
    (mkQuery conditions None (Some en_strength2) (Some (CStr sortBy))
             [fields] [] (Some skip) (Some limit))
    query
    (Some (Pagination.mk page limit (pages count limit)
             (if num_lt (num_mul page limit) (Num count)
              then Some (num_add page (Num 1)) else None)
             (if num_lt (Num 0) skip
              then Some (num_sub page (Num 1)) else None))).

(** [GET /api/uploads?keyword=sunset&category=photography] *)
Definition sunset_listing_query : list (string * json) :=
  [("keyword", JStr "sunset"); ("category", JStr "photography")].

Definition sunset_listing : ApiFeatures :=
  Eval vm_compute in
    match build_query parsed "Upload" (JObj []) sunset_listing_query 5 with
    | Ok a => a
    | Err _ => features_of []
    end.

(** The operator names that the regex knows. *)
Definition operator_tokens : list string := ["gt"; "gte"; "lt"; "lte"; "in"].

(** [?price[gte]=10&price[lte]=50], as Express parses it. *)
Definition price_range : list (string * json) :=
  [("price", JObj [("gte", JStr "10"); ("lte", JStr "50")])].

Definition price_range_condition : json :=
  JObj [("price", JObj [("$gte", JStr "10"); ("$lte", JStr "50")])].

(** Nothing before the word, or a character whose serialisation does not
    end in a word character. *)
Definition clear_before (a : string) : bool :=
  match rev (chars a) with
  | [] => true
  | c :: _ => negb (ends_word c)
  end.

(** Nothing after the word, or a non-word character. *)
Definition clear_after (b : string) : bool := token_here [] (chars b).

(** A string without its dollars. *)
Definition without_dollars (s : string) : list ascii :=
  List.filter (fun c => negb (Ascii.eqb c dollar)) (chars s).

(** The string is one of the operator names. *)
Definition is_operator (s : string) : bool :=
  existsb (String.eqb s) operator_tokens.

(** Every character of the string is a word character. *)
Definition one_word (s : string) : bool := forallb is_word (chars s).

(** A parameter that [split] can be called on, when it is looked at: it is
    absent or a string. *)
Definition textual (param : option json) : bool :=
  match param with
  | None | Some (JLeaf _) => true
  | Some _ => false
  end.

(** [?sort=price&sort=title]: Express hands over an array. *)
Definition twice_sorted_request : Request :=
  mkRequest [("sort", JArr [JStr "price"; JStr "title"])] None.

(** The calls of a handler that reach the store with a condition: every
    find carries exactly the condition [c], every count counts [c]. *)
Definition asks_only (c : cond) (call : store_call) : Prop :=
  match call with
  | FindCall _ q => q_conditions q = [c]
  | CountCall _ counted => counted = Some c
  | DistinctCall _ _ => False
  end.

(** ** utils/ApiError.js and utils/ApiResponse.js *)

(** The text of an integer in a template literal. *)
Definition decimal (n : Z) : string := NilZero.string_of_int (Z.to_int n).

Module ApiError.
Record t : Type := mk {
  message : string;
  statusCode : Z;
  status : string;
  isOperational : bool;
  errorCode : option string
}.

(** [new ApiError(message, statusCode, errorCode)] *)
Definition new (message : string) (statusCode : Z)
    (errorCode : option string) : t :=
  mk message statusCode
     (if prefix "4" (decimal statusCode) then "fail" else "error")
     true errorCode.
End ApiError.

(** The truth value of a value held in a response; [None] is
    [undefined]. *)
Definition truthy_value (x : option cond) : bool :=
  match x with
  | None => false
  | Some (JLeaf (SStr s)) => negb (String.eqb s "")
  | Some (JLeaf (SNum (Num z))) => negb (z =? 0)
  | Some (JLeaf (SNum NaN)) => false
  | Some (JLeaf (SBool b)) => b
  | Some _ => true
  end.

(** [v[k]] for a value [v]: only an object has entries of its own. *)
Definition property (v : cond) (k : string) : option cond :=
  match v with
  | JObj entries => Obj.get entries k
  | _ => None
  end.

Module ApiResponse.
(** An instance, without the timestamp and the request id, which come
    from the clock and the random generator. [None] is [null] for the
    data, no property for the meta. *)
Record t (D : Type) : Type := mk {
  statusCode : Z;
  status : string;
  message : string;
  data : option D;
  meta : option (list (string * cond))
}.

Arguments mk {D} statusCode status message data meta.
Arguments statusCode {D} t.
Arguments status {D} t.
Arguments message {D} t.
Arguments data {D} t.
Arguments meta {D} t.

(** [new ApiResponse(statusCode, data, message, meta)] *)
Definition new {D : Type} (statusCode : Z) (data : option D)
    (message : string) (meta : option (list (string * cond))) : t D :=
  mk statusCode (if statusCode <? 400 then "success" else "error")
     message data meta.

(** [ApiResponse.bulk(results, message)] *)
Definition bulk (results : list cond) (message : string) : t (list cond) :=
  let success r := truthy_value (property r "success") in
  new 200 (Some results) message
    (Some [("bulk",
            JObj [("total", CInt (Z.of_nat (List.length results)));
                  ("successful",
                   CInt (Z.of_nat (List.length (List.filter success results))));
                  ("failed",
                   CInt (Z.of_nat
                           (List.length
                              (List.filter (fun r => negb (success r))
                                           results))));
                  ("details", JArr results)])]).

(** [this.addMeta(key, value)]. Assigning to the key "__proto__" of an
    object that has no entry of this name gives it none: the assignment
    replaces its prototype, or does nothing. *)
Definition addMeta {D : Type} (key : string) (value : cond) (this : t D)
  : t D :=
  let meta := match meta this with
              | Some m => m
              | None => []
              end in
  mk (statusCode this) (status this) (message this) (data this)
     (Some (if String.eqb key "__proto__" && negb (has_key meta key)
            then meta
            else Obj.set meta key value)).

(** [permissions.includes(x)] *)
Definition includes (permissions : list string) (x : string) : bool :=
  existsb (String.eqb x) permissions.

Definition determineAccessLevel (permissions : list string) : string :=
  if includes permissions "admin" || includes permissions "master"
  then "full"
  else if includes permissions "write" then "write"
  else if includes permissions "read" then "read"
  else "none".

(** [this.addSecurityInfo(permissions)] *)
Definition addSecurityInfo {D : Type} (permissions : list string)
    (this : t D) : t D :=
  addMeta "security"
    (JObj [("permissions", JArr (map CStr permissions));
           ("accessLevel", CStr (determineAccessLevel permissions))])
    this.
End ApiResponse.

(** How much an access level allows. *)
Definition access_rank (level : string) : Z :=
  if String.eqb level "full" then 3
  else if String.eqb level "write" then 2
  else if String.eqb level "read" then 1
  else 0.

(** The status codes from [lo] on, [n] of them. *)
Definition status_codes (lo : Z) (n : nat) : list Z :=
  map (fun i => lo + Z.of_nat i) (seq 0 n).

(** ** Documents: the Upload and Mission models

    Of a document, the fields that the methods and handlers below read or
    write. A date is the number the clock gave; an ObjectId is its text. *)

(** [[...new Set(l)]]: the values in the order they first occur. *)
Definition Set_values (l : list string) : list string :=
  fold_left (fun seen x =>
               if existsb (String.eqb x) seen then seen else seen ++ [x])
            l [].

(** [String.prototype.toLowerCase] on code units below 256. *)
Definition lower_char (c : ascii) : ascii :=
  if is_upper c || (in_range 192 222 c && negb (code c =? 215))
  then ch (code c + 32) else c.

Definition toLowerCase (s : string) : string :=
  text (map lower_char (chars s)).

(** The setters of the tags path, [trim: true] and [lowercase: true],
    which Mongoose applies to every element assigned to it. *)
Definition tag_setters (tag : string) : string := toLowerCase (trim tag).

(** [if (this.tags && this.tags.length > 0)
       this.tags = [...new Set(this.tags.filter((tag) => tag.trim() !== ""))]],
    the assignment going through the setters of the path. *)
Definition clean_tags (tags : list string) : list string :=
  match tags with
  | [] => tags
  | _ :: _ =>
      map tag_setters
        (Set_values
           (List.filter (fun tag => negb (String.eqb (trim tag) "")) tags))
  end.

Module Upload.
Record t : Type := mk {
  _id : string;
  status : string;
  likes : Z;
  tags : list string;
  reviewedAt : option Z
}.

(** [uploadSchema.pre("save", ...)], given what [this.isModified("status")]
    answers and the clock. The hook always passes on. *)
Definition pre_save (isModified_status : bool) (now : Z) (this : t) : t :=
  let tags := clean_tags (tags this) in
  let reviewedAt :=
    if isModified_status &&
       existsb (String.eqb (status this)) ["approved"; "rejected"]
    then Some now else reviewedAt this in
  mk (_id this) (status this) (likes this) tags reviewedAt.

(** [Upload.findOne({ _id: id, status: "approved" })] *)
Definition findOne_approved (uploads : list t) (id : string) : option t :=
  find (fun u => String.eqb (_id u) id && String.eqb (status u) "approved")
       uploads.

(** [upload.save({ validateBeforeSave: false })]: the hook runs and the
    document is written over the stored one of its [_id]. *)
Definition save (isModified_status : bool) (now : Z) (upload : t)
    (uploads : list t) : list t :=
  let saved := pre_save isModified_status now upload in
  map (fun u => if String.eqb (_id u) (_id saved) then saved else u) uploads.
End Upload.

(** The text of [req.body.action] in a template literal. *)
Definition action_text (action : option json) : string :=
  match action with
  | Some v => ToString v
  | None => "undefined"
  end.

(** [action === word] *)
Definition action_is (action : option json) (word : string) : bool :=
  match action with
  | Some (JLeaf s) => String.eqb s word
  | _ => false
  end.

(** galleryController: [toggleLike], on the collection of uploads. *)
Definition toggleLike (now : Z) (uploads : list Upload.t) (id : string)
    (action : option json)
  : list Upload.t * (ApiError.t + ApiResponse.t (Z * option json)) :=
  match Upload.findOne_approved uploads id with
  | None =>
      (uploads,
       inl (ApiError.new "Upload not found" 404 (Some "upload_not_found")))
  | Some upload =>
      let likes :=
        if action_is action "like" then Upload.likes upload + 1
        else if action_is action "unlike"
             then Z.max 0 (Upload.likes upload - 1)
             else Upload.likes upload in
      let upload :=
        Upload.mk (Upload._id upload) (Upload.status upload) likes
                  (Upload.tags upload) (Upload.reviewedAt upload) in
      (Upload.save false now upload uploads,
       inr (ApiResponse.new 200 (Some (likes, action))
              ("Upload " ++ action_text action ++ "d successfully") None))
  end.

Module Application.
Record t : Type := mk {
  partner : string;
  proposedBudget : Z;
  message : option string;
  portfolio : list string;
  appliedAt : Z;
  status : string
}.
End Application.

(** How a method ends: it returns, or it throws an [Error]. *)
Inductive outcome (A : Type) : Type :=
| Returned (a : A)
| Thrown (message : string).

Arguments Returned {A} a.
Arguments Thrown {A} message.

Module Mission.
Record t : Type := mk {
  applications : list Application.t;
  assignedTo : option string;
  status : string;
  finalBudget : option Z;
  budget : Z * Z;                 (* min, max: required numbers *)
  acceptedAt : option Z;
  startedAt : option Z;
  completedAt : option Z;
  cancelledAt : option Z;
  tags : list string
}.

(** [app.partner.toString() === partnerId.toString()] *)
Definition applied_by (partnerId : string) (app : Application.t) : bool :=
  String.eqb (Application.partner app) partnerId.

(** [application.status = "accepted"], on the application that
    [this.applications.find] returned: the first of the partner. *)
Fixpoint accept_found (partnerId : string) (apps : list Application.t)
  : list Application.t :=
  match apps with
  | [] => []
  | app :: rest =>
      if applied_by partnerId app then
        Application.mk (Application.partner app)
          (Application.proposedBudget app) (Application.message app)
          (Application.portfolio app) (Application.appliedAt app) "accepted"
        :: rest
      else app :: accept_found partnerId rest
  end.

(** [if (app.partner.toString() !== partnerId.toString())
       app.status = "rejected"] *)
Definition reject_other (partnerId : string) (app : Application.t)
  : Application.t :=
  if negb (applied_by partnerId app) then
    Application.mk (Application.partner app)
      (Application.proposedBudget app) (Application.message app)
      (Application.portfolio app) (Application.appliedAt app) "rejected"
  else app.

(** [if (!at) at = now] *)
Definition unless_set (at_ : option Z) (now : Z) : option Z :=
  match at_ with
  | Some _ => at_
  | None => Some now
  end.

(** [missionSchema.pre("save", ...)], given what
    [this.isModified("status")] answers and the clock: [next()] returns
    the document, [next(new Error(...))] throws. *)
Definition pre_save (isModified_status : bool) (now : Z) (this : t)
  : outcome t :=
  let tags := clean_tags (tags this) in
  if snd (budget this) <? fst (budget this) then
    Thrown "mission.budget_min_greater_than_max"
  else
    let becomes s := isModified_status && String.eqb (status this) s in
    Returned
      (mk (applications this) (assignedTo this) (status this)
          (finalBudget this) (budget this)
          (if becomes "assigned" then unless_set (acceptedAt this) now
           else acceptedAt this)
          (if becomes "in_progress" then unless_set (startedAt this) now
           else startedAt this)
          (if becomes "completed" then unless_set (completedAt this) now
           else completedAt this)
          (if becomes "cancelled" then unless_set (cancelledAt this) now
           else cancelledAt this)
          tags).

Section Methods.
Context {A : Type}.
(** [this.save()], whose promise the methods return. *)
Variable save : t -> A.

(** [mission.applyForMission(partnerId, proposedBudget, message,
    portfolio)]; the pushed application gets the defaults of the schema:
    the clock for appliedAt, "pending" for the status. *)
Definition applyForMission (now : Z) (partnerId : string)
    (proposedBudget : Z) (message : option string) (portfolio : list string)
    (this : t) : outcome A :=
  match find (applied_by partnerId) (applications this) with
  | Some _ => Thrown "mission.already_applied"
  | None =>
      Returned
        (save
           (mk (applications this ++
                  [Application.mk partnerId proposedBudget message portfolio
                                  now "pending"])
               (assignedTo this) (status this) (finalBudget this)
               (budget this) (acceptedAt this) (startedAt this)
               (completedAt this) (cancelledAt this) (tags this)))
  end.

(** [mission.acceptApplication(partnerId)] *)
Definition acceptApplication (now : Z) (partnerId : string) (this : t)
  : outcome A :=
  match find (applied_by partnerId) (applications this) with
  | None => Thrown "mission.application_not_found"
  | Some application =>
      Returned
        (save
           (mk (map (reject_other partnerId)
                    (accept_found partnerId (applications this)))
               (Some partnerId) "assigned"
               (Some (Application.proposedBudget application))
               (budget this) (Some now) (startedAt this)
               (completedAt this) (cancelledAt this) (tags this)))
  end.
End Methods.
End Mission.

(** The partners who applied, in order. *)
Definition partners (this : Mission.t) : list string :=
  map Application.partner (Mission.applications this).

(** A mission with two applicants. *)
Definition harbour_mission : Mission.t :=
  Mission.mk [Application.mk "p1" 300 None [] 1 "pending";
              Application.mk "p2" 250 (Some "available") [] 2 "pending"]
             None "open" None (200, 400) None None None None ["drone"].

(** * Properties *)

(** ** Objects *)

Lemma keys_set {V : Type} (o : list (string * V)) (k k' : string) (v : V) :
  In k (Obj.keys (Obj.set o k' v)) -> In k (Obj.keys o) \/ k = k'.
Proof.
  unfold Obj.keys. induction o as [|[k0 v0] o IH]; cbn [Obj.set map In].
  - intros [<-|[]]. right. reflexivity.
  - destruct (String.eqb k0 k'); cbn [map In fst].
    + intros [<-|H]; auto.
    + intros [<-|H]; [auto|]. destruct (IH H); auto.
Qed.

Lemma set_fresh {V : Type} (o : list (string * V)) (k : string) (v : V) :
  ~ In k (Obj.keys o) -> Obj.set o k v = o ++ [(k, v)].
Proof.
  unfold Obj.keys. induction o as [|[k0 v0] o IH]; intros H; [reflexivity|].
  cbn [Obj.set app]. cbn [map In fst] in H.
  destruct (String.eqb_spec k0 k) as [->|_]; [exfalso; auto|].
  rewrite IH; [reflexivity|auto].
Qed.

Lemma get_set_same {V : Type} (o : list (string * V)) (k : string) (v : V) :
  Obj.get (Obj.set o k v) k = Some v.
Proof.
  induction o as [|[k0 v0] o IH]; cbn [Obj.set Obj.get].
  - rewrite String.eqb_refl. reflexivity.
  - destruct (String.eqb k0 k) eqn:Hk; cbn [Obj.get]; rewrite Hk;
      [reflexivity|exact IH].
Qed.

Lemma get_set_other {V : Type} (o : list (string * V)) (k k' : string)
    (v : V) :
  k <> k' -> Obj.get (Obj.set o k v) k' = Obj.get o k'.
Proof.
  intros Hne. induction o as [|[k0 v0] o IH]; cbn [Obj.set Obj.get].
  - destruct (String.eqb_spec k k'); [contradiction|reflexivity].
  - destruct (String.eqb_spec k0 k) as [->|Hk]; cbn [Obj.get].
    + destruct (String.eqb_spec k k'); [contradiction|reflexivity].
    + rewrite IH. reflexivity.
Qed.

(** [if (x) o[k] = f(x)] leaves every other key as it was. *)
Lemma set_if_other (x : option json) (k k' : string) (f : json -> res cond)
    (o o' : list (string * cond)) :
  k <> k' -> set_if x k f o = Ok o' -> Obj.get o' k' = Obj.get o k'.
Proof.
  intros Hne. unfold set_if. destruct x as [v|]; [|intros [= <-]; reflexivity].
  destruct (truthy (Some v)); [|intros [= <-]; reflexivity].
  destruct (f v) as [c|]; cbn [bind]; [|discriminate].
  intros [= <-]. apply get_set_other. exact Hne.
Qed.

(** What [if (x) o[k] = f(x)] can set. *)
Lemma set_if_keys (x : option json) (k : string) (f : json -> res cond)
    (o o' : list (string * cond)) :
  set_if x k f o = Ok o' -> incl (Obj.keys o') (k :: Obj.keys o).
Proof.
  unfold set_if. destruct x as [v|];
    [|intros [= <-]; apply incl_tl, incl_refl].
  destruct (truthy (Some v)); [|intros [= <-]; apply incl_tl, incl_refl].
  destruct (f v) as [c|]; cbn [bind]; [|discriminate].
  intros [= <-]. clear. unfold Obj.keys.
  induction o as [|[k0 v0] o IH]; cbn [Obj.set map fst].
  - apply incl_refl.
  - destruct (String.eqb k0 k); cbn [map fst].
    + apply incl_tl, incl_refl.
    + intros y [<-|Hy]; [right; left; reflexivity|].
      destruct (IH y Hy) as [<-|H]; [left; reflexivity|right; right; exact H].
Qed.

Lemma get_fresh {V : Type} (o : list (string * V)) (k : string) :
  ~ In k (Obj.keys o) -> Obj.get o k = None.
Proof.
  unfold Obj.keys. induction o as [|[k0 v0] o IH]; intros H; [reflexivity|].
  cbn [map In fst] in H. cbn [Obj.get].
  destruct (String.eqb_spec k0 k) as [->|_]; [exfalso; auto|].
  apply IH. auto.
Qed.

Lemma keys_set_eq {V : Type} (o : list (string * V)) (k : string) (v : V) :
  Obj.keys (Obj.set o k v) =
    if existsb (String.eqb k) (Obj.keys o) then Obj.keys o
    else Obj.keys o ++ [k].
Proof.
  unfold Obj.keys. induction o as [|[k0 v0] o IH]; [reflexivity|].
  cbn [Obj.set map fst existsb]. rewrite (String.eqb_sym k k0).
  destruct (String.eqb k0 k); cbn [map fst orb]; [reflexivity|].
  rewrite IH. destruct (existsb _ _); reflexivity.
Qed.

Lemma set_NoDup {V : Type} (o : list (string * V)) (k : string) (v : V) :
  NoDup (Obj.keys o) -> NoDup (Obj.keys (Obj.set o k v)).
Proof.
  intros H. rewrite keys_set_eq.
  destruct (existsb (String.eqb k) (Obj.keys o)) eqn:He; [exact H|].
  apply NoDup_app; [exact H|repeat constructor; intros []|].
  intros x Hx [->|[]].
  assert (existsb (String.eqb x) (Obj.keys o) = true); [|congruence].
  apply existsb_exists. exists x. split; [exact Hx|apply String.eqb_refl].
Qed.

Lemma set_if_NoDup (x : option json) (k : string) (f : json -> res cond)
    (o o' : list (string * cond)) :
  set_if x k f o = Ok o' -> NoDup (Obj.keys o) -> NoDup (Obj.keys o').
Proof.
  unfold set_if. destruct x as [v|]; [|intros [= <-]; trivial].
  destruct (truthy (Some v)); [|intros [= <-]; trivial].
  destruct (f v) as [c|]; cbn [bind]; [|discriminate].
  intros [= <-]. apply set_NoDup.
Qed.

(** ** The merge of conditions *)

Lemma merge_value_none (v : cond) : merge_value None v = v.
Proof. destruct v; reflexivity. Qed.

(** Merging into conditions that hold none of the keys appends the
    entries. *)
Lemma merge_fresh (into from : list (string * cond)) :
  NoDup (Obj.keys into ++ Obj.keys from) ->
  (forall k, In k (Obj.keys from) -> is_special k = false) ->
  merge into from = into ++ from.
Proof.
  unfold merge. revert into.
  induction from as [|[k v] from IH]; intros into Hn Hs; cbn [fold_left].
  - rewrite app_nil_r. reflexivity.
  - cbn [fst snd]. rewrite (Hs k) by (left; reflexivity).
    assert (Hk : ~ In k (Obj.keys into)).
    { intros Hin. unfold Obj.keys in *. cbn [map fst] in Hn.
      apply NoDup_remove_2 in Hn. apply Hn, in_or_app. left. exact Hin. }
    rewrite (get_fresh into k Hk), merge_value_none.
    rewrite (set_fresh into k v Hk).
    rewrite IH.
    + rewrite <- app_assoc. reflexivity.
    + unfold Obj.keys in *. rewrite map_app, <- app_assoc. exact Hn.
    + intros k' Hk'. apply Hs. right. exact Hk'.
Qed.

(** A single [find] with an object of distinct keys, none of them
    passed over, has this object as conditions. *)
Lemma merge_conditions_single (o : list (string * cond)) :
  NoDup (Obj.keys o) ->
  (forall k, In k (Obj.keys o) -> is_special k = false) ->
  merge_conditions (@cons cond (JObj o) []) = Ok o.
Proof.
  intros Hn Hs. unfold merge_conditions. cbn [fold_left bind].
  cbn [has_key Obj.get andb orb].
  rewrite (merge_fresh [] o Hn Hs). reflexivity.
Qed.

(** A condition object without the keys that the merge passes over. *)
Lemma not_special_incl (o : list (string * cond)) (allowed : list string) :
  incl (Obj.keys o) allowed ->
  forallb (fun k => negb (is_special k)) allowed = true ->
  forall k, In k (Obj.keys o) -> is_special k = false.
Proof.
  intros Hi Ha k Hk. rewrite forallb_forall in Ha.
  apply negb_true_iff, Ha, Hi, Hk.
Qed.

(** ** Pagination *)

Lemma ceil_div_is_ceiling (a b : Z) : 0 < b -> is_ceiling (ceil_div a b) a b.
Proof.
  intros Hb. unfold is_ceiling, ceil_div.
  pose proof (Z.div_mod (- a) b ltac:(lia)) as Hdm.
  pose proof (Z.mod_pos_bound (- a) b Hb) as Hr.
  nia.
Qed.

Lemma is_ceiling_unique (n m a b : Z) :
  0 < b -> is_ceiling n a b -> is_ceiling m a b -> n = m.
Proof. unfold is_ceiling. intros Hb Hn Hm. nia. Qed.

Lemma ceil_div_zero_iff (a b : Z) :
  0 <= a -> 0 < b -> (ceil_div a b = 0 <-> a = 0).
Proof.
  intros Ha Hb. pose proof (ceil_div_is_ceiling a b Hb) as Hc.
  unfold is_ceiling in Hc. split; intros H.
  - rewrite H in Hc. lia.
  - subst a. nia.
Qed.

Lemma num_or_nonzero (n : jsnum) (d : Z) : d <> 0 -> num_or n d <> Num 0.
Proof. destruct n as [[|z|z]| |s]; simpl; intros H [=]; lia. Qed.

Lemma num_or_not_NaN (n : jsnum) (d : Z) : num_or n d <> NaN.
Proof. destruct n as [[|z|z]| |s]; discriminate. Qed.

Lemma num_ceil_div_nonzero (count : Z) (limit : jsnum) :
  limit <> Num 0 -> num_ceil_div count limit = Some (pages count limit).
Proof.
  intros H. destruct limit as [[|z|z]| |s]; try reflexivity.
  contradiction H. reflexivity.
Qed.

(** What [paginate] computes, spelled out on the page and limit it read. *)
Lemma paginate_unfold (this : ApiFeatures) (countDocuments : Z) (p l : jsnum) :
  Number (Obj.get (queryString this) "page") = Some p ->
  Number (Obj.get (queryString this) "limit") = Some l ->
  paginate countDocuments this =
    let page := num_or p 1 in
    let limit := num_or l 25 in
    let skip := num_mul (num_sub page (Num 1)) limit in
    Ok (mkApiFeatures
          (MQuery.limit limit (MQuery.skip skip (mongooseQuery this)))
          (queryString this)
          (Some (Pagination.mk page limit (pages countDocuments limit)
                   (if num_lt (num_mul page limit) (Num countDocuments)
                    then Some (num_add page (Num 1)) else None)
                   (if num_lt (Num 0) skip
                    then Some (num_sub page (Num 1)) else None)))).
Proof.
  intros Hp Hl. unfold paginate. rewrite Hp, Hl. cbn [bind in_model].
  rewrite num_ceil_div_nonzero by (apply num_or_nonzero; lia).
  reflexivity.
Qed.

(** C2, as amended. For every totalCount >= 0 and every limit that reads
    as a whole number >= 1 (an absent limit is 25), the pagination result
    of [paginate] has numberOfPages = ceil(totalCount / limit), and
    numberOfPages = 0 exactly when totalCount = 0. *)
Theorem paginate_numberOfPages
    (this : ApiFeatures) (totalCount : Z) (p l : jsnum) (limit : Z) :
  Number (Obj.get (queryString this) "page") = Some p ->
  Number (Obj.get (queryString this) "limit") = Some l ->
  num_or l 25 = Num limit ->
  0 <= totalCount ->
  1 <= limit ->
  exists this' r n,
    paginate totalCount this = Ok this' /\
    paginationResults this' = Some r /\
    Pagination.limit r = Num limit /\
    Pagination.numberOfPages r = Num n /\
    is_ceiling n totalCount limit /\
    (n = 0 <-> totalCount = 0).
Proof.
  intros Hp Hl Hlimit Hc Hlim.
  rewrite (paginate_unfold this totalCount p l Hp Hl). cbv zeta.
  rewrite Hlimit. do 3 eexists.
  split; [reflexivity|]. split; [reflexivity|]. split; [reflexivity|].
  split; [reflexivity|].
  assert (Hpos : 0 < limit) by lia.
  split.
  - exact (ceil_div_is_ceiling totalCount _ Hpos).
  - exact (ceil_div_zero_iff totalCount _ Hc Hpos).
Qed.

Lemma paginate_numberOfPages_witness :
  exists this' r n,
    paginate 45 (features_of [("page", JStr "3"); ("limit", JStr "20")])
      = Ok this' /\
    paginationResults this' = Some r /\
    Pagination.limit r = Num 20 /\
    Pagination.numberOfPages r = Num n /\
    is_ceiling n 45 20 /\
    (n = 0 <-> 45 = 0).
Proof.
  apply (paginate_numberOfPages
           (features_of [("page", JStr "3"); ("limit", JStr "20")])
           45 (Num 3) (Num 20) 20).
  - reflexivity.
  - reflexivity.
  - reflexivity.
  - lia.
  - lia.
Defined.

(** C2 as stated fails for a limit that is no whole number: limit=Infinity
    is at least 1 and is used as it is, and 45 documents make 0 pages. *)
Lemma paginate_pages_counterexample :
  exists this' r,
    paginate 45 (features_of [("limit", JStr "Infinity")]) = Ok this' /\
    paginationResults this' = Some r /\
    Pagination.limit r = Infinity false /\
    num_le (Num 1) (Pagination.limit r) = true /\
    Pagination.numberOfPages r = Num 0 /\
    45 <> 0.
Proof.
  eexists. eexists. split; [reflexivity|]. split; [reflexivity|].
  split; [reflexivity|]. split; [reflexivity|]. split; [reflexivity|].
  discriminate.
Qed.

(** C3, as amended. With page and limit the numbers that [paginate] read
    from the request (1 and 25 when absent, zero or no number): the result
    reports this page and this limit; nextPage is present, and equal to
    page + 1, exactly when page * limit < totalCount, whatever the limit;
    for every limit >= 1, previousPage is present, and equal to page - 1,
    exactly when page > 1. *)
Theorem paginate_next_previous
    (this : ApiFeatures) (totalCount : Z) (p l : jsnum) :
  Number (Obj.get (queryString this) "page") = Some p ->
  Number (Obj.get (queryString this) "limit") = Some l ->
  exists this' r,
    paginate totalCount this = Ok this' /\
    paginationResults this' = Some r /\
    let page := num_or p 1 in
    let limit := num_or l 25 in
    Pagination.currentPage r = page /\
    Pagination.limit r = limit /\
    (Pagination.nextPage r = Some (num_add page (Num 1)) <->
     num_lt (num_mul page limit) (Num totalCount) = true) /\
    (Pagination.nextPage r = None <->
     num_lt (num_mul page limit) (Num totalCount) = false) /\
    (num_le (Num 1) limit = true ->
     (Pagination.previousPage r = Some (num_sub page (Num 1)) <->
      num_lt (Num 1) page = true) /\
     (Pagination.previousPage r = None <-> num_lt (Num 1) page = false)).
Proof.
  intros Hp Hl.
  rewrite (paginate_unfold this totalCount p l Hp Hl). cbv zeta.
  eexists. eexists. split; [reflexivity|]. split; [reflexivity|].
  cbn [Pagination.currentPage Pagination.limit Pagination.nextPage
       Pagination.previousPage].
  set (page := num_or p 1). set (limit := num_or l 25).
  split; [reflexivity|]. split; [reflexivity|].
  split; [|split].
  - destruct (num_lt (num_mul page limit) (Num totalCount));
      split; intros H; try reflexivity; discriminate.
  - destruct (num_lt (num_mul page limit) (Num totalCount));
      split; intros H; try reflexivity; discriminate.
  - intros Hlim.
    assert (Hskip : num_lt (Num 0) (num_mul (num_sub page (Num 1)) limit) =
                    num_lt (Num 1) page).
    { destruct page as [zp| |[|]], limit as [zl| |[|]];
        cbn in Hlim |- *; try discriminate; try reflexivity;
        repeat match goal with
               | |- context [Z.eqb ?a ?b] => destruct (Z.eqb_spec a b)
               | |- context [Z.ltb ?a ?b] => destruct (Z.ltb_spec a b)
               | H : context [Z.leb ?a ?b] |- _ => destruct (Z.leb_spec a b)
               end;
        cbn; try reflexivity; try discriminate; nia. }
    rewrite Hskip.
    destruct (num_lt (Num 1) page); split; split; intros H;
      try reflexivity; discriminate.
Qed.

Lemma paginate_next_previous_witness :
  exists this' r,
    paginate 45 (features_of [("page", JStr "3"); ("limit", JStr "20")])
      = Ok this' /\
    paginationResults this' = Some r /\
    let page := num_or (Num 3) 1 in
    let limit := num_or (Num 20) 25 in
    Pagination.currentPage r = page /\
    Pagination.limit r = limit /\
    (Pagination.nextPage r = Some (num_add page (Num 1)) <->
     num_lt (num_mul page limit) (Num 45) = true) /\
    (Pagination.nextPage r = None <->
     num_lt (num_mul page limit) (Num 45) = false) /\
    (num_le (Num 1) limit = true ->
     (Pagination.previousPage r = Some (num_sub page (Num 1)) <->
      num_lt (Num 1) page = true) /\
     (Pagination.previousPage r = None <-> num_lt (Num 1) page = false)).
Proof.
  apply (paginate_next_previous
           (features_of [("page", JStr "3"); ("limit", JStr "20")])
           45 (Num 3) (Num 20)); reflexivity.
Defined.

(** C3 as stated fails for a negative limit: with page=2 and limit=-5 the
    page is above 1 and previousPage is absent. *)
Lemma paginate_previous_counterexample :
  exists this' r,
    paginate 45 (features_of [("page", JStr "2"); ("limit", JStr "-5")])
      = Ok this' /\
    paginationResults this' = Some r /\
    Pagination.currentPage r = Num 2 /\
    num_lt (Num 1) (Pagination.currentPage r) = true /\
    Pagination.previousPage r = None.
Proof.
  eexists. eexists. split; [reflexivity|]. split; [reflexivity|].
  split; [reflexivity|]. split; reflexivity.
Qed.

(** ** Defaults of page and limit *)

Lemma truthy_string (s : string) :
  truthy (Some (JLeaf s)) = negb (String.eqb s "").
Proof. reflexivity. Qed.

Lemma trim_empty : trim "" = "".
Proof. reflexivity. Qed.


(** The store calls of a factory search whose keyword is not blank, on
    the page and limit it read. *)
Lemma searchDocuments_calls {doc : Type} {store : Store doc}
    (M : Model doc) (searchFields : list string)
    (populateOptions : option cond) (req : Request) (s : string)
    (np nl il : jsnum) :
  Obj.get (req_query req) "q" = Some (JLeaf s) ->
  trim s <> "" ->
  Number (Some (defaulted (Obj.get (req_query req) "page") "1")) = Some np ->
  Number (Some (defaulted (Obj.get (req_query req) "limit") "10"))
    = Some nl ->
  parseInt (Some (defaulted (Obj.get (req_query req) "limit") "10"))
    = Some il ->
  let conditions :=
    JObj [("$and",
           JArr [JObj [("$or", JArr (search_conditions searchFields (JStr s)))];
                 if has_status_path M
                 then JObj [("status", published_states)] else JObj []])] in
  let query :=
    MQuery.sort_by created_desc
      (MQuery.limit il
         (MQuery.skip (num_mul (num_sub np (Num 1)) nl)
            (MQuery.find conditions))) in
  let sent :=
    match populateOptions with
    | Some p => MQuery.populate p query
    | None => query
    end in
  searchDocuments M searchFields populateOptions req =
    ([FindCall (modelName M) sent; CountCall (modelName M) (Some conditions)],
     match exec sent (documents M),
           countDocuments M (Some conditions) with
     | Ok _, Ok _ => Err ReferenceError
     | Err e, _ => Err e
     | Ok _, Err e => Err e
     end).
Proof.
  intros Hq Htrim Hnp Hnl Hil. cbv zeta.
  unfold searchDocuments. rewrite Hq, truthy_string.
  assert (Hs : String.eqb s "" = false).
  { destruct (String.eqb_spec s ""); [|reflexivity].
    subst s. contradiction Htrim. reflexivity. }
  rewrite Hs. cbn [negb].
  apply String.eqb_neq in Htrim. rewrite Htrim.
  rewrite Hnp, Hnl, Hil.
  unfold hbind, pure, both, run_find, run_count. cbn [in_model fst snd app].
  destruct (exec _ _); [destruct (countDocuments M _)|]; reflexivity.
Qed.




(** ** The builder chain of getAll *)

Lemma search_queryString (name : string) (a b : ApiFeatures) :
  search name a = Ok b ->
  queryString b = queryString a /\ paginationResults b = paginationResults a.
Proof.
  unfold search. destruct (truthy _); [|intros [= <-]; auto].
  destruct (Obj.get _ _); intros [= <-]; auto.
Qed.

Lemma limitFields_queryString (a b : ApiFeatures) :
  limitFields a = Ok b ->
  queryString b = queryString a /\ paginationResults b = paginationResults a.
Proof.
  unfold limitFields. destruct (truthy _); [|intros [= <-]; auto].
  destruct (Obj.get _ _) as [[s|?|?]|]; intros [= <-]; auto.
Qed.

Lemma sort_queryString (a b : ApiFeatures) :
  sort a = Ok b ->
  queryString b = queryString a /\ paginationResults b = paginationResults a.
Proof.
  unfold sort. destruct (truthy _); [|intros [= <-]; auto].
  destruct (Obj.get _ _) as [[s|?|?]|]; intros [= <-]; auto.
Qed.

Lemma filter_queryString qs_parse (a b : ApiFeatures) :
  filter qs_parse a = Ok b ->
  queryString b = queryString a /\ paginationResults b = paginationResults a.
Proof.
  unfold filter. destruct (filter_conditions _ _); simpl; [|discriminate].
  intros [= <-]; auto.
Qed.

Lemma bind_ok {A B : Type} (m : res A) (k : A -> res B) (b : B) :
  bind m k = Ok b -> exists a, m = Ok a /\ k a = Ok b.
Proof. destruct m; simpl; [eauto | discriminate]. Qed.

(** The window and the pagination results of the chain are those of
    [paginate] on the count it was given and on the page and limit of the
    request. *)
Lemma build_query_pagination qs_parse name filterObj query count this :
  build_query qs_parse name filterObj query count = Ok this ->
  exists p l,
    Number (Obj.get query "page") = Some p /\
    Number (Obj.get query "limit") = Some l /\
    let page := num_or p 1 in
    let limit := num_or l 25 in
    let skip := num_mul (num_sub page (Num 1)) limit in
    q_skip (mongooseQuery this) = Some skip /\
    q_limit (mongooseQuery this) = Some limit /\
    paginationResults this =
      Some (Pagination.mk page limit (pages count limit)
              (if num_lt (num_mul page limit) (Num count)
               then Some (num_add page (Num 1)) else None)
              (if num_lt (Num 0) skip
               then Some (num_sub page (Num 1)) else None)).
Proof.
  unfold build_query. intros H.
  apply bind_ok in H as (a1 & H1 & H).
  apply bind_ok in H as (a2 & H2 & H).
  apply bind_ok in H as (a3 & H3 & H).
  apply bind_ok in H as (a4 & H4 & H).
  apply search_queryString in H1 as [H1 _].
  apply limitFields_queryString in H2 as [H2 _].
  apply filter_queryString in H3 as [H3 _].
  apply sort_queryString in H4 as [H4 _].
  assert (Hq : queryString a4 = query).
  { rewrite H4, H3, H2, H1. reflexivity. }
  destruct (Number (Obj.get query "page")) as [p|] eqn:Hp;
    [|unfold paginate in H; rewrite Hq, Hp in H; discriminate].
  destruct (Number (Obj.get query "limit")) as [l|] eqn:Hl;
    [|unfold paginate in H; rewrite Hq, Hp, Hl in H; discriminate].
  rewrite <- Hq in Hp, Hl.
  rewrite (paginate_unfold a4 count p l Hp Hl) in H. cbv zeta in H.
  injection H as <-. exists p, l.
  split; [reflexivity|]. split; [reflexivity|].
  cbv zeta. split; [reflexivity|]. split; reflexivity.
Qed.

(** A skip that the store accepts is a whole number, which leaves a whole
    page when the limit is one. *)
Lemma whole_page (page : jsnum) (limit sk : Z) :
  num_mul (num_sub page (Num 1)) (Num limit) = Num sk ->
  exists z, page = Num z.
Proof.
  destruct page as [z| |[|]]; [eauto|discriminate|..];
    cbn; destruct (limit =? 0); discriminate.
Qed.

Section ControllerFacts.
Context {doc : Type} {store : Store doc}.
Variable qs_parse : list (string * json) -> list (string * json).

(** An answered query had whole numbers as skip and limit. *)
Lemma exec_window (q : Query) (docs data : list doc) (s l : jsnum) :
  exec q docs = Ok data ->
  q_skip q = Some s -> q_limit q = Some l ->
  exists zs zl, s = Num zs /\ 0 <= zs /\ l = Num zl.
Proof.
  unfold exec, window. intros H Hs Hl. rewrite Hs, Hl in H.
  destruct (selected q docs); [|discriminate]. cbn [bind] in H.
  destruct s as [zs| |?]; try discriminate.
  destruct (Z.ltb_spec zs 0); [discriminate|].
  destruct l as [zl| |?]; try discriminate.
  exists zs, zl. auto.
Qed.

Lemma getAll_unfold (M : Model doc) (req : Request) :
  getAll qs_parse M req =
    match build_query qs_parse (modelName M) (filterObj_of req) (req_query req)
            (Z.of_nat (List.length (documents M))) with
    | Ok a =>
        ([CountCall (modelName M) None; FindCall (modelName M) (mongooseQuery a)],
         match exec (mongooseQuery a) (documents M) with
         | Ok documents =>
             Ok (Listed 200 (Z.of_nat (List.length documents))
                        (paginationResults a) documents)
         | Err e => Err e
         end)
    | Err e => ([CountCall (modelName M) None], Err e)
    end.
Proof.
  unfold getAll, hbind, run_count, pure, run_find, respond.
  cbn [countDocuments].
  destruct (build_query _ _ _ _ _) as [a|e]; [|reflexivity].
  destruct (exec _ _); reflexivity.
Qed.

(** The count of a listing under a condition object of distinct keys. *)
Lemma countDocuments_single (M : Model doc) (o : list (string * cond))
    (allowed : list string) :
  NoDup (Obj.keys o) ->
  incl (Obj.keys o) allowed ->
  forallb (fun k => negb (is_special k)) allowed = true ->
  countDocuments M (Some (JObj o)) =
    Ok (Z.of_nat (List.length (List.filter (matches (JObj o)) (documents M)))).
Proof.
  intros Hn Hi Ha. unfold countDocuments.
  rewrite (merge_conditions_single o Hn (not_special_incl o allowed Hi Ha)).
  reflexivity.
Qed.

(** C1. The pagination metadata of [getAll] is computed from the count of
    the whole collection (a count without a predicate), whatever filters,
    keyword or [filterObj] restrict the documents returned, whereas
    [getAllSettings] and the open-missions listing count the documents
    that match the very condition they query with. *)
Theorem getAll_counts_all_listings_count_filtered :
  (forall (M : Model doc) (req : Request) calls status results pr data,
     getAll qs_parse M req = (calls, Ok (Listed status results pr data)) ->
     let total := Z.of_nat (List.length (documents M)) in
     exists r a page limit,
       pr = Some r /\
       calls = [CountCall (modelName M) None;
                FindCall (modelName M) (mongooseQuery a)] /\
       Pagination.currentPage r = Num page /\
       Pagination.limit r = Num limit /\
       Pagination.numberOfPages r = Num (ceil_div total limit) /\
       Pagination.nextPage r =
         (if page * limit <? total then Some (Num (page + 1)) else None)) /\
  (forall (Settings : Model doc) (req : Request)
          calls status data pg extras message,
     getAllSettings Settings req =
       (calls, Ok (Paged status data pg extras message)) ->
     exists q query limit,
       calls = [FindCall (modelName Settings) q;
                CountCall (modelName Settings) (Some query);
                DistinctCall (modelName Settings) "category"] /\
       q_conditions q = [query] /\
       pi_total pg =
         Z.of_nat (List.length
                     (List.filter (matches query) (documents Settings))) /\
       pi_limit pg = Num limit /\
       pi_pages pg = Num (ceil_div (pi_total pg) limit)) /\
  (forall (Mission : Model doc) (req : Request)
          calls status data pg extras message,
     getOpenMissions Mission req =
       (calls, Ok (Paged status data pg extras message)) ->
     exists q query limit,
       calls = [FindCall (modelName Mission) q;
                CountCall (modelName Mission) (Some query)] /\
       q_conditions q = [query] /\
       pi_total pg =
         Z.of_nat (List.length
                     (List.filter (matches query) (documents Mission))) /\
       pi_limit pg = Num limit /\
       pi_pages pg = Num (ceil_div (pi_total pg) limit)).
Proof.
  split; [|split].
  - intros M req calls status results pr data H total.
    rewrite getAll_unfold in H.
    destruct (build_query _ _ _ _ _) as [a|e] eqn:Hb; [|discriminate].
    destruct (exec _ _) as [ds|e] eqn:He; [|discriminate].
    injection H as <- <- <- <- <-.
    apply build_query_pagination in Hb
      as (p & l & _ & _ & Hskip & Hlimit & Hpr).
    destruct (exec_window _ _ _ _ _ He Hskip Hlimit)
      as (zs & zl & Hzs & _ & Hzl).
    rewrite Hzl in Hzs. destruct (whole_page _ _ _ Hzs) as (zp & Hzp).
    rewrite Hpr, Hzl, Hzp.
    eexists. exists a, zp, zl. split; [reflexivity|]. split; [reflexivity|].
    split; [reflexivity|]. split; [reflexivity|]. split; reflexivity.
  - intros Settings req calls status data pg extras message.
    unfold getAllSettings, hbind, pure, run_find, run_count, run_distinct,
      respond.
    destruct (parseInt_or _ 1) as [page|]; [|discriminate].
    destruct (parseInt_or _ 50) as [limit|]; [|discriminate].
    destruct (set_if _ "category" _ _) as [q1|] eqn:H1; [|discriminate].
    destruct (set_if _ "$or" _ _) as [q2|] eqn:H2; [|discriminate].
    destruct (exec _ _) as [ds|]; [|discriminate].
    rewrite (countDocuments_single Settings q2 ["$or"; "category"]).
    + cbn [app]. intros [= <- <- <- <- <- <-].
      eexists. exists (JObj q2), limit.
      split; [reflexivity|]. split; [reflexivity|].
      split; [reflexivity|]. split; reflexivity.
    + apply (set_if_NoDup _ _ _ _ _ H2), (set_if_NoDup _ _ _ _ _ H1).
      constructor.
    + apply set_if_keys in H1, H2. intros k Hk.
      destruct (H2 k Hk) as [<-|Hk']; [left; reflexivity|].
      destruct (H1 k Hk') as [<-|[]]. right. left. reflexivity.
    + reflexivity.
  - intros Mission req calls status data pg extras message.
    unfold getOpenMissions, hbind, pure, run_find, run_count, respond.
    destruct (parseInt_or _ 1) as [page|]; [|discriminate].
    destruct (parseInt_or _ 10) as [limit|]; [|discriminate].
    destruct (set_if _ "type" _ _) as [q1|] eqn:H1; [|discriminate].
    destruct (set_if _ "location.city" _ _) as [q2|] eqn:H2; [|discriminate].
    destruct (set_if _ "budget.min" _ _) as [q3|] eqn:H3; [|discriminate].
    destruct (set_if _ "budget.max" _ _) as [q4|] eqn:H4; [|discriminate].
    destruct (exec _ _) as [ds|]; [|discriminate].
    rewrite (countDocuments_single Mission q4
               ["budget.max"; "budget.min"; "location.city"; "type";
                "status"]).
    + cbn [app]. intros [= <- <- <- <- <- <-].
      eexists. exists (JObj q4), limit.
      split; [reflexivity|]. split; [reflexivity|].
      split; [reflexivity|]. split; reflexivity.
    + apply (set_if_NoDup _ _ _ _ _ H4), (set_if_NoDup _ _ _ _ _ H3),
        (set_if_NoDup _ _ _ _ _ H2), (set_if_NoDup _ _ _ _ _ H1).
      repeat constructor. intros [].
    + apply set_if_keys in H1, H2, H3, H4. intros k Hk.
      destruct (H4 k Hk) as [<-|Hk4]; [left; reflexivity|].
      destruct (H3 k Hk4) as [<-|Hk3]; [right; left; reflexivity|].
      destruct (H2 k Hk3) as [<-|Hk2]; [do 2 right; left; reflexivity|].
      destruct (H1 k Hk2) as [<-|[<-|[]]];
        [do 3 right; left; reflexivity|do 4 right; left; reflexivity].
    + reflexivity.
Qed.
End ControllerFacts.

(** On five uploads of which three match the price range, [getAll] reports
    three pages of two, the count of all five; the settings and missions
    listings report the count of the matching documents. *)
Lemma getAll_counts_all_listings_count_filtered_witness :
  (exists r a page limit,
     Some (Pagination.mk (Num 1) (Num 2) (Num 3) (Some (Num 2)) None)
       = Some r /\
     fst priced_listing =
       [CountCall "Upload" None; FindCall "Upload" (mongooseQuery a)] /\
     Pagination.currentPage r = Num page /\
     Pagination.limit r = Num limit /\
     Pagination.numberOfPages r = Num (ceil_div 5 limit) /\
     Pagination.nextPage r =
       (if page * limit <? 5 then Some (Num (page + 1)) else None)) /\
  (exists q query limit,
     fst general_listing =
       [FindCall "Settings" q; CountCall "Settings" (Some query);
        DistinctCall "Settings" "category"] /\
     q_conditions q = [query] /\
     2 = Z.of_nat (List.length
                     (List.filter (Fixture.matches_record query)
                                  (documents settings))) /\
     Num 1 = Num limit /\
     Num 2 = Num (ceil_div 2 limit)) /\
  (exists q query limit,
     fst open_listing =
       [FindCall "Mission" q; CountCall "Mission" (Some query)] /\
     q_conditions q = [query] /\
     2 = Z.of_nat (List.length
                     (List.filter (Fixture.matches_record query)
                                  (documents missions))) /\
     Num 10 = Num limit /\
     Num 1 = Num (ceil_div 2 limit)).
Proof.
  split; [|split].
  - eapply (proj1 (getAll_counts_all_listings_count_filtered
                     (store := Fixture.store) parsed)
              uploads priced_request (fst priced_listing) 200 2).
    vm_compute. reflexivity.
  - eapply (proj1 (proj2 (getAll_counts_all_listings_count_filtered
                            (store := Fixture.store) parsed))
              settings general_request (fst general_listing) 200 _
              (mkPageInfo (Num 1) (Num 1) 2 (Num 2))).
    vm_compute. reflexivity.
  - eapply (proj2 (proj2 (getAll_counts_all_listings_count_filtered
                            (store := Fixture.store) parsed))
              missions (mkRequest [] None) (fst open_listing) 200 _
              (mkPageInfo (Num 1) (Num 10) 2 (Num 1))).
    vm_compute. reflexivity.
Defined.

(** ** The keyword guards of the search endpoints *)

Section SearchGuards.
Context {doc : Type} {store : Store doc}.

(** The factory search refuses an absent, empty or blank keyword before it
    touches the store. *)
Lemma searchDocuments_rejects_blank (M : Model doc)
    (searchFields : list string) (populateOptions : option cond)
    (req : Request) :
  Obj.get (req_query req) "q" = None \/
  (exists s, Obj.get (req_query req) "q" = Some (JLeaf s) /\ trim s = "") ->
  searchDocuments M searchFields populateOptions req =
    ([], Ok (Failed 400 "Search query is required")).
Proof.
  intros [H | (s & H & Ht)]; unfold searchDocuments; rewrite H.
  - reflexivity.
  - rewrite truthy_string. destruct (String.eqb s ""); [reflexivity|].
    cbn [negb]. rewrite Ht. reflexivity.
Qed.

(** C9, at the failing input [?q=%20%20]. The gallery search only tests
    [!query]: a keyword of two spaces passes, the text query is sent to the
    store and the answer is a 200, where the factory search refuses the
    same request without a store call. *)
Theorem gallery_search_runs_blank_keyword (M : Model doc) :
  let req := mkRequest [("q", JStr "  ")] None in
  trim "  " = "" /\
  (exists q data pg extras message,
     searchUploads M req =
       ([FindCall (modelName M) q],
        Ok (Paged 200 data pg extras message)) /\
     q_conditions q =
       [JObj [("$text", JObj [("$search", CStr "  ")]);
              ("status", CStr "approved")]]) /\
  (forall searchFields populateOptions,
     searchDocuments M searchFields populateOptions req =
       ([], Ok (Failed 400 "Search query is required"))).
Proof.
  split; [reflexivity|]. split.
  - do 5 eexists. split; reflexivity.
  - intros. apply searchDocuments_rejects_blank. right.
    exists "  ". split; reflexivity.
Qed.
End SearchGuards.

(** ** Which fields the keyword search looks at *)

Lemma searched_fields_search_conditions (fields : list string) (q : json) :
  searched_fields (search_conditions fields q) = fields.
Proof.
  unfold searched_fields, search_conditions.
  induction fields as [|f fields IH]; simpl; [reflexivity|].
  f_equal. exact IH.
Qed.

Lemma search_effect (name : string) (a b : ApiFeatures) :
  search name a = Ok b ->
  b = mkApiFeatures
        (fold_left (fun q c => MQuery.and_find c q)
                   (keyword_condition name (queryString a)) (mongooseQuery a))
        (queryString a) (paginationResults a).
Proof.
  unfold search, keyword_condition, search_conditions, search_fields.
  destruct (Obj.get (queryString a) "keyword") as [kw|].
  - destruct (truthy (Some kw)).
    + destruct (String.eqb name "Product"); intros [= <-]; reflexivity.
    + intros [= <-]. destruct a; reflexivity.
  - cbn [truthy]. intros [= <-]. destruct a; reflexivity.
Qed.

Section SearchFields.
Context {doc : Type} {store : Store doc}.

(** C7, as amended. In [searchDocuments] the fields matched by the keyword
    are exactly those the calling controller supplies: every query it
    sends to the store is the $or, over the supplied fields, of a
    case-insensitive match of the keyword, joined with the status filter.
    The keyword search of the generic listing, [ApiFeatures.search],
    chooses the fields itself from the model name: title and description
    for Product, name for any other model. *)
Theorem search_fields_source :
  (forall (M : Model doc) (searchFields : list string)
          (populateOptions : option cond) (req : Request) (q : Query),
     In (FindCall (modelName M) q)
        (fst (searchDocuments M searchFields populateOptions req)) ->
     exists keyword base,
       Obj.get (req_query req) "q" = Some (JLeaf keyword) /\
       q_conditions q =
         [JObj [("$and",
                 JArr [JObj [("$or",
                              JArr (search_conditions searchFields
                                                      (JStr keyword)))];
                       base])]] /\
       searched_fields (search_conditions searchFields (JStr keyword))
         = searchFields) /\
  (forall (name : string) (a b : ApiFeatures) (keyword : json),
     search name a = Ok b ->
     Obj.get (queryString a) "keyword" = Some keyword ->
     truthy (Some keyword) = true ->
     q_conditions (mongooseQuery b) =
       q_conditions (mongooseQuery a) ++
       [JObj [("$or", JArr (search_conditions (search_fields name) keyword))]]
     /\
     search_fields name =
       (if String.eqb name "Product" then ["title"; "description"]
        else ["name"])).
Proof.
  split.
  - intros M searchFields populateOptions req q.
    unfold searchDocuments.
    destruct (Obj.get (req_query req) "q") as [[s|?|?]|] eqn:Hq;
      try (cbn; intros []; fail).
    rewrite truthy_string.
    destruct (String.eqb s ""); cbn [negb]; [intros []|].
    destruct (String.eqb (trim s) ""); [intros []|].
    unfold hbind, pure, both, run_find, run_count, respond.
    destruct (in_model (Number _)); [|intros []].
    destruct (in_model (Number _)); [|intros []].
    destruct (in_model (parseInt _)); [|intros []].
    cbn [app fst snd].
    set (conditions := JObj [("$and", _)]).
    intros Hin.
    assert (Hq' : q_conditions q = [conditions]).
    { destruct populateOptions;
        (destruct (exec _ _) as [ds|];
         [destruct (countDocuments M _)|]);
        cbn [fst snd app] in Hin;
        destruct Hin as [Hin | [Hin | []]];
        try discriminate Hin; injection Hin as <-; reflexivity. }
    eexists. eexists. split; [reflexivity|]. split; [exact Hq'|].
    apply searched_fields_search_conditions.
  - intros name a b keyword Hs Hk Ht. apply search_effect in Hs. subst b.
    unfold keyword_condition. rewrite Hk, Ht.
    split; reflexivity.
Qed.
End SearchFields.

Lemma search_fields_source_witness :
  (exists keyword base,
     Obj.get (req_query sunset_request) "q" = Some (JLeaf keyword) /\
     q_conditions sunset_query =
       [JObj [("$and",
               JArr [JObj [("$or",
                            JArr (search_conditions upload_search_fields
                                                    (JStr keyword)))];
                     base])]] /\
     searched_fields (search_conditions upload_search_fields (JStr keyword))
       = upload_search_fields) /\
  (q_conditions
     (MQuery.and_find
        (JObj [("$or", JArr (search_conditions (search_fields "Upload")
                                               (JStr "sunset")))])
        (MQuery.find (JObj []))) =
   q_conditions (MQuery.find (JObj [])) ++
   [JObj [("$or", JArr (search_conditions (search_fields "Upload")
                                          (JStr "sunset")))]]
   /\
   search_fields "Upload" =
     (if String.eqb "Upload" "Product" then ["title"; "description"]
      else ["name"])).
Proof.
  split.
  - apply (proj1 (search_fields_source (store := Fixture.store))
             uploads upload_search_fields None sunset_request sunset_query).
    vm_compute. left. reflexivity.
  - apply (proj2 (search_fields_source (store := Fixture.store)) "Upload"
             (features_of [("keyword", JStr "sunset")])
             (mkApiFeatures
                (MQuery.and_find
                   (JObj [("$or", JArr (search_conditions
                                          (search_fields "Upload")
                                          (JStr "sunset")))])
                   (MQuery.find (JObj [])))
                [("keyword", JStr "sunset")] None)
             (JStr "sunset")); reflexivity.
Defined.

(** C7 as stated fails for the generic listing: for uploads the keyword is
    matched against name alone, whatever the controller would supply. *)
Lemma search_fields_counterexample :
  exists b,
    search "Upload" (features_of [("keyword", JStr "sunset")]) = Ok b /\
    q_conditions (mongooseQuery b) =
      [JObj [];
       JObj [("$or", JArr (search_conditions ["name"] (JStr "sunset")))]] /\
    searched_fields (search_conditions ["name"] (JStr "sunset"))
      <> upload_search_fields.
Proof.
  eexists. split; [reflexivity|]. split; [reflexivity|]. discriminate.
Qed.

(** ** The order of the builder steps *)

Lemma search_eq (name : string) (a : ApiFeatures) :
  search name a =
    Ok (mkApiFeatures
          (fold_left (fun q c => MQuery.and_find c q)
                     (keyword_condition name (queryString a))
                     (mongooseQuery a))
          (queryString a) (paginationResults a)).
Proof.
  destruct (search name a) as [b|e] eqn:H.
  - apply search_effect in H. subst b. reflexivity.
  - unfold search in H. destruct (truthy _); [|discriminate].
    destruct (Obj.get _ _); discriminate.
Qed.

Lemma limitFields_eq (a : ApiFeatures) :
  limitFields a =
    do f <- string_argument (Obj.get (queryString a) "fields") "-__v";
    Ok (mkApiFeatures (MQuery.select f (mongooseQuery a))
                      (queryString a) (paginationResults a)).
Proof.
  unfold limitFields, string_argument. destruct (truthy _); [|reflexivity].
  destruct (Obj.get _ _) as [[s|?|?]|]; reflexivity.
Qed.

Lemma sort_eq (a : ApiFeatures) :
  sort a =
    do s <- string_argument (Obj.get (queryString a) "sort") "-createdAt";
    Ok (mkApiFeatures
          (MQuery.sort_by (CStr s)
             (MQuery.collation en_strength2 (mongooseQuery a)))
          (queryString a) (paginationResults a)).
Proof.
  unfold sort, string_argument. destruct (truthy _); [|reflexivity].
  destruct (Obj.get _ _) as [[s|?|?]|]; reflexivity.
Qed.

(** The chain of [getAll], step by step. *)
Lemma build_query_eq qs_parse name filterObj query count :
  build_query qs_parse name filterObj query count =
    do fields <- string_argument (Obj.get query "fields") "-__v";
    do fc <- filter_conditions qs_parse query;
    do sortBy <- string_argument (Obj.get query "sort") "-createdAt";
    do p <- in_model (Number (Obj.get query "page"));
    do l <- in_model (Number (Obj.get query "limit"));
    Ok (assembled
          (filterObj :: keyword_condition name query ++ [cond_of_json fc])
          fields sortBy p l count query).
Proof.
  unfold build_query. rewrite search_eq. cbn [bind].
  rewrite limitFields_eq. cbn [queryString new_ApiFeatures].
  destruct (string_argument _ "-__v") as [fields|]; [|reflexivity].
  cbn [bind]. unfold filter. cbn [queryString].
  destruct (filter_conditions qs_parse query) as [fc|]; [|reflexivity].
  cbn [bind]. rewrite sort_eq. cbn [queryString].
  destruct (string_argument _ "-createdAt") as [sortBy|]; [|reflexivity].
  cbn [bind].
  destruct (Number (Obj.get query "page")) as [p|] eqn:Hp;
    [|unfold paginate; cbn [queryString]; rewrite Hp; reflexivity].
  destruct (Number (Obj.get query "limit")) as [l|] eqn:Hl;
    [|unfold paginate; cbn [queryString]; rewrite Hp, Hl; reflexivity].
  rewrite (paginate_unfold _ count p l) by assumption.
  cbv zeta. cbn [bind in_model]. unfold assembled. do 2 f_equal.
  cbn [mongooseQuery new_ApiFeatures paginationResults].
  unfold keyword_condition.
  destruct (Obj.get query "keyword") as [kw|]; [|reflexivity].
  destruct (truthy (Some kw)); reflexivity.
Qed.

Lemma build_query_assembled qs_parse name filterObj query count a :
  build_query qs_parse name filterObj query count = Ok a ->
  exists fields fc sortBy p l,
    string_argument (Obj.get query "fields") "-__v" = Ok fields /\
    filter_conditions qs_parse query = Ok fc /\
    string_argument (Obj.get query "sort") "-createdAt" = Ok sortBy /\
    Number (Obj.get query "page") = Some p /\
    Number (Obj.get query "limit") = Some l /\
    a = assembled
          (filterObj :: keyword_condition name query ++ [cond_of_json fc])
          fields sortBy p l count query.
Proof.
  rewrite build_query_eq.
  destruct (string_argument _ "-__v") as [fields|]; [|discriminate].
  destruct (filter_conditions qs_parse query) as [fc|]; [|discriminate].
  destruct (string_argument _ "-createdAt") as [sortBy|]; [|discriminate].
  destruct (Number (Obj.get query "page")) as [p|]; [|discriminate].
  destruct (Number (Obj.get query "limit")) as [l|]; [|discriminate].
  cbn [bind in_model]. intros [= <-].
  exists fields, fc, sortBy, p, l. repeat (split; [reflexivity|]).
  reflexivity.
Qed.

Lemma stated_order_assembled qs_parse name filterObj query count
    fields fc sortBy p l :
  string_argument (Obj.get query "fields") "-__v" = Ok fields ->
  filter_conditions qs_parse query = Ok fc ->
  string_argument (Obj.get query "sort") "-createdAt" = Ok sortBy ->
  Number (Obj.get query "page") = Some p ->
  Number (Obj.get query "limit") = Some l ->
  build_query_in_stated_order qs_parse name filterObj query count =
    Ok (assembled
          (filterObj :: cond_of_json fc :: keyword_condition name query)
          fields sortBy p l count query).
Proof.
  intros Hf Hc Hs Hp Hl.
  unfold build_query_in_stated_order, filter.
  cbn [queryString new_ApiFeatures]. rewrite Hc. cbn [bind].
  rewrite search_eq. cbn [bind queryString].
  rewrite sort_eq. cbn [queryString]. rewrite Hs. cbn [bind].
  rewrite limitFields_eq. cbn [queryString]. rewrite Hf. cbn [bind].
  rewrite (paginate_unfold _ count p l) by assumption.
  cbv zeta. unfold assembled. do 2 f_equal.
  cbn [mongooseQuery new_ApiFeatures paginationResults].
  unfold keyword_condition.
  destruct (Obj.get query "keyword") as [kw|]; [|reflexivity].
  destruct (truthy (Some kw)); reflexivity.
Qed.

Lemma num_or_25_nonzero (l : jsnum) : num_or l 25 <> Num 0.
Proof. apply num_or_nonzero. lia. Qed.

(** *** The merge does not depend on when the keyword condition comes *)

Lemma has_key_iff (o : list (string * cond)) (k : string) :
  has_key o k = false <-> ~ In k (Obj.keys o).
Proof.
  unfold has_key, Obj.keys. induction o as [|[k0 v0] o IH]; cbn [Obj.get].
  - split; [intros _ []|reflexivity].
  - cbn [map fst In]. destruct (String.eqb_spec k0 k) as [->|Hne].
    + split; [discriminate|]. intros H. exfalso. apply H. left. reflexivity.
    + rewrite IH. split; [intros H [He|Hi]; [contradiction|auto]|auto].
Qed.

Lemma get_app {V : Type} (u w : list (string * V)) (k : string) :
  Obj.get (u ++ w) k =
    match Obj.get u k with
    | Some x => Some x
    | None => Obj.get w k
    end.
Proof.
  induction u as [|[k0 v0] u IH]; [reflexivity|].
  cbn [app Obj.get]. destruct (String.eqb k0 k); [reflexivity|exact IH].
Qed.

Lemma set_app {V : Type} (u w : list (string * V)) (k : string) (v : V) :
  Obj.set (u ++ w) k v =
    match Obj.get u k with
    | Some _ => Obj.set u k v ++ w
    | None => u ++ Obj.set w k v
    end.
Proof.
  induction u as [|[k0 v0] u IH]; [reflexivity|].
  cbn [app Obj.set Obj.get]. destruct (String.eqb k0 k); [reflexivity|].
  rewrite IH. destruct (Obj.get u k); reflexivity.
Qed.

(** An entry whose key the merged object does not name stays where it
    is, and the entries around it are merged as without it. *)
Lemma merge_around (from u v : list (string * cond)) (e : string * cond) :
  ~ In (fst e) (Obj.keys from) ->
  exists u' v',
    merge (u ++ e :: v) from = u' ++ e :: v' /\
    merge (u ++ v) from = u' ++ v'.
Proof.
  unfold merge. revert u v.
  induction from as [|[k x] from IH]; intros u v Hk; cbn [fold_left].
  - exists u, v. split; reflexivity.
  - unfold Obj.keys in Hk. cbn [map fst In] in Hk. cbn [fst snd].
    destruct (is_special k); [apply IH; auto|].
    assert (Hne : String.eqb (fst e) k = false).
    { destruct (String.eqb_spec (fst e) k); [|reflexivity].
      exfalso. apply Hk. left. congruence. }
    assert (Hget : Obj.get (u ++ e :: v) k = Obj.get (u ++ v) k).
    { rewrite !get_app. destruct (Obj.get u k); [reflexivity|].
      destruct e as [ke ve]. cbn [Obj.get fst] in *. rewrite Hne.
      reflexivity. }
    rewrite Hget. rewrite !set_app.
    destruct (Obj.get u k).
    + apply IH. auto.
    + destruct e as [ke ve]. cbn [Obj.set fst] in *. rewrite Hne.
      apply IH. auto.
Qed.

Lemma merge_single_fresh (o : list (string * cond)) (k : string) (v : cond) :
  is_special k = false -> ~ In k (Obj.keys o) ->
  merge o [(k, v)] = o ++ [(k, v)].
Proof.
  intros Hs Hk. unfold merge. cbn [fold_left fst snd]. rewrite Hs.
  rewrite (get_fresh o k Hk), merge_value_none. apply set_fresh. exact Hk.
Qed.

Lemma merge_keys (from into : list (string * cond)) (k : string) :
  In k (Obj.keys (merge into from)) ->
  In k (Obj.keys into) \/ In k (Obj.keys from).
Proof.
  unfold merge. revert into.
  induction from as [|[k0 x] from IH]; intros into H; cbn [fold_left] in H.
  - left. exact H.
  - cbn [fst snd] in H. unfold Obj.keys at 2. cbn [map fst In].
    destruct (is_special k0).
    + destruct (IH _ H); auto.
    + destruct (IH _ H) as [H'|H']; [|auto].
      apply keys_set in H'. destruct H' as [H'|H']; [auto|].
      subst k. auto.
Qed.

(** The keyword condition merged before the parameter filter, or after
    it: the conditions hold the same entries. *)
Lemma merge_keyword_first_or_last (base from : list (string * cond))
    (v : cond) :
  ~ In "$or" (Obj.keys base) ->
  ~ In "$or" (Obj.keys from) ->
  Permutation (merge (merge base [("$or", v)]) from)
              (merge (merge base from) [("$or", v)]).
Proof.
  intros Hb Hf.
  rewrite (merge_single_fresh base "$or" v eq_refl Hb).
  destruct (merge_around from base [] ("$or", v) Hf) as (u' & v' & Ha & Hm).
  rewrite Ha. rewrite app_nil_r in Hm.
  rewrite merge_single_fresh.
  - rewrite Hm, <- app_assoc. apply Permutation_app_head.
    apply Permutation_cons_append.
  - reflexivity.
  - intros H. apply merge_keys in H as [H|H]; contradiction.
Qed.

Section BuilderOrder.
Context {doc : Type} {store : Store doc}.

(** Awaiting an assembled query: the documents matching the merged
    conditions, sorted, cut to the window, projected. *)
Lemma exec_assembled (conditions : list cond) (fields sortBy : string)
    (p l : jsnum) (count : Z) (query : list (string * json))
    (docs : list doc) :
  exec (mongooseQuery (assembled conditions fields sortBy p l count query))
       docs =
    do merged <- merge_conditions conditions;
    let matching := List.filter (matches (JObj merged)) docs in
    let sorted := sort_docs (Some en_strength2) (CStr sortBy) matching in
    match num_mul (num_sub (num_or p 1) (Num 1)) (num_or l 25),
          num_or l 25 with
    | Num skip, Num limit =>
        if skip <? 0 then Err StoreError
        else Ok (map (shape None [fields] [])
                     (firstn (Z.to_nat (Z.abs limit))
                             (skipn (Z.to_nat skip) sorted)))
    | _, _ => Err StoreError
    end.
Proof.
  unfold exec, window, ordered, selected, assembled.
  cbn [mongooseQuery q_conditions q_sort q_collation q_skip q_limit
       q_projection q_select q_populate].
  destruct (merge_conditions conditions) as [merged|]; [|reflexivity].
  cbn [bind]. pose proof (num_or_25_nonzero l) as Hl.
  destruct (num_mul _ _) as [sk| |?]; try reflexivity.
  destruct (sk <? 0); [destruct (num_or l 25); reflexivity|].
  cbn [bind].
  destruct (num_or l 25) as [[|z|z]| |?];
    [contradiction Hl; reflexivity|reflexivity..].
Qed.

(** C4, as amended. [getAll] applies the builder steps in the order
    search, projection, filter, sort, pagination. The steps only record
    what the store is to do: each [find] merges its condition object into
    the conditions of the query, a later key replacing an earlier one, and
    sort, skip and limit are options of the query. The answer is made of
    the documents that match the merged conditions (the base filter, the
    keyword condition and the parameter filter), which are then sorted
    and cut to the page window, so that sort and pagination act on the
    filtered-and-searched set. The order filter, search, sort, projection,
    pagination records the same options and the same pagination results,
    with the [find] arguments in another order, and its merged conditions
    hold the same entries. *)
Theorem builder_steps_commute qs_parse name filterObj query count a :
  build_query qs_parse name filterObj query count = Ok a ->
  exists b fields fc sortBy r,
    build_query_in_stated_order qs_parse name filterObj query count = Ok b /\
    q_conditions (mongooseQuery a) =
      filterObj :: keyword_condition name query ++ [cond_of_json fc] /\
    mongooseQuery b =
      with_conditions
        (filterObj :: cond_of_json fc :: keyword_condition name query)
        (mongooseQuery a) /\
    paginationResults a = Some r /\
    paginationResults b = Some r /\
    (forall merged,
       merge_conditions (q_conditions (mongooseQuery a)) = Ok merged ->
       exists merged',
         merge_conditions (q_conditions (mongooseQuery b)) = Ok merged' /\
         Permutation merged merged') /\
    forall docs : list doc,
      exec (mongooseQuery a) docs =
        do merged <- merge_conditions (q_conditions (mongooseQuery a));
        let matching := List.filter (matches (JObj merged)) docs in
        let sorted := sort_docs (Some en_strength2) (CStr sortBy) matching in
        match num_mul (num_sub (Pagination.currentPage r) (Num 1))
                      (Pagination.limit r),
              Pagination.limit r with
        | Num skip, Num limit =>
            if skip <? 0 then Err StoreError
            else Ok (map (shape None [fields] [])
                         (firstn (Z.to_nat (Z.abs limit))
                                 (skipn (Z.to_nat skip) sorted)))
        | _, _ => Err StoreError
        end.
Proof.
  intros H.
  apply build_query_assembled in H
    as (fields & fc & sortBy & p & l & Hf & Hc & Hs & Hp & Hl & ->).
  eexists. exists fields, fc, sortBy. eexists.
  split; [apply (stated_order_assembled _ _ _ _ _ _ _ _ _ _ Hf Hc Hs Hp Hl)|].
  split; [reflexivity|]. split; [reflexivity|].
  split; [reflexivity|]. split; [reflexivity|].
  split.
  - cbn [assembled mongooseQuery q_conditions].
    unfold keyword_condition.
    destruct (Obj.get query "keyword") as [kw|];
      [|intros merged Hm; exists merged; split; [exact Hm|reflexivity]].
    destruct (truthy (Some kw));
      [|intros merged Hm; exists merged; split; [exact Hm|reflexivity]].
    set (v := JArr (search_conditions (search_fields name) kw)).
    intros merged. unfold merge_conditions.
    cbn [app fold_left bind].
    destruct filterObj as [?|?|base]; try discriminate.
    cbn [has_key Obj.get andb orb bind].
    set (base' := merge [] base).
    match goal with
    | |- context [merge base' ?e] => set (keyword := e)
    end.
    change (has_key keyword "$and") with false.
    change (has_key keyword "$or") with true.
    rewrite andb_false_r, andb_true_r, orb_false_l.
    destruct (has_key base' "$or") eqn:Hbo; [discriminate|].
    cbn [bind].
    destruct (cond_of_json fc) as [?|?|from]; try discriminate.
    assert (Hk : ~ In "$or" (Obj.keys base')) by (apply has_key_iff, Hbo).
    assert (Hkw : merge base' keyword = base' ++ keyword)
      by (apply (merge_single_fresh base' "$or" v eq_refl Hk)).
    assert (Hor : has_key (merge base' keyword) "$or" = true).
    { rewrite Hkw. unfold has_key.
      rewrite get_app, (get_fresh base' "$or" Hk). reflexivity. }
    assert (Hand : has_key (merge base' keyword) "$and" =
                   has_key base' "$and").
    { rewrite Hkw. unfold has_key. rewrite get_app.
      destruct (Obj.get base' "$and"); reflexivity. }
    rewrite Hor, Hand, andb_true_l.
    destruct (has_key from "$or") eqn:Hfo;
      [rewrite orb_true_r; discriminate|].
    rewrite !orb_false_r.
    destruct (has_key base' "$and" && has_key from "$and");
      [discriminate|].
    cbn [bind]. intros [= <-].
    assert (Hf' : ~ In "$or" (Obj.keys from)) by (apply has_key_iff, Hfo).
    assert (Hmo : has_key (merge base' from) "$or" = false).
    { apply has_key_iff. intros Hin.
      apply merge_keys in Hin as [Hin|Hin]; contradiction. }
    rewrite Hmo. rewrite andb_false_r, andb_false_l. cbn [orb bind].
    eexists. split; [reflexivity|].
    apply (merge_keyword_first_or_last base' from v); assumption.
  - intros docs. rewrite exec_assembled. reflexivity.
Qed.
End BuilderOrder.

Lemma builder_steps_commute_witness :
  exists b fields fc sortBy r,
    build_query_in_stated_order parsed "Upload" (JObj [])
      sunset_listing_query 5 = Ok b /\
    q_conditions (mongooseQuery sunset_listing) =
      JObj [] :: keyword_condition "Upload" sunset_listing_query
        ++ [cond_of_json fc] /\
    mongooseQuery b =
      with_conditions
        (JObj [] :: cond_of_json fc
           :: keyword_condition "Upload" sunset_listing_query)
        (mongooseQuery sunset_listing) /\
    paginationResults sunset_listing = Some r /\
    paginationResults b = Some r /\
    (forall merged,
       merge_conditions (q_conditions (mongooseQuery sunset_listing))
         = Ok merged ->
       exists merged',
         merge_conditions (q_conditions (mongooseQuery b)) = Ok merged' /\
         Permutation merged merged') /\
    forall docs : list Fixture.record,
      exec (mongooseQuery sunset_listing) docs =
        do merged <-
          merge_conditions (q_conditions (mongooseQuery sunset_listing));
        let matching := List.filter (matches (JObj merged)) docs in
        let sorted := sort_docs (Some en_strength2) (CStr sortBy) matching in
        match num_mul (num_sub (Pagination.currentPage r) (Num 1))
                      (Pagination.limit r),
              Pagination.limit r with
        | Num skip, Num limit =>
            if skip <? 0 then Err StoreError
            else Ok (map (shape None [fields] [])
                         (firstn (Z.to_nat (Z.abs limit))
                                 (skipn (Z.to_nat skip) sorted)))
        | _, _ => Err StoreError
        end.
Proof.
  apply (builder_steps_commute (store := Fixture.store) parsed "Upload"
           (JObj []) sunset_listing_query 5 sunset_listing).
  vm_compute. reflexivity.
Defined.

(** C4 as stated fails: the chain of [getAll] calls search before filter
    (and projection before both filter and sort), so the query it builds
    is not the one built in the order filter, search, sort, projection,
    pagination. *)
Lemma builder_order_counterexample :
  exists b,
    build_query parsed "Upload" (JObj []) sunset_listing_query 5
      = Ok sunset_listing /\
    build_query_in_stated_order parsed "Upload" (JObj [])
      sunset_listing_query 5 = Ok b /\
    q_conditions (mongooseQuery sunset_listing) =
      [JObj [];
       JObj [("$or", JArr (search_conditions ["name"] (JStr "sunset")))];
       JObj [("category", CStr "photography")]] /\
    q_conditions (mongooseQuery b) =
      [JObj [];
       JObj [("category", CStr "photography")];
       JObj [("$or", JArr (search_conditions ["name"] (JStr "sunset")))]] /\
    sunset_listing <> b.
Proof.
  eexists. split; [vm_compute; reflexivity|].
  split; [vm_compute; reflexivity|].
  split; [reflexivity|]. split; [reflexivity|]. discriminate.
Qed.

(** ** The operator regex as an insertion *)

Lemma tokens_wordy : Forall (fun w => wordy w /\ w <> []) tokens.
Proof.
  unfold tokens, wordy. simpl.
  repeat constructor; discriminate.
Qed.

Lemma token_in_tokens (w : list ascii) :
  In w tokens -> wordy w /\ w <> [].
Proof. intros H. exact (proj1 (Forall_forall _ _) tokens_wordy w H). Qed.

Lemma token_here_split (w s : list ascii) :
  token_here w s = true -> exists t, s = w ++ t /\ token_here [] t = true.
Proof.
  revert s. induction w as [|y w IH]; intros s H.
  - exists s. auto.
  - destruct s as [|c s]; [discriminate|]. simpl in H.
    apply andb_true_iff in H as [Hc H]. apply Ascii.eqb_eq in Hc. subst y.
    destruct (IH s H) as (t & -> & Ht). exists t. auto.
Qed.

Lemma token_here_nonword (w s : list ascii) (c : ascii) :
  wordy w -> w <> [] -> is_word c = false -> token_here w (c :: s) = false.
Proof.
  intros Hw Hne Hc. destruct w as [|y w]; [contradiction|].
  simpl. inversion Hw as [|? ? Hy _]; subst.
  destruct (Ascii.eqb_spec c y); [|reflexivity]. congruence.
Qed.

Lemma token_here_empty (w : list ascii) : w <> [] -> token_here w [] = false.
Proof. destruct w; [contradiction|reflexivity]. Qed.

Lemma existsb_ext_in {A : Type} (f g : A -> bool) (l : list A) :
  (forall x, In x l -> f x = g x) -> existsb f l = existsb g l.
Proof.
  induction l as [|x l IH]; intros H; [reflexivity|].
  simpl. rewrite (H x (or_introl eq_refl)), IH; [reflexivity|].
  intros y Hy. apply H. right. exact Hy.
Qed.

Lemma existsb_false_in {A : Type} (f : A -> bool) (l : list A) :
  (forall x, In x l -> f x = false) -> existsb f l = false.
Proof.
  induction l as [|x l IH]; intros H; [reflexivity|].
  simpl. rewrite (H x (or_introl eq_refl)), IH; [reflexivity|].
  intros y Hy. apply H. right. exact Hy.
Qed.

Lemma matched_nonword (p : bool) (c : ascii) (s : list ascii) :
  is_word c = false -> matched p (c :: s) = false.
Proof.
  intros Hc. unfold matched. rewrite existsb_false_in; [apply andb_false_r|].
  intros w Hw. destruct (token_in_tokens w Hw).
  apply token_here_nonword; assumption.
Qed.

Lemma matched_after_word (s : list ascii) : matched true s = false.
Proof.
  destruct s as [|c s].
  - unfold matched. rewrite existsb_false_in; [apply andb_false_r|].
    intros w Hw. apply token_here_empty. apply (token_in_tokens w Hw).
  - destruct (is_word c) eqn:Hc.
    + unfold matched, boundary. rewrite Hc. reflexivity.
    + apply matched_nonword. exact Hc.
Qed.

Lemma match_at_matched (p : bool) (s : list ascii) :
  match match_at p s with
  | Some w => matched p s = true /\ In w tokens /\ token_here w s = true
  | None => matched p s = false
  end.
Proof.
  unfold match_at, matched. destruct (boundary p s); [|reflexivity].
  destruct (find _ tokens) as [w|] eqn:Hf.
  - apply find_some in Hf as [Hin Hw]. split; [|auto].
    cbn [andb]. apply existsb_exists. eauto.
  - cbn [andb]. apply existsb_false_in. intros w Hw.
    exact (find_none _ _ Hf w Hw).
Qed.

Lemma insert_from_word_prefix (u t : list ascii) :
  wordy u -> insert_from true (u ++ t) = u ++ insert_from true t.
Proof.
  induction 1 as [|c u Hc _ IH]; [reflexivity|].
  cbn [app insert_from]. rewrite matched_after_word, Hc, IH. reflexivity.
Qed.

Lemma replace_from_skip (u t : list ascii) :
  wordy u ->
  replace_from true (List.length u) (u ++ t) = replace_from true 0 t.
Proof.
  induction 1 as [|c u Hc _ IH]; [reflexivity|].
  cbn [app List.length replace_from]. rewrite Hc. exact IH.
Qed.

Lemma replace_from_insert (n : nat) :
  forall (s : list ascii) (p : bool),
    (List.length s <= n)%nat -> replace_from p 0 s = insert_from p s.
Proof.
  induction n as [|n IH]; intros s p Hn.
  - destruct s; [reflexivity|simpl in Hn; lia].
  - destruct s as [|c s]; [reflexivity|].
    cbn [replace_from insert_from].
    pose proof (match_at_matched p (c :: s)) as Hm.
    destruct (match_at p (c :: s)) as [w|].
    + destruct Hm as (Hm & Hin & Hw). rewrite Hm.
      destruct (token_in_tokens w Hin) as [Hword Hne].
      apply token_here_split in Hw as (t & Hs & _).
      destruct w as [|y w]; [contradiction|].
      injection Hs as <- ->. inversion Hword as [|? ? Hc Hw']; subst.
      rewrite Hc. cbn [List.length Nat.pred app].
      rewrite replace_from_skip by assumption.
      rewrite insert_from_word_prefix by assumption.
      rewrite IH; [reflexivity|].
      simpl in Hn. rewrite length_app in Hn. lia.
    + rewrite Hm. cbn [app]. rewrite IH; [reflexivity|simpl in Hn; lia].
Qed.

Lemma replace_operators_insert (s : list ascii) :
  replace_operators s = insert_from false s.
Proof. apply (replace_from_insert (List.length s)). lia. Qed.

(** The insertion works between non-word characters independently. *)

Lemma token_here_before_nonword (w a b : list ascii) (c : ascii) :
  wordy w -> is_word c = false ->
  token_here w (a ++ c :: b) = token_here w a.
Proof.
  intros Hw Hc. revert a.
  induction Hw as [|y w Hy _ IH]; intros a.
  - destruct a; simpl; [rewrite Hc|]; reflexivity.
  - destruct a as [|x a]; simpl.
    + destruct (Ascii.eqb_spec c y); [congruence|reflexivity].
    + rewrite IH. reflexivity.
Qed.

Lemma matched_before_nonword (p : bool) (x c : ascii) (a b : list ascii) :
  is_word c = false ->
  matched p ((x :: a) ++ c :: b) = matched p (x :: a).
Proof.
  intros Hc. unfold matched. f_equal.
  apply existsb_ext_in. intros w Hw.
  apply token_here_before_nonword; [apply (token_in_tokens w Hw)|exact Hc].
Qed.

Lemma insert_from_nonword (p : bool) (c : ascii) (s : list ascii) :
  is_word c = false -> insert_from p (c :: s) = c :: insert_from false s.
Proof.
  intros Hc. cbn [insert_from]. rewrite matched_nonword, Hc by exact Hc.
  reflexivity.
Qed.

Lemma insert_from_split (a b : list ascii) (c : ascii) (p : bool) :
  is_word c = false ->
  insert_from p (a ++ c :: b) = insert_from p a ++ c :: insert_from false b.
Proof.
  intros Hc. revert p. induction a as [|x a IH]; intros p.
  - apply insert_from_nonword. exact Hc.
  - change ((x :: a) ++ c :: b) with (x :: (a ++ c :: b)) at 1.
    cbn [insert_from].
    change (x :: a ++ c :: b) with ((x :: a) ++ c :: b).
    rewrite matched_before_nonword by exact Hc.
    rewrite IH, <- !app_assoc. reflexivity.
Qed.

(** ** The serialised text after the replacement *)

Lemma stringify_render (v : json) : JSON_stringify v = render escaped v.
Proof.
  induction v as [s|items IH|entries IH] using jsval_nested_ind.
  - reflexivity.
  - cbn [JSON_stringify render]. do 3 f_equal.
    induction IH as [|x l Hx _ IHl]; [reflexivity|].
    cbn [map]. rewrite Hx, IHl. reflexivity.
  - cbn [JSON_stringify render]. do 3 f_equal.
    induction IH as [|kv l Hkv _ IHl]; [reflexivity|].
    cbn [map]. f_equal; [|exact IHl].
    unfold quoted. cbn [app]. rewrite <- app_assoc. cbn [app].
    do 4 f_equal. exact Hkv.
Qed.

Lemma closed_commas (parts parts' : list (list ascii)) (c : ascii) :
  Forall2 closed_piece parts parts' ->
  is_word c = false ->
  forall (p : bool) (rest : list ascii),
    insert_from p (commas parts ++ c :: rest) =
      commas parts' ++ c :: insert_from false rest.
Proof.
  intros H Hc. induction H as [|x x' l l' Hx Hl IH]; intros p rest.
  - apply insert_from_nonword. exact Hc.
  - destruct Hl as [|y y' l l' Hy Hl].
    + cbn [commas]. rewrite Hx, insert_from_nonword by exact Hc. reflexivity.
    + change (commas (x :: y :: l)) with (x ++ ch 44 :: commas (y :: l)).
      change (commas (x' :: y' :: l')) with (x' ++ ch 44 :: commas (y' :: l')).
      rewrite <- !app_assoc. cbn [app].
      rewrite Hx, insert_from_nonword by reflexivity.
      rewrite IH. reflexivity.
Qed.

Lemma closed_string (s : string) :
  closed_piece (quote :: escaped s ++ [quote])
               (quote :: rewritten s ++ [quote]).
Proof.
  intros p rest. cbn [app]. rewrite <- !app_assoc. cbn [app].
  rewrite insert_from_nonword by reflexivity.
  rewrite insert_from_split by reflexivity. reflexivity.
Qed.

Lemma closed_render (v : json) :
  closed_piece (render escaped v) (render rewritten v).
Proof.
  induction v as [s|items IH|entries IH] using jsval_nested_ind.
  - apply closed_string.
  - intros p rest. cbn [render app]. rewrite <- !app_assoc. cbn [app].
    rewrite insert_from_nonword by reflexivity. f_equal.
    apply closed_commas; [|reflexivity].
    induction IH as [|x l Hx _ IHl]; constructor; assumption.
  - intros p rest. cbn [render app]. rewrite <- !app_assoc. cbn [app].
    rewrite insert_from_nonword by reflexivity. f_equal.
    apply closed_commas; [|reflexivity].
    induction IH as [|kv l Hkv _ IHl]; constructor; [|assumption].
    intros p' rest'. cbn [app]. rewrite <- !app_assoc. cbn [app].
    rewrite insert_from_nonword by reflexivity.
    rewrite insert_from_split by reflexivity.
    rewrite insert_from_nonword by reflexivity.
    rewrite Hkv. reflexivity.
Qed.

Lemma replace_stringify (v : json) :
  replace_operators (JSON_stringify v) = render rewritten v.
Proof.
  rewrite replace_operators_insert, stringify_render.
  rewrite <- (app_nil_r (render escaped v)), closed_render.
  apply app_nil_r.
Qed.

(** ** String literals after the replacement *)

Lemma ch_code (c : ascii) : ch (code c) = c.
Proof. unfold ch, code. rewrite N2Z.id. apply ascii_N_embedding. Qed.

Lemma matched_other_head (p : bool) (x : ascii) (s : list ascii) :
  (code x =? 103) || (code x =? 108) || (code x =? 105) = false ->
  matched p (x :: s) = false.
Proof.
  intros Hx. unfold matched.
  rewrite existsb_false_in; [apply andb_false_r|].
  intros w Hw. unfold tokens in Hw. cbn [map In] in Hw.
  destruct Hw as [<-|[<-|[<-|[<-|[<-|[]]]]]];
    cbn [chars list_ascii_of_string token_here];
    match goal with
    | |- (Ascii.eqb x ?y && _) = false =>
        destruct (Ascii.eqb_spec x y) as [->|]; [discriminate Hx|reflexivity]
    end.
Qed.

Lemma insert_from_other_head (p : bool) (x : ascii) (s : list ascii) :
  (code x =? 103) || (code x =? 108) || (code x =? 105) = false ->
  insert_from p (x :: s) = x :: insert_from (is_word x) s.
Proof.
  intros Hx. cbn [insert_from]. rewrite matched_other_head by exact Hx.
  reflexivity.
Qed.

Lemma char_cases (c : ascii) : plain_char c \/ escaped_char c.
Proof.
  destruct c as [[] [] [] [] [] [] [] []];
    first
      [ left; repeat split; reflexivity
      | right; split; [reflexivity|]; split; [eexists; reflexivity|];
        split;
        [ intros p rest;
          match goal with
          | |- context [escape_char ?C] =>
              let e := eval vm_compute in (escape_char C) in
              change (escape_char C) with e
          end;
          cbn [app];
          repeat rewrite insert_from_other_head by reflexivity;
          reflexivity
        | intros rest; reflexivity ] ].
Qed.

Lemma plain_ends_word (c : ascii) : plain_char c -> ends_word c = is_word c.
Proof.
  intros (_ & _ & _ & H). unfold ends_word. rewrite H. apply orb_false_r.
Qed.

(** An operator word shows in the serialised text where it shows in the
    string. *)
Lemma token_here_escape (w s : list ascii) :
  wordy w -> token_here w (escape s) = token_here w s.
Proof.
  intros Hw. revert s. induction Hw as [|y w Hy _ IH]; intros s.
  - destruct s as [|c s]; [reflexivity|]. cbn [escape flat_map].
    destruct (char_cases c) as [(-> & _)|(Hc & (e & ->) & _)].
    + reflexivity.
    + cbn [app token_here]. rewrite Hc. reflexivity.
  - destruct s as [|c s]; [reflexivity|]. cbn [escape flat_map].
    destruct (char_cases c) as [(-> & _)|(Hc & (e & ->) & _)].
    + cbn [app token_here]. change (flat_map escape_char s) with (escape s).
      rewrite IH. reflexivity.
    + cbn [app token_here].
      destruct (Ascii.eqb_spec backslash y) as [<-|]; [discriminate Hy|].
      destruct (Ascii.eqb_spec c y) as [<-|]; [congruence|]. reflexivity.
Qed.

Lemma matched_escape (p : bool) (c : ascii) (s : list ascii) :
  plain_char c -> matched p (c :: escape s) = matched p (c :: s).
Proof.
  intros Hc. unfold matched. f_equal. apply existsb_ext_in. intros w Hw.
  pose proof (token_here_escape w (c :: s) (proj1 (token_in_tokens w Hw))) as H.
  cbn [escape flat_map] in H. rewrite (proj1 Hc) in H. exact H.
Qed.

Lemma parse_plain (c : ascii) (rest : list ascii) :
  plain_char c ->
  parse_string_body (c :: rest) = push (Some c) (parse_string_body rest).
Proof.
  intros (_ & H34 & H92 & H32). cbn [parse_string_body].
  rewrite H34, H92, H32. reflexivity.
Qed.

Lemma parse_dollar (rest : list ascii) :
  parse_string_body (dollar :: rest) =
    push (Some dollar) (parse_string_body rest).
Proof. reflexivity. Qed.

(** The parser reads a rewritten literal back as the rewritten string. *)
Lemma parse_rewritten_from (s : list ascii) :
  forall (p : bool) (rest : list ascii),
    parse_string_body (insert_from p (escape s) ++ quote :: rest) =
      Some (rewrite_from p s, rest).
Proof.
  induction s as [|c s IH]; intros p rest; [reflexivity|].
  cbn [escape flat_map rewrite_from].
  destruct (char_cases c) as [Hc|(Hw & _ & Hins & Hparse)].
  - pose proof Hc as (-> & _). cbn [app insert_from].
    fold (escape s). rewrite (matched_escape p c s Hc).
    rewrite (plain_ends_word c Hc).
    destruct (matched p (c :: s)); cbn [app].
    + rewrite parse_dollar, (parse_plain c _ Hc), IH. reflexivity.
    + rewrite (parse_plain c _ Hc), IH. reflexivity.
  - fold (escape s). rewrite Hins, <- app_assoc, Hparse, IH.
    rewrite (matched_nonword p c s Hw). reflexivity.
Qed.

Lemma parse_rewritten (s : string) (rest : list ascii) :
  parse_string_body (rewritten s ++ quote :: rest) =
    Some (chars (rewrite_string s), rest).
Proof.
  unfold rewritten, escaped, rewrite_string, text, chars.
  rewrite parse_rewritten_from, list_ascii_of_string_of_list_ascii.
  reflexivity.
Qed.

(** ** Parsing the rewritten text back *)

Lemma render_head (v : json) (rest : list ascii) :
  exists c tail,
    render rewritten v ++ rest = c :: tail /\
    is_json_ws c = false /\ (code c =? 93) = false /\ (code c =? 125) = false.
Proof.
  destruct v; cbn [render app]; do 2 eexists; (split; [reflexivity|]);
    repeat split; reflexivity.
Qed.

Lemma commas_head (x : list ascii) (l : list (list ascii)) (rest : list ascii) :
  exists tail, commas (x :: l) ++ rest = x ++ tail.
Proof.
  destruct l as [|y l].
  - exists rest. reflexivity.
  - exists (ch 44 :: commas (y :: l) ++ rest).
    change (commas (x :: y :: l)) with (x ++ ch 44 :: commas (y :: l)).
    rewrite <- app_assoc. reflexivity.
Qed.

Lemma parse_elements_render (items : list json) :
  Forall parses_back items -> items <> [] ->
  forall (fuel : nat) (acc : list json) (rest : list ascii),
    (elements_size items <= fuel)%nat ->
    parse_elements fuel acc
      (commas (map (render rewritten) items) ++ ch 93 :: rest) =
      Some (JArr (acc ++ map rewrite_json items), rest).
Proof.
  induction 1 as [|x l Hx Hl IH]; intros Hne fuel acc rest Hfuel;
    [contradiction|].
  cbn [elements_size fold_right] in Hfuel.
  destruct fuel as [|m]; [lia|].
  cbn [parse_elements map].
  destruct l as [|y l].
  - cbn [map commas]. rewrite Hx by (cbn [fold_right] in Hfuel; lia).
    reflexivity.
  - change (commas (render rewritten x :: map (render rewritten) (y :: l)))
      with (render rewritten x ++ ch 44
              :: commas (map (render rewritten) (y :: l))).
    rewrite <- app_assoc. cbn [app].
    rewrite Hx by lia.
    change (skip_ws (ch 44 :: ?t)) with (ch 44 :: t).
    cbn [skip_ws]. change (is_json_ws (ch 44)) with false. cbv iota.
    change (code (ch 44) =? 44) with true. cbv iota.
    rewrite IH; [|discriminate|fold (elements_size (y :: l)) in Hfuel; lia].
    rewrite <- app_assoc. reflexivity.
Qed.

Lemma parse_member (kv : string * json) (m : nat) (acc : list (string * json))
    (tail : list ascii) :
  parses_back (snd kv) -> (json_size (snd kv) <= m)%nat ->
  parse_members (S m) acc (member kv ++ tail) =
    match skip_ws tail with
    | c :: r4 =>
        if code c =? 44 then parse_members m (rewrite_entry acc kv) r4
        else if code c =? 125 then Some (JObj (rewrite_entry acc kv), r4)
        else None
    | [] => None
    end.
Proof.
  intros Hv Hm. unfold member. cbn [app parse_members skip_ws].
  change (is_json_ws quote) with false. cbv iota.
  change (code quote =? 34) with true. cbv iota.
  rewrite <- app_assoc. cbn [app]. rewrite parse_rewritten.
  cbn [skip_ws]. change (is_json_ws (ch 58)) with false. cbv iota.
  change (code (ch 58) =? 58) with true. cbv iota.
  rewrite Hv by exact Hm.
  unfold rewrite_entry, text, chars.
  rewrite string_of_list_ascii_of_string. reflexivity.
Qed.

Lemma parse_members_render (entries : list (string * json)) :
  Forall (fun kv => parses_back (snd kv)) entries -> entries <> [] ->
  forall (fuel : nat) (acc : list (string * json)) (rest : list ascii),
    (members_size entries <= fuel)%nat ->
    parse_members fuel acc (commas (map member entries) ++ ch 125 :: rest) =
      Some (JObj (fold_left rewrite_entry entries acc), rest).
Proof.
  induction 1 as [|kv l Hkv Hl IH]; intros Hne fuel acc rest Hfuel;
    [contradiction|].
  cbn [members_size fold_right] in Hfuel.
  destruct fuel as [|m]; [lia|].
  destruct l as [|kv' l].
  - cbn [map commas]. rewrite parse_member by (assumption || lia).
    reflexivity.
  - change (commas (map member (kv :: kv' :: l)))
      with (member kv ++ ch 44 :: commas (map member (kv' :: l))).
    rewrite <- app_assoc. cbn [app].
    rewrite parse_member by (assumption || lia).
    cbn [skip_ws]. change (is_json_ws (ch 44)) with false. cbv iota.
    change (code (ch 44) =? 44) with true. cbv iota.
    rewrite IH; [reflexivity|discriminate|].
    fold (members_size (kv' :: l)) in Hfuel. lia.
Qed.

Lemma parse_value_render (v : json) : parses_back v.
Proof.
  induction v as [s|items IH|entries IH] using jsval_nested_ind;
    intros fuel rest Hfuel.
  - destruct fuel as [|n]; [cbn in Hfuel; lia|].
    cbn [render app parse_value skip_ws].
    change (is_json_ws quote) with false. cbv iota.
    change (code quote =? 34) with true. cbv iota.
    rewrite <- app_assoc. cbn [app]. rewrite parse_rewritten.
    unfold text, chars. rewrite string_of_list_ascii_of_string. reflexivity.
  - destruct fuel as [|n]; [cbn in Hfuel; lia|].
    cbn [render app parse_value skip_ws].
    change (is_json_ws (ch 91)) with false. cbv iota.
    change (code (ch 91) =? 34) with false. cbv iota.
    change (code (ch 91) =? 91) with true. cbv iota.
    rewrite <- app_assoc. cbn [app].
    destruct items as [|x l]; [reflexivity|].
    destruct (commas_head (render rewritten x) (map (render rewritten) l)
                (ch 93 :: rest)) as (tail & Htail).
    destruct (render_head x tail) as (c & tail' & Hc & Hws & H93 & _).
    cbn [map]. rewrite Htail, Hc. cbn [skip_ws]. rewrite Hws, H93.
    rewrite <- Hc, <- Htail.
    change (render rewritten x :: map (render rewritten) l)
      with (map (render rewritten) (x :: l)).
    rewrite parse_elements_render; [reflexivity|exact IH|discriminate|].
    cbn [json_size] in Hfuel. unfold elements_size. lia.
  - destruct fuel as [|n]; [cbn in Hfuel; lia|].
    cbn [render app parse_value skip_ws].
    change (is_json_ws (ch 123)) with false. cbv iota.
    change (code (ch 123) =? 34) with false. cbv iota.
    change (code (ch 123) =? 91) with false. cbv iota.
    change (code (ch 123) =? 123) with true. cbv iota.
    rewrite <- app_assoc. cbn [app].
    destruct entries as [|kv l]; [reflexivity|].
    change (map (fun kv0 : string * json =>
                   quote :: rewritten (fst kv0) ++ quote :: ch 58
                     :: render rewritten (snd kv0)) (kv :: l))
      with (map member (kv :: l)).
    assert (Hhead : exists tail,
               commas (map member (kv :: l)) ++ ch 125 :: rest =
                 quote :: tail).
    { destruct (commas_head (member kv) (map member l) (ch 125 :: rest))
        as (tail & Htail).
      cbn [map]. rewrite Htail. unfold member. cbn [app]. eexists.
      reflexivity. }
    destruct Hhead as (tail & Htail). rewrite Htail. cbn [skip_ws].
    change (is_json_ws quote) with false. cbv iota.
    change (code quote =? 125) with false. cbv iota.
    rewrite <- Htail.
    rewrite parse_members_render; [reflexivity|exact IH|discriminate|].
    cbn [json_size] in Hfuel. unfold members_size. lia.
Qed.

Lemma commas_length (parts : list (list ascii)) (sizes : list nat) :
  Forall2 (fun part n => (n <= List.length part)%nat) parts sizes ->
  (fold_right (fun n acc => S (n + acc)) 0 sizes
     <= List.length (commas parts) + 1)%nat.
Proof.
  induction 1 as [|x n l ns Hx Hl IH]; [cbn; lia|].
  cbn [fold_right]. destruct Hl as [|y n' l ns Hy Hl].
  - cbn [commas fold_right]. lia.
  - change (commas (x :: y :: l)) with (x ++ ch 44 :: commas (y :: l)).
    rewrite length_app. cbn [List.length]. cbn [fold_right] in IH |- *. lia.
Qed.

Lemma render_length (v : json) :
  (json_size v <= List.length (render rewritten v))%nat.
Proof.
  induction v as [s|items IH|entries IH] using jsval_nested_ind.
  - cbn [json_size render List.length]. lia.
  - cbn [json_size render List.length]. rewrite length_app. cbn [List.length].
    pose proof (commas_length (map (render rewritten) items)
                              (map json_size items)) as H.
    assert (Hsizes :
              fold_right (fun x n => S (json_size x + n)) 0%nat items =
              fold_right (fun n acc => S (n + acc)) 0%nat (map json_size items)).
    { clear. induction items as [|x l IHl]; [reflexivity|].
      cbn [map fold_right]. rewrite IHl. reflexivity. }
    rewrite Hsizes.
    assert (Hall : Forall2 (fun part n => (n <= List.length part)%nat)
                     (map (render rewritten) items) (map json_size items)).
    { clear - IH. induction IH as [|x l Hx _ IHl]; constructor; assumption. }
    specialize (H Hall). lia.
  - cbn [json_size render List.length]. rewrite length_app. cbn [List.length].
    change (map (fun kv : string * json =>
                   quote :: rewritten (fst kv) ++ quote :: ch 58
                     :: render rewritten (snd kv)) entries)
      with (map member entries).
    pose proof (commas_length (map member entries)
                  (map (fun kv => json_size (snd kv)) entries)) as H.
    assert (Hsizes :
              fold_right (fun kv n => S (json_size (snd kv) + n)) 0%nat entries =
              fold_right (fun n acc => S (n + acc)) 0%nat
                         (map (fun kv => json_size (snd kv)) entries)).
    { clear. induction entries as [|x l IHl]; [reflexivity|].
      cbn [map fold_right]. rewrite IHl. reflexivity. }
    rewrite Hsizes.
    assert (Hall : Forall2 (fun part n => (n <= List.length part)%nat)
                     (map member entries)
                     (map (fun kv => json_size (snd kv)) entries)).
    { clear - IH. induction IH as [|x l Hx _ IHl]; constructor; [|assumption].
      unfold member. cbn [List.length]. rewrite length_app.
      change (json_size (snd x)
              <= S (List.length (rewritten (fst x))
                    + S (S (List.length (render rewritten (snd x))))))%nat.
      lia. }
    specialize (H Hall). lia.
Qed.

(** [JSON.parse(JSON.stringify(v).replace(...))] is [v] with every key and
    every string rewritten. *)
Lemma parse_replace_stringify (v : json) :
  JSON_parse (replace_operators (JSON_stringify v)) = Some (rewrite_json v).
Proof.
  rewrite replace_stringify. unfold JSON_parse.
  rewrite <- (app_nil_r (render rewritten v)) at 2.
  rewrite parse_value_render; [reflexivity|].
  pose proof (render_length v). lia.
Qed.

Lemma filter_conditions_rewrite
    (qs_parse : list (string * json) -> list (string * json))
    (qs : list (string * json)) :
  filter_conditions qs_parse qs =
    Ok (rewrite_json (JObj (fold_left Obj.delete excludeFields (qs_parse qs)))).
Proof.
  unfold filter_conditions. rewrite parse_replace_stringify. reflexivity.
Qed.

(** ** Reserved keys *)

Lemma keys_rewritten (entries acc : list (string * json)) (k : string) :
  In k (Obj.keys (fold_left rewrite_entry entries acc)) ->
  In k (Obj.keys acc) \/
  exists kv, In kv entries /\ k = rewrite_string (fst kv).
Proof.
  revert acc. induction entries as [|kv l IH]; intros acc H; [auto|].
  cbn [fold_left] in H. destruct (IH _ H) as [Hacc|(kv' & Hin & ->)].
  - unfold rewrite_entry in Hacc. apply keys_set in Hacc as [Hacc| ->];
      [auto|]. right. exists kv. split; [left|]; reflexivity.
  - right. exists kv'. split; [right; exact Hin|reflexivity].
Qed.

Lemma keys_delete {V : Type} (o : list (string * V)) (k k' : string) :
  In k (Obj.keys (Obj.delete o k')) -> In k (Obj.keys o) /\ k <> k'.
Proof.
  unfold Obj.keys, Obj.delete. intros H. apply in_map_iff in H as (kv & <- & H).
  apply filter_In in H as [H Hne]. split; [apply in_map; exact H|].
  apply negb_true_iff, String.eqb_neq in Hne. exact Hne.
Qed.

Lemma keys_delete_all {V : Type} (ks : list string) (o : list (string * V))
    (k : string) :
  In k (Obj.keys (fold_left Obj.delete ks o)) ->
  In k (Obj.keys o) /\ ~ In k ks.
Proof.
  revert o. induction ks as [|k' ks IH]; intros o H; [auto|].
  cbn [fold_left] in H. apply IH in H as [H Hks].
  apply keys_delete in H as [H Hne]. split; [exact H|].
  intros [->|Hin]; [apply Hne; reflexivity|exact (Hks Hin)].
Qed.

(** A rewritten string without a dollar is the string itself. *)
Lemma rewrite_from_no_dollar (s : list ascii) :
  forall p : bool, ~ In dollar (rewrite_from p s) -> rewrite_from p s = s.
Proof.
  induction s as [|c s IH]; intros p H; [reflexivity|].
  cbn [rewrite_from] in *. destruct (matched p (c :: s)).
  - exfalso. apply H. left. reflexivity.
  - cbn [app] in *. f_equal. apply IH. intros Hin. apply H. right. exact Hin.
Qed.

Lemma rewrite_string_no_dollar (k0 k : string) :
  ~ In dollar (chars k) -> rewrite_string k0 = k -> k0 = k.
Proof.
  intros Hk H. unfold rewrite_string, text in H.
  assert (Hc : rewrite_from false (chars k0) = chars k).
  { unfold chars. rewrite <- H, list_ascii_of_string_of_list_ascii.
    reflexivity. }
  rewrite rewrite_from_no_dollar in Hc by (rewrite Hc; exact Hk).
  unfold chars in Hc.
  rewrite <- (string_of_list_ascii_of_string k0), Hc.
  apply string_of_list_ascii_of_string.
Qed.

Lemma excludeFields_no_dollar (k : string) :
  In k excludeFields -> ~ In dollar (chars k).
Proof.
  unfold excludeFields. cbn [In].
  intros [<-|[<-|[<-|[<-|[<-|[]]]]]]; cbn; intuition discriminate.
Qed.

Lemma rewrite_json_obj (entries : list (string * json)) :
  rewrite_json (JObj entries) = JObj (fold_left rewrite_entry entries []).
Proof. reflexivity. Qed.

(** C5. For every parameter mapping, the object that [filter] hands to
    the store has none of the keys page, sort, limit, fields, keyword:
    they are deleted before the rest is taken for filters; the parameters
    page=2, limit=10, sort=-createdAt, fields=title, keyword=x,
    category=photography leave the single filter category =
    photography. *)
Theorem reserved_keys_never_in_filters :
  (forall (qs_parse : list (string * json) -> list (string * json))
          (qs : list (string * json)),
     exists entries,
       filter_conditions qs_parse qs = Ok (JObj entries) /\
       forall k, In k excludeFields -> ~ In k (Obj.keys entries)) /\
  filter_conditions parsed
    [("page", JStr "2"); ("limit", JStr "10"); ("sort", JStr "-createdAt");
     ("fields", JStr "title"); ("keyword", JStr "x");
     ("category", JStr "photography")] =
    Ok (JObj [("category", JStr "photography")]).
Proof.
  split; [|vm_compute; reflexivity].
  intros qs_parse qs. eexists.
  split; [rewrite filter_conditions_rewrite, rewrite_json_obj; reflexivity|].
  intros k Hk Hin.
  apply keys_rewritten in Hin as [[]|(kv & Hin & Hkv)].
  symmetry in Hkv.
  apply (rewrite_string_no_dollar _ _ (excludeFields_no_dollar k Hk)) in Hkv.
  assert (Hkeys : In k (Obj.keys (fold_left Obj.delete excludeFields
                                            (qs_parse qs)))).
  { rewrite <- Hkv. apply in_map. exact Hin. }
  apply keys_delete_all in Hkeys as [_ Hnot]. exact (Hnot Hk).
Qed.

Lemma reserved_keys_never_in_filters_witness :
  exists entries,
    filter_conditions parsed
      [("page", JStr "2"); ("price", JObj [("gte", JStr "10")])]
      = Ok (JObj entries) /\
    ~ In "page" (Obj.keys entries).
Proof.
  destruct (proj1 reserved_keys_never_in_filters parsed
              [("page", JStr "2"); ("price", JObj [("gte", JStr "10")])])
    as (entries & H & Hk).
  exists entries. split; [exact H|]. apply Hk. left. reflexivity.
Defined.

(** ** Operators in nested parameters *)

Lemma tokens_operator_tokens : tokens = map chars operator_tokens.
Proof. reflexivity. Qed.

Lemma rewrite_operator_token (op : string) :
  In op operator_tokens -> rewrite_string op = String dollar op.
Proof.
  unfold operator_tokens. cbn [In].
  intros [<-|[<-|[<-|[<-|[<-|[]]]]]]; reflexivity.
Qed.

Lemma rewrite_entries_fresh (entries acc : list (string * json)) :
  NoDup (Obj.keys acc ++ map (fun kv => rewrite_string (fst kv)) entries) ->
  fold_left rewrite_entry entries acc =
    acc ++ map (fun kv => (rewrite_string (fst kv), rewrite_json (snd kv)))
               entries.
Proof.
  revert acc. induction entries as [|kv l IH]; intros acc H.
  - symmetry. apply app_nil_r.
  - cbn [fold_left map]. unfold rewrite_entry at 2.
    rewrite set_fresh.
    + rewrite IH; [rewrite <- app_assoc; reflexivity|].
      unfold Obj.keys. rewrite map_app. cbn [map fst].
      rewrite <- app_assoc. exact H.
    + cbn [map] in H. apply NoDup_remove_2 in H. intros Hin. apply H.
      apply in_or_app. left. exact Hin.
Qed.

Lemma delete_other {V : Type} (k field : string) (v : V) :
  field <> k -> Obj.delete [(field, v)] k = [(field, v)].
Proof.
  intros H. unfold Obj.delete. cbn [List.filter fst].
  apply String.eqb_neq in H. rewrite H. reflexivity.
Qed.

Lemma delete_all_other {V : Type} (ks : list string) (field : string) (v : V) :
  ~ In field ks -> fold_left Obj.delete ks [(field, v)] = [(field, v)].
Proof.
  induction ks as [|k ks IH]; intros H; [reflexivity|].
  cbn [fold_left]. rewrite delete_other; [apply IH|]; intros Hin; apply H;
    [right; exact Hin|left; symmetry; exact Hin].
Qed.

Lemma map_dollar_NoDup (ops : list (string * string)) :
  NoDup (map fst ops) -> NoDup (map (fun kv => String dollar (fst kv)) ops).
Proof.
  induction ops as [|kv l IH]; cbn [map]; intros H; [constructor|].
  inversion H as [|? ? Hnot Hl]; subst. constructor; [|apply IH; exact Hl].
  intros Hin. apply Hnot. apply in_map_iff in Hin as (kv' & Heq & Hin).
  injection Heq as Heq. rewrite <- Heq. apply in_map. exact Hin.
Qed.

(** C6, as amended. In a parameter that [qs.parse] keeps and whose value
    is a nested mapping, each operator name among gt, gte, lt, lte, in
    becomes the operator of the store with that name ($gt, $gte, $lt,
    $lte, $in): the object handed to the store is the object that
    [qs.parse] returned, without the reserved keys and with every key and
    string rewritten, and each of the five names is rewritten to itself
    after a dollar. The parameters price[gte]=10&price[lte]=50 give the
    filter price: { $gte: 10, $lte: 50 }, which holds of a price exactly
    when 10 <= price <= 50 and selects the uploads priced 10, 30 and 50
    among those priced 5, 10, 30, 50 and 60. *)
Theorem nested_operators_translate :
  (forall (qs_parse : list (string * json) -> list (string * json))
          (qs : list (string * json)),
     filter_conditions qs_parse qs =
       Ok (rewrite_json
             (JObj (fold_left Obj.delete excludeFields (qs_parse qs))))) /\
  (forall op : string,
     In op operator_tokens -> rewrite_string op = String dollar op) /\
  (forall (qs_parse : list (string * json) -> list (string * json))
          (qs : list (string * json))
          (field : string) (ops : list (string * string)),
     qs_parse qs =
       [(field, JObj (map (fun kv => (fst kv, JStr (snd kv))) ops))] ->
     ~ In field excludeFields ->
     (forall kv, In kv ops -> In (fst kv) operator_tokens) ->
     NoDup (map fst ops) ->
     filter_conditions qs_parse qs =
       Ok (JObj [(rewrite_string field,
                  JObj (map (fun kv => (String dollar (fst kv),
                                        JStr (rewrite_string (snd kv))))
                            ops))])) /\
  filter_conditions parsed price_range = Ok price_range_condition /\
  (forall (title : string) (price : Z),
     Fixture.matches_record (cond_of_json price_range_condition)
                            (priced title price) =
       (10 <=? price) && (price <=? 50)) /\
  (exists calls pagination,
     getAll parsed uploads (mkRequest price_range None) =
       (calls,
        Ok (Listed 200 3 pagination
                   [priced "b" 10; priced "c" 30; priced "d" 50]))).
Proof.
  split; [exact filter_conditions_rewrite|].
  split; [exact rewrite_operator_token|].
  split; [|split; [|split]].
  - intros qs_parse qs field ops Hparsed Hfield Hops Hnodup.
    rewrite filter_conditions_rewrite, Hparsed.
    rewrite delete_all_other by exact Hfield.
    rewrite rewrite_json_obj. cbn [fold_left]. unfold rewrite_entry at 1.
    cbn [Obj.set fst snd]. rewrite rewrite_json_obj.
    rewrite rewrite_entries_fresh.
    + cbn [app]. rewrite map_map. cbn [fst snd]. do 5 f_equal.
      apply map_ext_in. intros kv Hkv.
      rewrite (rewrite_operator_token _ (Hops kv Hkv)). reflexivity.
    + cbn [Obj.keys map app]. rewrite map_map. cbn [fst].
      rewrite (map_ext_in _ (fun kv => String dollar (fst kv))).
      * apply map_dollar_NoDup. exact Hnodup.
      * intros kv Hkv. apply rewrite_operator_token. exact (Hops kv Hkv).
  - vm_compute. reflexivity.
  - intros title price. unfold price_range_condition, priced.
    cbn. destruct (Z.compare_spec price 10), (Z.compare_spec price 50);
      cbn; lia.
  - do 2 eexists. vm_compute. reflexivity.
Qed.

Lemma nested_operators_translate_witness :
  filter_conditions parsed
    [("price",
      JObj (map (fun kv => (fst kv, JStr (snd kv)))
                [("gte", "10"); ("lte", "50")]))] =
    Ok (JObj [(rewrite_string "price",
               JObj (map (fun kv => (String dollar (fst kv),
                                     JStr (rewrite_string (snd kv))))
                         [("gte", "10"); ("lte", "50")]))]).
Proof.
  apply (proj1 (proj2 (proj2 nested_operators_translate)) parsed
           [("price",
             JObj (map (fun kv => (fst kv, JStr (snd kv)))
                       [("gte", "10"); ("lte", "50")]))]
           "price" [("gte", "10"); ("lte", "50")]).
  - reflexivity.
  - cbn. intuition discriminate.
  - intros kv [<-|[<-|[]]]; cbn; auto.
  - repeat constructor; cbn; intuition discriminate.
Defined.

(** C6 as stated fails for a parameter that [qs.parse] leaves out:
    toString[gte]=10 reaches the handler as a nested mapping, [qs.parse]
    drops the key because it names a property of Object.prototype, and
    the store receives the empty condition. *)
Lemma nested_operators_counterexample :
  ~ In "toString" excludeFields /\
  In "gte" operator_tokens /\
  filter_conditions parsed [("toString", JObj [("gte", JStr "10")])] =
    Ok (JObj []).
Proof.
  split; [cbn; intuition discriminate|].
  split; [cbn; auto|]. vm_compute. reflexivity.
Qed.

(** ** Operator words inside names and values *)

Lemma chars_append (a b : string) : chars (a ++ b)%string = chars a ++ chars b.
Proof.
  unfold chars. induction a as [|c a IH]; [reflexivity|].
  cbn [String.append list_ascii_of_string app]. rewrite IH. reflexivity.
Qed.

Lemma text_app (a b : list ascii) : text (a ++ b) = (text a ++ text b)%string.
Proof.
  unfold text. induction a as [|c a IH]; [reflexivity|].
  cbn [app string_of_list_ascii String.append]. rewrite IH. reflexivity.
Qed.

Lemma text_chars (s : string) : text (chars s) = s.
Proof. apply string_of_list_ascii_of_string. Qed.

Lemma rewrite_from_split (a b : list ascii) (c : ascii) (p : bool) :
  is_word c = false ->
  rewrite_from p (a ++ c :: b) =
    rewrite_from p a ++ c :: rewrite_from (ends_word c) b.
Proof.
  intros Hc. revert p. induction a as [|x a IH]; intros p.
  - cbn [app rewrite_from]. rewrite matched_nonword by exact Hc. reflexivity.
  - change ((x :: a) ++ c :: b) with (x :: (a ++ c :: b)) at 1.
    cbn [rewrite_from].
    change (x :: a ++ c :: b) with ((x :: a) ++ c :: b).
    rewrite matched_before_nonword by exact Hc.
    rewrite IH, <- !app_assoc. reflexivity.
Qed.

Lemma rewrite_from_word_prefix (u t : list ascii) :
  wordy u -> rewrite_from true (u ++ t) = u ++ rewrite_from true t.
Proof.
  induction 1 as [|c u Hc _ IH]; [reflexivity|].
  cbn [app rewrite_from]. rewrite matched_after_word.
  unfold ends_word. rewrite Hc. cbn [orb app]. rewrite IH. reflexivity.
Qed.

Lemma token_here_self (w b : list ascii) :
  token_here w (w ++ b) = token_here [] b.
Proof.
  induction w as [|c w IH]; [reflexivity|].
  cbn [app token_here]. rewrite Ascii.eqb_refl. exact IH.
Qed.

Lemma rewrite_from_clear (b : list ascii) (p : bool) :
  token_here [] b = true -> rewrite_from p b = rewrite_from false b.
Proof.
  destruct b as [|c b]; [reflexivity|]. cbn [token_here]. intros Hc.
  apply negb_true_iff in Hc. cbn [rewrite_from].
  rewrite !matched_nonword by exact Hc. reflexivity.
Qed.

Lemma rewrite_token (w b : list ascii) :
  In w tokens -> token_here [] b = true ->
  rewrite_from false (w ++ b) = dollar :: w ++ rewrite_from false b.
Proof.
  intros Hw Hb. destruct (token_in_tokens w Hw) as [Hword Hne].
  destruct w as [|c w]; [contradiction|].
  inversion Hword as [|? ? Hc Hword']; subst.
  assert (Hm : matched false ((c :: w) ++ b) = true).
  { unfold matched. apply andb_true_iff. split.
    - unfold boundary. cbn [app]. rewrite Hc. reflexivity.
    - apply existsb_exists. exists (c :: w). split; [exact Hw|].
      rewrite token_here_self. exact Hb. }
  cbn [app rewrite_from] in *. rewrite Hm. unfold ends_word. rewrite Hc.
  cbn [orb app]. rewrite rewrite_from_word_prefix by exact Hword'.
  rewrite (rewrite_from_clear b true Hb). reflexivity.
Qed.

Lemma rewrite_around_token (a w b : list ascii) :
  In w tokens ->
  match rev a with [] => true | c :: _ => negb (ends_word c) end = true ->
  token_here [] b = true ->
  rewrite_from false (a ++ w ++ b) =
    rewrite_from false a ++ dollar :: w ++ rewrite_from false b.
Proof.
  intros Hw Ha Hb.
  destruct (rev a) as [|c ra] eqn:Hrev.
  - apply (f_equal (@rev ascii)) in Hrev. rewrite rev_involutive in Hrev.
    subst a. cbn [rev app]. apply rewrite_token; assumption.
  - apply (f_equal (@rev ascii)) in Hrev. rewrite rev_involutive in Hrev.
    subst a. cbn [rev]. apply negb_true_iff in Ha.
    assert (Hc : is_word c = false).
    { unfold ends_word in Ha. apply orb_false_iff in Ha. apply Ha. }
    rewrite <- app_assoc. cbn [app].
    rewrite rewrite_from_split by exact Hc.
    rewrite (rewrite_from_split (rev ra) [] c false Hc).
    rewrite Ha, rewrite_token by assumption.
    cbn [rewrite_from]. rewrite <- app_assoc. reflexivity.
Qed.

(** C10, as amended. [filter] rewrites the JSON serialisation of the whole
    parameter object, so every field name and every string value, at any
    depth, goes through the operator regex: an occurrence of gt, gte, lt,
    lte or in gets a $ prefix when what follows it is the end or a
    non-word character and what precedes it is the start or a character
    that is neither a word character nor a control character; the
    equality filter status = in thus becomes status = $in. *)
Theorem filter_rewrites_names_and_values :
  (forall (qs_parse : list (string * json) -> list (string * json))
          (qs : list (string * json)),
     filter_conditions qs_parse qs =
       Ok (rewrite_json
             (JObj (fold_left Obj.delete excludeFields (qs_parse qs))))) /\
  (forall a w b : string,
     In w operator_tokens ->
     clear_before a = true ->
     clear_after b = true ->
     rewrite_string (a ++ w ++ b) =
       (rewrite_string a ++ String dollar w ++ rewrite_string b)%string) /\
  filter_conditions parsed [("status", JStr "in")] =
    Ok (JObj [("status", JStr "$in")]).
Proof.
  split; [exact filter_conditions_rewrite|]. split; [|vm_compute; reflexivity].
  intros a w b Hw Ha Hb. unfold rewrite_string.
  rewrite !chars_append.
  rewrite rewrite_around_token.
  - rewrite text_app. f_equal.
    change (dollar :: chars w ++ rewrite_from false (chars b))
      with ((dollar :: chars w) ++ rewrite_from false (chars b)).
    rewrite text_app. f_equal. unfold text. cbn [string_of_list_ascii].
    f_equal. apply text_chars.
  - rewrite tokens_operator_tokens. apply in_map. exact Hw.
  - exact Ha.
  - exact Hb.
Qed.

Lemma filter_rewrites_names_and_values_witness :
  rewrite_string ("price." ++ "gt" ++ " now") =
    (rewrite_string "price." ++ String dollar "gt" ++ rewrite_string " now")%string.
Proof.
  apply (proj1 (proj2 filter_rewrites_names_and_values) "price." "gt" " now").
  - cbn. auto.
  - reflexivity.
  - reflexivity.
Defined.

(** C10 as stated fails after a control character: in the value made of a
    tab and the word in, the word stands alone and is left as it is. *)
Lemma control_character_counterexample :
  filter_conditions parsed [("status", JStr (String (ch 9) "in"))] =
    Ok (JObj [("status", JStr (String (ch 9) "in"))]) /\
  is_word (ch 9) = false /\
  rewrite_string "in" = "$in".
Proof. split; [vm_compute; reflexivity|]. split; reflexivity. Qed.

(** ** More on the filter rewriting *)

Lemma rewrite_from_without_dollars (s : list ascii) (p : bool) :
  List.filter (fun c => negb (Ascii.eqb c dollar)) (rewrite_from p s) =
  List.filter (fun c => negb (Ascii.eqb c dollar)) s.
Proof.
  revert p. induction s as [|c s IH]; intros p; [reflexivity|].
  cbn [rewrite_from]. rewrite filter_app. cbn [List.filter].
  rewrite IH. destruct (matched p (c :: s)); reflexivity.
Qed.

Lemma chars_text (l : list ascii) : chars (text l) = l.
Proof. apply list_ascii_of_string_of_list_ascii. Qed.

Lemma rewrite_string_without_dollars (s : string) :
  without_dollars (rewrite_string s) = without_dollars s.
Proof.
  unfold without_dollars, rewrite_string. rewrite chars_text.
  apply rewrite_from_without_dollars.
Qed.

Lemma rewrite_from_length (s : list ascii) (p : bool) :
  (List.length s <= List.length (rewrite_from p s))%nat.
Proof.
  revert p. induction s as [|c s IH]; intros p; [apply Nat.le_refl|].
  cbn [rewrite_from]. rewrite length_app. cbn [List.length].
  specialize (IH (ends_word c)). lia.
Qed.

Lemma single_parameter
    (qs_parse : list (string * json) -> list (string * json))
    (query : list (string * json)) (field : string) (v : json) :
  qs_parse query = [(field, v)] ->
  ~ In field excludeFields ->
  filter_conditions qs_parse query =
    Ok (JObj [(rewrite_string field, rewrite_json v)]).
Proof.
  intros Hparsed Hfield. rewrite filter_conditions_rewrite, Hparsed.
  rewrite delete_all_other by exact Hfield. reflexivity.
Qed.

(** X1. The rewriting of [filter] only adds dollars: when [qs.parse]
    returns one parameter that is a string and not a reserved key, the
    name and the value handed to the store are the name and the value it
    returned, up to dollars, and never shorter. *)
Theorem filter_only_inserts_dollars
    (qs_parse : list (string * json) -> list (string * json))
    (query : list (string * json)) (field value : string) :
  qs_parse query = [(field, JStr value)] ->
  ~ In field excludeFields ->
  exists field' value',
    filter_conditions qs_parse query =
      Ok (JObj [(field', JStr value')]) /\
    without_dollars field' = without_dollars field /\
    without_dollars value' = without_dollars value /\
    (String.length field <= String.length field')%nat /\
    (String.length value <= String.length value')%nat.
Proof.
  intros Hparsed Hfield.
  exists (rewrite_string field), (rewrite_string value).
  split;
    [apply (single_parameter qs_parse query field (JStr value) Hparsed Hfield)|].
  split; [apply rewrite_string_without_dollars|].
  split; [apply rewrite_string_without_dollars|].
  assert (Hlen : forall s, (String.length s <= String.length (rewrite_string s))%nat).
  { intros s. unfold rewrite_string.
    assert (Hl : forall t, String.length t = List.length (chars t)).
    { induction t as [|c t IHt]; [reflexivity|]. cbn. rewrite IHt. reflexivity. }
    rewrite !Hl, chars_text. apply rewrite_from_length. }
  split; apply Hlen.
Qed.

Lemma filter_only_inserts_dollars_witness :
  exists field' value',
    filter_conditions parsed [("in", JStr "a$b in")] =
      Ok (JObj [(field', JStr value')]) /\
    without_dollars field' = without_dollars "in" /\
    without_dollars value' = without_dollars "a$b in" /\
    (String.length "in" <= String.length field')%nat /\
    (String.length "a$b in" <= String.length value')%nat.
Proof.
  apply (filter_only_inserts_dollars parsed [("in", JStr "a$b in")]
           "in" "a$b in").
  - reflexivity.
  - cbn. intuition discriminate.
Defined.

(** A string of word characters matches the regex at its start exactly
    when it is an operator name. *)
Lemma token_here_word (w s : list ascii) :
  forallb is_word s = true -> token_here w s = true -> s = w.
Proof.
  intros Hs H. apply token_here_split in H as (t & -> & Ht).
  destruct t as [|c t]; [apply app_nil_r|].
  rewrite forallb_app in Hs. apply andb_true_iff in Hs as [_ Hs].
  cbn [forallb token_here] in *. apply andb_true_iff in Hs as [Hc _].
  rewrite Hc in Ht. discriminate.
Qed.

Lemma rewrite_from_word (s : list ascii) :
  forallb is_word s = true -> rewrite_from true s = s.
Proof.
  induction s as [|c s IH]; [reflexivity|]. cbn [forallb rewrite_from].
  intros H. apply andb_true_iff in H as [Hc Hs].
  rewrite matched_after_word. unfold ends_word. rewrite Hc. cbn [orb app].
  rewrite IH by exact Hs. reflexivity.
Qed.

Lemma is_operator_tokens (s : string) :
  is_operator s = true <-> In (chars s) tokens.
Proof.
  unfold is_operator. rewrite tokens_operator_tokens, existsb_exists.
  split.
  - intros (w & Hw & Heq). apply String.eqb_eq in Heq. subst w.
    apply in_map. exact Hw.
  - intros H. apply in_map_iff in H as (w & Heq & Hw). exists w.
    split; [exact Hw|]. apply String.eqb_eq.
    rewrite <- (text_chars s), <- (text_chars w), Heq. reflexivity.
Qed.

Lemma rewrite_one_word (s : string) :
  one_word s = true ->
  rewrite_string s = if is_operator s then String dollar s else s.
Proof.
  unfold one_word, rewrite_string. intros Hs.
  destruct (chars s) as [|c l] eqn:Hchars.
  - assert (s = "") as -> by (rewrite <- (text_chars s), Hchars; reflexivity).
    reflexivity.
  - cbn [rewrite_from]. cbn [forallb] in Hs.
    apply andb_true_iff in Hs as [Hc Hl].
    unfold ends_word. rewrite Hc. cbn [orb].
    rewrite (rewrite_from_word l Hl).
    destruct (is_operator s) eqn:Hop.
    + apply is_operator_tokens in Hop. rewrite Hchars in Hop.
      assert (Hm : matched false (c :: l) = true).
      { unfold matched, boundary. rewrite Hc. cbn [xorb andb].
        apply existsb_exists. exists (c :: l). split; [exact Hop|].
        rewrite <- (app_nil_r (c :: l)) at 2. apply token_here_self. }
      rewrite Hm. cbn [app]. rewrite <- Hchars.
      unfold text. cbn [string_of_list_ascii]. f_equal. apply text_chars.
    + assert (Hm : matched false (c :: l) = false).
      { unfold matched. rewrite existsb_false_in; [apply andb_false_r|].
        intros w Hw. destruct (token_here w (c :: l)) eqn:Ht; [|reflexivity].
        apply token_here_word in Ht;
          [|cbn [forallb]; rewrite Hc, Hl; reflexivity].
        rewrite <- Ht, <- Hchars in Hw.
        apply is_operator_tokens in Hw. congruence. }
      rewrite Hm. cbn [app]. rewrite <- Hchars. apply text_chars.
Qed.

(** X2. When [qs.parse] returns one parameter whose name and value are
    single words, the name, and likewise the value, is changed exactly
    when it is one of gt, gte, lt, lte, in, and then gets a dollar in
    front. *)
Theorem filter_rewrites_single_words
    (qs_parse : list (string * json) -> list (string * json))
    (query : list (string * json)) (field value : string) :
  qs_parse query = [(field, JStr value)] ->
  ~ In field excludeFields ->
  one_word field = true ->
  one_word value = true ->
  filter_conditions qs_parse query =
    Ok (JObj [(if is_operator field then String dollar field else field,
               JStr (if is_operator value then String dollar value
                     else value))]).
Proof.
  intros Hparsed Hfield Hf Hv.
  rewrite (single_parameter qs_parse query field _ Hparsed Hfield).
  unfold JStr. cbn [rewrite_json]. rewrite (rewrite_one_word field Hf).
  rewrite (rewrite_one_word value Hv). reflexivity.
Qed.

Lemma filter_rewrites_single_words_witness :
  filter_conditions parsed [("category", JStr "lt")] =
    Ok (JObj [(if is_operator "category" then String dollar "category"
               else "category",
               JStr (if is_operator "lt" then String dollar "lt" else "lt"))]).
Proof.
  apply (filter_rewrites_single_words parsed [("category", JStr "lt")]
           "category" "lt").
  - reflexivity.
  - cbn. intuition discriminate.
  - reflexivity.
  - reflexivity.
Defined.

(** ** More on paginate and getAll *)

(** X3. When the page and the limit of the request are read as whole
    numbers, for a count >= 0 and a limit >= 1, [paginate] gives a
    nextPage, the page after the current one, exactly when the current
    page is below numberOfPages. *)
Theorem paginate_next_below_last
    (this : ApiFeatures) (totalCount : Z) (p l : jsnum) (page limit : Z) :
  Number (Obj.get (queryString this) "page") = Some p ->
  Number (Obj.get (queryString this) "limit") = Some l ->
  num_or p 1 = Num page ->
  num_or l 25 = Num limit ->
  0 <= totalCount ->
  1 <= limit ->
  exists this' r n,
    paginate totalCount this = Ok this' /\
    paginationResults this' = Some r /\
    Pagination.currentPage r = Num page /\
    Pagination.numberOfPages r = Num n /\
    (Pagination.nextPage r = Some (Num (page + 1)) <-> page < n) /\
    (Pagination.nextPage r = None <-> n <= page).
Proof.
  intros Hp Hl Hpage Hlimit Hc Hlim.
  eexists. eexists. exists (ceil_div totalCount limit).
  split; [apply (paginate_unfold this totalCount p l Hp Hl)|].
  cbv zeta. split; [reflexivity|].
  cbn [Pagination.currentPage Pagination.numberOfPages Pagination.nextPage].
  rewrite Hpage, Hlimit. cbn [pages num_mul num_lt num_add].
  split; [reflexivity|]. split; [reflexivity|].
  pose proof (ceil_div_is_ceiling totalCount limit ltac:(lia)) as Hceil.
  unfold is_ceiling in Hceil. set (n := ceil_div totalCount limit) in *.
  destruct (Z.ltb_spec (page * limit) totalCount) as [Hlt|Hge].
  - assert (page < n) by nia. split; split; intros; try discriminate;
      try reflexivity; lia.
  - assert (n <= page) by nia. split; split; intros; try discriminate;
      try reflexivity; lia.
Qed.

Lemma paginate_next_below_last_witness :
  exists this' r n,
    paginate 45 (features_of [("page", JStr "2"); ("limit", JStr "20")])
      = Ok this' /\
    paginationResults this' = Some r /\
    Pagination.currentPage r = Num 2 /\
    Pagination.numberOfPages r = Num n /\
    (Pagination.nextPage r = Some (Num (2 + 1)) <-> 2 < n) /\
    (Pagination.nextPage r = None <-> n <= 2).
Proof.
  apply (paginate_next_below_last
           (features_of [("page", JStr "2"); ("limit", JStr "20")])
           45 (Num 2) (Num 20) 2 20).
  - reflexivity.
  - reflexivity.
  - reflexivity.
  - reflexivity.
  - lia.
  - lia.
Defined.

Lemma string_argument_textual (param : option json) (default : string) :
  textual param = true -> exists s, string_argument param default = Ok s.
Proof.
  unfold string_argument.
  destruct param as [[s|items|entries]|]; try discriminate; intros _.
  - cbn. destruct (negb _); eexists; reflexivity.
  - eexists. reflexivity.
Qed.

Lemma string_argument_not_textual (param : option json) (default : string) :
  textual param = false -> string_argument param default = Err TypeError.
Proof.
  unfold string_argument.
  destruct param as [[s|items|entries]|]; try discriminate; reflexivity.
Qed.

Lemma string_argument_cases (param : option json) (default : string) :
  (exists s, string_argument param default = Ok s) \/
  string_argument param default = Err TypeError.
Proof.
  unfold string_argument.
  destruct param as [[s|items|entries]|]; [|right; reflexivity..|].
  - left. cbn. destruct (negb _); eexists; reflexivity.
  - left. eexists. reflexivity.
Qed.

(** The builder chain, step by step. *)
Lemma build_query_steps qs_parse name filterObj query count :
  build_query qs_parse name filterObj query count =
    do fields <- string_argument (Obj.get query "fields") "-__v";
    do sortBy <- string_argument (Obj.get query "sort") "-createdAt";
    do p <- in_model (Number (Obj.get query "page"));
    do l <- in_model (Number (Obj.get query "limit"));
    Ok (assembled
          (filterObj :: keyword_condition name query ++
             [cond_of_json
                (rewrite_json
                   (JObj (fold_left Obj.delete excludeFields
                                    (qs_parse query))))])
          fields sortBy p l count query).
Proof.
  rewrite build_query_eq, filter_conditions_rewrite. reflexivity.
Qed.

Section GetAllFacts.
Context {doc : Type} {store : Store doc}.
Variable qs_parse : list (string * json) -> list (string * json).

(** X4. When sort and fields are absent or strings and page and limit
    read as numbers, [getAll] counts, then sends one find whose skip and
    limit are the ones computed from the page and limit it read; and when
    the store answers that find, the answer is a 200 listing that reports
    this page and this limit. *)
Theorem getAll_counts_then_finds (M : Model doc) (req : Request) (p l : jsnum) :
  textual (Obj.get (req_query req) "sort") = true ->
  textual (Obj.get (req_query req) "fields") = true ->
  Number (Obj.get (req_query req) "page") = Some p ->
  Number (Obj.get (req_query req) "limit") = Some l ->
  exists q,
    fst (getAll qs_parse M req) =
      [CountCall (modelName M) None; FindCall (modelName M) q] /\
    q_skip q = Some (num_mul (num_sub (num_or p 1) (Num 1)) (num_or l 25)) /\
    q_limit q = Some (num_or l 25) /\
    forall answer,
      snd (getAll qs_parse M req) = Ok answer ->
      exists r data,
        answer = Listed 200 (Z.of_nat (List.length data)) (Some r) data /\
        exec q (documents M) = Ok data /\
        Pagination.currentPage r = num_or p 1 /\
        Pagination.limit r = num_or l 25.
Proof.
  intros Hsort Hfields Hp Hl.
  rewrite getAll_unfold, build_query_steps.
  destruct (string_argument_textual _ "-__v" Hfields) as (fields & ->).
  destruct (string_argument_textual _ "-createdAt" Hsort) as (sortBy & ->).
  rewrite Hp, Hl. cbn [bind in_model fst snd].
  eexists. split; [reflexivity|]. split; [reflexivity|].
  split; [reflexivity|].
  intros answer. destruct (exec _ _) as [data|e]; [|discriminate].
  intros [= <-]. do 2 eexists. repeat split.
Qed.


(** X6. When sort or fields is an array or an object, [getAll] ends in a
    TypeError after the count: no find is sent to the store. *)
Theorem getAll_type_error (M : Model doc) (req : Request) :
  textual (Obj.get (req_query req) "sort") = false \/
  textual (Obj.get (req_query req) "fields") = false ->
  getAll qs_parse M req = ([CountCall (modelName M) None], Err TypeError).
Proof.
  intros H. rewrite getAll_unfold, build_query_steps.
  destruct H as [H|H].
  - rewrite (string_argument_not_textual _ "-createdAt" H).
    destruct (string_argument_cases (Obj.get (req_query req) "fields") "-__v")
      as [(fields & ->)| ->]; reflexivity.
  - rewrite (string_argument_not_textual _ "-__v" H). reflexivity.
Qed.

(** X7. A request that names no keyword, sort, fields, page or limit is
    listed newest first with the collation of the listing, without the
    version key, from the first document on and 25 at most; the
    conditions are the base filter and the rewritten parameters. *)
Theorem getAll_default_listing
    (name : string) (filterObj : cond) (query : list (string * json))
    (count : Z) :
  Obj.get query "keyword" = None ->
  Obj.get query "sort" = None ->
  Obj.get query "fields" = None ->
  Obj.get query "page" = None ->
  Obj.get query "limit" = None ->
  exists a,
    build_query qs_parse name filterObj query count = Ok a /\
    q_conditions (mongooseQuery a) =
      [filterObj;
       cond_of_json
         (rewrite_json
            (JObj (fold_left Obj.delete excludeFields (qs_parse query))))] /\
    q_sort (mongooseQuery a) = Some (CStr "-createdAt") /\
    q_collation (mongooseQuery a) = Some en_strength2 /\
    q_select (mongooseQuery a) = ["-__v"] /\
    q_skip (mongooseQuery a) = Some (Num 0) /\
    q_limit (mongooseQuery a) = Some (Num 25) /\
    paginationResults a =
      Some (Pagination.mk (Num 1) (Num 25) (Num (ceil_div count 25))
              (if 25 <? count then Some (Num 2) else None) None).
Proof.
  intros Hk Hs Hf Hp Hl. rewrite build_query_steps.
  unfold keyword_condition. rewrite Hk, Hs, Hf, Hp, Hl.
  eexists. split; [reflexivity|]. repeat split.
Qed.
End GetAllFacts.

Lemma getAll_counts_then_finds_witness :
  exists q,
    fst (getAll parsed uploads priced_request) =
      [CountCall "Upload" None; FindCall "Upload" q] /\
    q_skip q = Some (num_mul (num_sub (num_or NaN 1) (Num 1))
                             (num_or (Num 2) 25)) /\
    q_limit q = Some (num_or (Num 2) 25) /\
    forall answer,
      snd (getAll parsed uploads priced_request) = Ok answer ->
      exists r data,
        answer = Listed 200 (Z.of_nat (List.length data)) (Some r) data /\
        exec q (documents uploads) = Ok data /\
        Pagination.currentPage r = num_or NaN 1 /\
        Pagination.limit r = num_or (Num 2) 25.
Proof.
  apply (getAll_counts_then_finds parsed uploads priced_request NaN (Num 2)).
  - reflexivity.
  - reflexivity.
  - reflexivity.
  - reflexivity.
Defined.


Lemma getAll_type_error_witness :
  getAll parsed uploads twice_sorted_request =
    ([CountCall "Upload" None], Err TypeError).
Proof.
  apply (getAll_type_error parsed uploads twice_sorted_request).
  left. reflexivity.
Defined.

Lemma getAll_default_listing_witness :
  exists a,
    build_query parsed "Upload" (JObj []) [("category", JStr "nature")] 60
      = Ok a /\
    q_conditions (mongooseQuery a) =
      [JObj [];
       cond_of_json
         (rewrite_json
            (JObj (fold_left Obj.delete excludeFields
                     (parsed [("category", JStr "nature")]))))] /\
    q_sort (mongooseQuery a) = Some (CStr "-createdAt") /\
    q_collation (mongooseQuery a) = Some en_strength2 /\
    q_select (mongooseQuery a) = ["-__v"] /\
    q_skip (mongooseQuery a) = Some (Num 0) /\
    q_limit (mongooseQuery a) = Some (Num 25) /\
    paginationResults a =
      Some (Pagination.mk (Num 1) (Num 25) (Num (ceil_div 60 25))
              (if 25 <? 60 then Some (Num 2) else None) None).
Proof.
  apply (getAll_default_listing parsed "Upload" (JObj [])
           [("category", JStr "nature")] 60); reflexivity.
Defined.

(** ** The hand-written listings and searches *)

Lemma drop_ws_nil (l : list ascii) :
  drop_ws l = [] <-> forallb is_ws l = true.
Proof.
  induction l as [|c l IH]; cbn [drop_ws forallb].
  - split; reflexivity.
  - destruct (is_ws c); cbn [andb]; [exact IH|].
    split; discriminate.
Qed.

Lemma drop_ws_head (l : list ascii) :
  forallb is_ws (drop_ws l) = true -> drop_ws l = [].
Proof.
  induction l as [|c l IH]; cbn [drop_ws]; [reflexivity|].
  destruct (is_ws c) eqn:Hc; [exact IH|].
  cbn [forallb]. rewrite Hc. discriminate.
Qed.

Lemma forallb_rev {A : Type} (p : A -> bool) (l : list A) :
  forallb p (rev l) = forallb p l.
Proof.
  induction l as [|x l IH]; [reflexivity|].
  cbn [rev forallb]. rewrite forallb_app, IH. cbn [forallb].
  rewrite andb_true_r. apply andb_comm.
Qed.

Lemma text_nil (l : list ascii) : text l = "" <-> l = [].
Proof. destruct l; split; try reflexivity; discriminate. Qed.

Lemma rev_nil_iff {A : Type} (l : list A) : rev l = [] <-> l = [].
Proof.
  split; [|intros ->; reflexivity].
  intros H. apply (f_equal (@rev A)) in H. rewrite rev_involutive in H.
  exact H.
Qed.

(** [trim] leaves nothing exactly when every character is white space. *)
Lemma trim_blank (s : string) :
  trim s = "" <-> forallb is_ws (chars s) = true.
Proof.
  unfold trim, trim_chars. rewrite text_nil, rev_nil_iff, drop_ws_nil.
  rewrite forallb_rev. split.
  - intros H. apply drop_ws_nil, drop_ws_head, H.
  - intros H. apply drop_ws_nil in H. rewrite H. reflexivity.
Qed.

Section Listings.
Context {doc : Type} {store : Store doc}.

Lemma hbind_pure {A B : Type} (r : res A) (k : A -> handled B) :
  hbind (pure r) k = match r with Ok a => k a | Err e => ([], Err e) end.
Proof.
  unfold hbind, pure. destruct r as [a|e]; [|reflexivity].
  destruct (k a). reflexivity.
Qed.

(** X8. The factory search answers 400 without a store call exactly when
    the keyword is absent or made of white space only. *)
Theorem searchDocuments_refuses_blank_only (M : Model doc)
    (searchFields : list string) (populateOptions : option cond)
    (req : Request) :
  searchDocuments M searchFields populateOptions req =
    ([], Ok (Failed 400 "Search query is required")) <->
  (Obj.get (req_query req) "q" = None \/
   exists s, Obj.get (req_query req) "q" = Some (JLeaf s) /\
             forallb is_ws (chars s) = true).
Proof.
  split.
  - unfold searchDocuments.
    destruct (Obj.get (req_query req) "q") as [[s|items|entries]|];
      [|discriminate..|left; reflexivity].
    intros H. right. exists s. split; [reflexivity|]. apply trim_blank.
    rewrite truthy_string in H.
    destruct (String.eqb s "") eqn:Hs.
    + apply String.eqb_eq in Hs. subst s. reflexivity.
    + cbn [negb] in H.
      destruct (String.eqb (trim s) "") eqn:Ht;
        [apply String.eqb_eq; exact Ht|].
      exfalso. revert H. rewrite !hbind_pure.
      repeat (match goal with
              | |- context [in_model ?o] => destruct (in_model o)
              end; [rewrite ?hbind_pure|discriminate]).
      unfold hbind, both, run_find, run_count, respond.
      cbn [fst snd]. unfold pure.
      destruct (exec _ _); [destruct (countDocuments M _)|]; discriminate.
  - intros [H|(s & H & Hs)]; apply searchDocuments_rejects_blank.
    + left. exact H.
    + right. exists s. split; [exact H|]. apply trim_blank. exact Hs.
Qed.

Lemma exec_page_window (page limit : Z) (q : Query) (docs : list doc) :
  limit <> 0 ->
  exec (page_window page limit q) docs =
    do matching <- selected q docs;
    if (page - 1) * limit <? 0 then Err StoreError
    else Ok (map (shape (q_projection q) (q_select q) (q_populate q))
               (firstn (Z.to_nat (Z.abs limit))
                  (skipn (Z.to_nat ((page - 1) * limit))
                     (ordered q matching)))).
Proof.
  intros Hl. unfold exec, window, page_window.
  cbn [MQuery.skip MQuery.limit q_skip q_limit q_projection q_select
       q_populate].
  change (selected (MQuery.skip _ (MQuery.limit _ q)) docs)
    with (selected q docs).
  destruct (selected q docs) as [matching|]; [|reflexivity]. cbn [bind].
  change (ordered (MQuery.skip _ (MQuery.limit _ q)) matching)
    with (ordered q matching).
  destruct ((page - 1) * limit <? 0); [reflexivity|].
  cbn [bind]. replace (limit * 1) with limit by lia.
  destruct limit; [contradiction|reflexivity..].
Qed.

Lemma parseInt_or_nonzero (x : option json) (d n : Z) :
  d <> 0 -> parseInt_or x d = Ok n -> n <> 0.
Proof.
  unfold parseInt_or. intros Hd.
  destruct (parseInt x) as [n'|]; cbn [in_model bind]; try discriminate.
  destruct (num_or n' d) as [z| |?] eqn:Hz; try discriminate.
  intros [= <-] ->. exact (num_or_nonzero n' d Hd Hz).
Qed.

(** The length of a page window. *)
Lemma window_length {A : Type} (page limit : Z) (l : list A) :
  1 <= page -> 1 <= limit ->
  Z.of_nat (List.length (firstn (Z.to_nat (Z.abs limit))
                           (skipn (Z.to_nat ((page - 1) * limit)) l))) =
    Z.min limit (Z.max 0 (Z.of_nat (List.length l) - (page - 1) * limit)).
Proof.
  intros Hp Hl. rewrite length_firstn, length_skipn. nia.
Qed.

(** A count under the one condition of a find counts what the find
    selects. *)
Lemma count_of_selected (q : Query) (c : cond) (M : Model doc) :
  q_conditions q = [c] ->
  countDocuments M (Some c) =
    do matching <- selected q (documents M);
    Ok (Z.of_nat (List.length matching)).
Proof.
  intros H. unfold countDocuments, selected. rewrite H.
  destruct (merge_conditions _); reflexivity.
Qed.

Section SortKeepsLength.
Hypothesis sort_length :
  forall coll s (docs : list doc),
    List.length (sort_docs coll s docs) = List.length docs.

Lemma ordered_length (q : Query) (docs : list doc) :
  List.length (ordered q docs) = List.length docs.
Proof.
  unfold ordered. destruct (q_sort q); [apply sort_length|reflexivity].
Qed.

(** X9. In the settings and open-missions listings, for a page and a
    limit of at least 1, the number of documents returned is the part of
    the reported total that falls on the page: limit on a full page, the
    remainder on the last one, none beyond it. *)
Theorem listings_page_length :
  (forall (Settings : Model doc) (req : Request)
          calls status data pg extras message page limit,
     getAllSettings Settings req =
       (calls, Ok (Paged status data pg extras message)) ->
     pi_page pg = Num page -> pi_limit pg = Num limit ->
     1 <= page -> 1 <= limit ->
     Z.of_nat (List.length data) =
       Z.min limit (Z.max 0 (pi_total pg - (page - 1) * limit))) /\
  (forall (Mission : Model doc) (req : Request)
          calls status data pg extras message page limit,
     getOpenMissions Mission req =
       (calls, Ok (Paged status data pg extras message)) ->
     pi_page pg = Num page -> pi_limit pg = Num limit ->
     1 <= page -> 1 <= limit ->
     Z.of_nat (List.length data) =
       Z.min limit (Z.max 0 (pi_total pg - (page - 1) * limit))).
Proof.
  split.
  - intros Settings req calls status data pg extras message page limit.
    unfold getAllSettings, hbind, pure, run_find, run_count, run_distinct,
      respond.
    destruct (parseInt_or _ 1) as [page'|]; [|discriminate].
    destruct (parseInt_or _ 50) as [limit'|] eqn:Hlim; [|discriminate].
    destruct (set_if _ "category" _ _) as [q1|]; [|discriminate].
    destruct (set_if _ "$or" _ _) as [q2|]; [|discriminate].
    rewrite exec_page_window
      by (apply (parseInt_or_nonzero _ 50 _ ltac:(lia) Hlim)).
    match goal with
    | |- context [selected ?q ?docs] =>
        match goal with
        | |- context [countDocuments ?M ?c] =>
            replace (countDocuments M c)
              with (do matching <- selected q docs;
                    Ok (Z.of_nat (List.length matching)))
              by (symmetry; apply count_of_selected; reflexivity)
        end
    end.
    destruct (selected _ _) as [matching|]; [|discriminate]. cbn [bind].
    destruct (_ <? 0); [discriminate|].
    cbn [app]. intros [= <- <- <- <- <- <-].
    cbn [page_info pi_page pi_limit pi_total]. intros [= ->] [= ->] Hp Hl.
    rewrite length_map, window_length, ordered_length by assumption.
    reflexivity.
  - intros Mission req calls status data pg extras message page limit.
    unfold getOpenMissions, hbind, pure, run_find, run_count, respond.
    destruct (parseInt_or _ 1) as [page'|]; [|discriminate].
    destruct (parseInt_or _ 10) as [limit'|] eqn:Hlim; [|discriminate].
    destruct (set_if _ "type" _ _) as [q1|]; [|discriminate].
    destruct (set_if _ "location.city" _ _) as [q2|]; [|discriminate].
    destruct (set_if _ "budget.min" _ _) as [q3|]; [|discriminate].
    destruct (set_if _ "budget.max" _ _) as [q4|]; [|discriminate].
    rewrite exec_page_window
      by (apply (parseInt_or_nonzero _ 10 _ ltac:(lia) Hlim)).
    match goal with
    | |- context [selected ?q ?docs] =>
        match goal with
        | |- context [countDocuments ?M ?c] =>
            replace (countDocuments M c)
              with (do matching <- selected q docs;
                    Ok (Z.of_nat (List.length matching)))
              by (symmetry; apply count_of_selected; reflexivity)
        end
    end.
    destruct (selected _ _) as [matching|]; [|discriminate]. cbn [bind].
    destruct (_ <? 0); [discriminate|].
    cbn [app]. intros [= <- <- <- <- <- <-].
    cbn [page_info pi_page pi_limit pi_total]. intros [= ->] [= ->] Hp Hl.
    rewrite length_map, window_length, ordered_length by assumption.
    reflexivity.
Qed.
End SortKeepsLength.

(** X10. The gallery search reports as total the number of documents on
    the page it returns: the total never exceeds the limit and, for a
    limit of at least 1, the number of pages is 0 or 1. *)
Theorem searchUploads_total_is_page_length (Upload : Model doc)
    (req : Request) calls status data pg extras message :
  searchUploads Upload req =
    (calls, Ok (Paged status data pg extras message)) ->
  pi_total pg = Z.of_nat (List.length data) /\
  exists limit,
    pi_limit pg = Num limit /\
    pi_total pg <= Z.abs limit /\
    (1 <= limit -> pi_pages pg = Num (if pi_total pg =? 0 then 0 else 1)).
Proof.
  unfold searchUploads, hbind, pure, run_find, respond.
  destruct (parseInt_or _ 1) as [page|]; [|discriminate].
  destruct (parseInt_or _ 20) as [limit|] eqn:Hlim; [|discriminate].
  destruct (Obj.get (req_query req) "q") as [qv|]; [|discriminate].
  destruct (negb _); [discriminate|].
  destruct (set_if _ "category" _ _) as [f1|]; [|discriminate].
  destruct (set_if _ "fileType" _ _) as [f2|]; [|discriminate].
  rewrite exec_page_window
    by (apply (parseInt_or_nonzero _ 20 _ ltac:(lia) Hlim)).
  destruct (selected _ _) as [matching|]; [|discriminate]. cbn [bind].
  destruct (_ <? 0); [discriminate|].
  cbn [app]. intros [= <- <- <- <- <- <-].
  cbn [page_info pi_total pi_limit pi_pages]. split; [reflexivity|].
  exists limit. split; [reflexivity|].
  rewrite length_map.
  match goal with
  | |- context [firstn ?n ?xs] =>
      pose proof (firstn_le_length n xs) as Hle;
      set (len := List.length (firstn n xs)) in *
  end.
  split; [lia|]. intros Hl. f_equal.
  destruct (Z.eqb_spec (Z.of_nat len) 0) as [->|Hne].
  - reflexivity.
  - unfold ceil_div.
    assert (H : (- Z.of_nat len) / limit = -1); [|rewrite H; reflexivity].
    symmetry. apply (Z.div_unique_pos _ _ _ (limit - Z.of_nat len)); lia.
Qed.
End Listings.

Lemma insert_sorted_length le x (l : list Fixture.record) :
  List.length (Fixture.insert_sorted le x l) = S (List.length l).
Proof.
  induction l as [|y l IH]; cbn [Fixture.insert_sorted]; [reflexivity|].
  destruct (le x y); cbn [List.length]; [reflexivity|].
  rewrite IH. reflexivity.
Qed.

(** The sort of the in-memory store keeps every record. *)
Lemma sort_records_length coll s (l : list Fixture.record) :
  List.length (Fixture.sort_records coll s l) = List.length l.
Proof.
  unfold Fixture.sort_records.
  induction l as [|x l IH]; [reflexivity|].
  cbn [fold_right]. rewrite insert_sorted_length, IH. reflexivity.
Qed.

Lemma listings_page_length_witness :
  (exists calls status data pg extras message,
     getAllSettings settings general_request =
       (calls, Ok (Paged status data pg extras message)) /\
     Z.of_nat (List.length data) =
       Z.min 1 (Z.max 0 (pi_total pg - (1 - 1) * 1))) /\
  (exists calls status data pg extras message,
     getOpenMissions missions (mkRequest [] None) =
       (calls, Ok (Paged status data pg extras message)) /\
     Z.of_nat (List.length data) =
       Z.min 10 (Z.max 0 (pi_total pg - (1 - 1) * 10))).
Proof.
  pose proof (listings_page_length (store := Fixture.store)
                sort_records_length) as [HS HM].
  split.
  - assert (H : getAllSettings settings general_request = general_listing)
      by (vm_compute; reflexivity).
    do 6 eexists. split; [exact H|].
    apply (HS settings general_request _ _ _ _ _ _ 1 1 H);
      [reflexivity|reflexivity|lia|lia].
  - assert (H : getOpenMissions missions (mkRequest [] None) = open_listing)
      by (vm_compute; reflexivity).
    do 6 eexists. split; [exact H|].
    apply (HM missions (mkRequest [] None) _ _ _ _ _ _ 1 10 H);
      [reflexivity|reflexivity|lia|lia].
Defined.

Lemma searchUploads_total_is_page_length_witness :
  exists calls status data pg extras message,
    searchUploads gallery sunset_page_request =
      (calls, Ok (Paged status data pg extras message)) /\
    data = [[("title", SStr "sunset beach"); ("status", SStr "approved")]] /\
    (exists q,
       calls = [FindCall "Upload" q] /\
       option_map (@List.length Fixture.record)
         (match selected q (documents gallery) with
          | Ok matching => Some matching
          | Err _ => None
          end) = Some 2%nat) /\
    pi_total pg = 1 /\
    pi_pages pg = Num 1.
Proof.
  let v := eval vm_compute in (searchUploads gallery sunset_page_request) in
  assert (H : searchUploads gallery sunset_page_request = v)
    by (vm_compute; reflexivity).
  do 6 eexists. split; [exact H|].
  destruct (searchUploads_total_is_page_length gallery sunset_page_request
              _ _ _ _ _ _ H) as (Htotal & limit & Hlimit & _ & Hpages).
  split; [reflexivity|].
  split; [eexists; split; [reflexivity|vm_compute; reflexivity]|].
  split; [exact Htotal|].
  cbn [pi_limit] in Hlimit. injection Hlimit as <-.
  rewrite Hpages by lia. rewrite Htotal. reflexivity.
Defined.

(** ** Conditions that no parameter can lift *)

(** The spread [...filters] over an object leaves a key that [filters]
    does not name as it was. *)
Lemma spread_other {V : Type} (filters o : list (string * V)) (k : string) :
  ~ In k (Obj.keys filters) ->
  Obj.get (fold_left (fun o kv => Obj.set o (fst kv) (snd kv)) filters o) k =
    Obj.get o k.
Proof.
  unfold Obj.keys. revert o.
  induction filters as [|[k0 v0] filters IH]; intros o H; [reflexivity|].
  cbn [fold_left fst snd]. cbn [map In fst] in H.
  rewrite IH by tauto. apply get_set_other. tauto.
Qed.

Section FixedConditions.
Context {doc : Type} {store : Store doc}.

(** X11. Whatever the parameters, the gallery search only asks the store
    for approved uploads matching the text of [q]: no parameter replaces
    the status or the text condition of the query. *)
Theorem searchUploads_only_approved (Upload : Model doc) (req : Request) :
  Forall (fun call =>
            exists o qv,
              asks_only (JObj o) call /\
              Obj.get (req_query req) "q" = Some qv /\
              Obj.get o "status" = Some (CStr "approved") /\
              Obj.get o "$text" = Some (JObj [("$search", cond_of_json qv)]))
         (fst (searchUploads Upload req)).
Proof.
  unfold searchUploads. rewrite !hbind_pure.
  destruct (parseInt_or _ 1) as [page|]; [|constructor].
  rewrite hbind_pure.
  destruct (parseInt_or _ 20) as [limit|]; [|constructor].
  destruct (Obj.get (req_query req) "q") as [qv|]; [|constructor].
  destruct (negb _); [constructor|]. rewrite hbind_pure.
  destruct (set_if _ "category" _ _) as [f1|] eqn:H1; [|constructor].
  rewrite hbind_pure.
  destruct (set_if _ "fileType" _ _) as [f2|] eqn:H2; [|constructor].
  unfold hbind, run_find, respond. destruct (exec _ _); cbn [fst app].
  all: constructor; [|constructor].
  all: eexists; exists qv; split; [reflexivity|]; split; [reflexivity|].
  all: assert (Hk : incl (Obj.keys f2) ["fileType"; "category"])
    by (apply set_if_keys in H1, H2; intros k Hk;
        destruct (H2 k Hk) as [<-|Hk']; [left; reflexivity|];
        right; exact (H1 k Hk')).
  all: split; rewrite spread_other; try reflexivity.
  all: intros Hin; apply Hk in Hin; cbn [In] in Hin;
    destruct Hin as [Hin|[Hin|[]]]; discriminate.
Qed.

(** X12. Whatever the parameters, the open-missions listing finds and
    counts missions under one condition whose status is "open". *)
Theorem getOpenMissions_only_open (Mission : Model doc) (req : Request) :
  exists filters,
    Obj.get filters "status" = Some (CStr "open") /\
    Forall (asks_only (JObj filters)) (fst (getOpenMissions Mission req)).
Proof.
  unfold getOpenMissions. rewrite !hbind_pure.
  destruct (parseInt_or _ 1) as [page|];
    [|exists [("status", CStr "open")]; split; [reflexivity|constructor]].
  rewrite hbind_pure.
  destruct (parseInt_or _ 10) as [limit|];
    [|exists [("status", CStr "open")]; split; [reflexivity|constructor]].
  rewrite hbind_pure.
  destruct (set_if _ "type" _ _) as [f1|] eqn:H1;
    [|exists [("status", CStr "open")]; split; [reflexivity|constructor]].
  rewrite hbind_pure.
  destruct (set_if _ "location.city" _ _) as [f2|] eqn:H2;
    [|exists [("status", CStr "open")]; split; [reflexivity|constructor]].
  rewrite hbind_pure.
  destruct (set_if _ "budget.min" _ _) as [f3|] eqn:H3;
    [|exists [("status", CStr "open")]; split; [reflexivity|constructor]].
  rewrite hbind_pure.
  destruct (set_if _ "budget.max" _ _) as [f4|] eqn:H4;
    [|exists [("status", CStr "open")]; split; [reflexivity|constructor]].
  exists f4. split.
  - rewrite (set_if_other _ "budget.max" "status" _ _ _ ltac:(discriminate) H4).
    rewrite (set_if_other _ "budget.min" "status" _ _ _ ltac:(discriminate) H3).
    rewrite (set_if_other _ "location.city" "status" _ _ _ ltac:(discriminate) H2).
    rewrite (set_if_other _ "type" "status" _ _ _ ltac:(discriminate) H1).
    reflexivity.
  - unfold hbind, run_find, run_count, respond.
    destruct (exec _ _); cbn [fst app]; repeat constructor.
Qed.
End FixedConditions.

(** ** The response envelopes *)

Lemma status_codes_In (lo : Z) (n : nat) (z : Z) :
  lo <= z < lo + Z.of_nat n -> In z (status_codes lo n).
Proof.
  intros H. unfold status_codes. apply in_map_iff.
  exists (Z.to_nat (z - lo)). split; [lia|]. apply in_seq. lia.
Qed.

(** X13. Among the status codes 100 to 599, [ApiError] marks as "fail"
    exactly the codes 400 to 499; the others are marked "error". *)
Theorem ApiError_fail_is_4xx (message : string) (statusCode : Z)
    (errorCode : option string) :
  100 <= statusCode <= 599 ->
  ApiError.status (ApiError.new message statusCode errorCode) =
    if (400 <=? statusCode) && (statusCode <=? 499) then "fail" else "error".
Proof.
  intros H.
  assert (Hall : forallb
            (fun z => String.eqb
               (if prefix "4" (decimal z) then "fail" else "error")
               (if (400 <=? z) && (z <=? 499) then "fail" else "error"))
            (status_codes 100 500) = true) by (vm_compute; reflexivity).
  rewrite forallb_forall in Hall.
  apply String.eqb_eq. apply (Hall statusCode).
  apply status_codes_In. lia.
Qed.

Lemma ApiError_fail_is_4xx_witness :
  ApiError.status (ApiError.new "Search query is required" 400 None) =
    if (400 <=? 400) && (400 <=? 499) then "fail" else "error".
Proof.
  apply (ApiError_fail_is_4xx "Search query is required" 400 None). lia.
Defined.

Lemma includes_incl (p p' : list string) (x : string) :
  incl p p' -> ApiResponse.includes p x = true ->
  ApiResponse.includes p' x = true.
Proof.
  unfold ApiResponse.includes. intros Hi H.
  apply existsb_exists in H as (y & Hy & Heq).
  apply existsb_exists. exists y. split; [apply Hi, Hy|exact Heq].
Qed.

(** X14. The access level grows with the permissions: more permissions
    never give a lower level. *)
Theorem determineAccessLevel_monotone (permissions permissions' : list string) :
  incl permissions permissions' ->
  access_rank (ApiResponse.determineAccessLevel permissions) <=
    access_rank (ApiResponse.determineAccessLevel permissions').
Proof.
  intros Hi. unfold ApiResponse.determineAccessLevel.
  pose proof (includes_incl _ _ "admin" Hi) as Ha.
  pose proof (includes_incl _ _ "master" Hi) as Hm.
  pose proof (includes_incl _ _ "write" Hi) as Hw.
  pose proof (includes_incl _ _ "read" Hi) as Hr.
  destruct (ApiResponse.includes permissions "admin"),
    (ApiResponse.includes permissions "master"),
    (ApiResponse.includes permissions "write"),
    (ApiResponse.includes permissions "read");
    try rewrite (Ha eq_refl); try rewrite (Hm eq_refl);
    try rewrite (Hw eq_refl); try rewrite (Hr eq_refl);
    destruct (ApiResponse.includes permissions' "admin"),
      (ApiResponse.includes permissions' "master"),
      (ApiResponse.includes permissions' "write"),
      (ApiResponse.includes permissions' "read");
    cbn; lia.
Qed.

Lemma determineAccessLevel_monotone_witness :
  access_rank (ApiResponse.determineAccessLevel ["read"]) <=
    access_rank (ApiResponse.determineAccessLevel ["write"; "read"]).
Proof.
  apply (determineAccessLevel_monotone ["read"] ["write"; "read"]).
  intros x [<-|[]]. right. left. reflexivity.
Defined.

Lemma filter_partition_length {A : Type} (p : A -> bool) (l : list A) :
  (List.length (List.filter p l) +
   List.length (List.filter (fun x => negb (p x)) l))%nat = List.length l.
Proof.
  induction l as [|x l IH]; [reflexivity|].
  cbn [List.filter]. destruct (p x); cbn [negb List.length]; lia.
Qed.

(** X15. In a bulk response the successful and the failed results add up
    to the total, which is the number of results given. *)
Theorem bulk_counts_add_up (results : list cond) (message : string) :
  exists successful failed,
    ApiResponse.meta (ApiResponse.bulk results message) =
      Some [("bulk",
             JObj [("total", CInt (Z.of_nat (List.length results)));
                   ("successful", CInt successful);
                   ("failed", CInt failed);
                   ("details", JArr results)])] /\
    0 <= successful /\ 0 <= failed /\
    successful + failed = Z.of_nat (List.length results).
Proof.
  exists (Z.of_nat
            (List.length
               (List.filter (fun r => truthy_value (property r "success"))
                            results))),
         (Z.of_nat
            (List.length
               (List.filter
                  (fun r => negb (truthy_value (property r "success")))
                  results))).
  split; [reflexivity|].
  pose proof (filter_partition_length
                (fun r => truthy_value (property r "success")) results)
    as H.
  cbv beta in H. lia.
Qed.

(** X16. [addMeta] stores the value under the key, unless the key is
    "__proto__" and the meta has no entry of this name: then the meta
    keeps its entries. In both cases the meta keeps what it held under
    every other key and the rest of the response is as it was; a response
    without meta gets one. *)
Theorem addMeta_lookup {D : Type} (key : string) (value : cond)
    (this : ApiResponse.t D) :
  let old := match ApiResponse.meta this with
             | Some m0 => m0
             | None => []
             end in
  exists m,
    ApiResponse.meta (ApiResponse.addMeta key value this) = Some m /\
    (key <> "__proto__" \/ has_key old key = true ->
     Obj.get m key = Some value) /\
    (key = "__proto__" -> has_key old key = false -> m = old) /\
    (forall k, k <> key -> Obj.get m k = Obj.get old k) /\
    ApiResponse.statusCode (ApiResponse.addMeta key value this) =
      ApiResponse.statusCode this /\
    ApiResponse.data (ApiResponse.addMeta key value this) =
      ApiResponse.data this.
Proof.
  cbv zeta. eexists. split; [reflexivity|].
  set (old := match ApiResponse.meta this with
              | Some m0 => m0
              | None => []
              end).
  split; [|split; [|split; [|split; reflexivity]]].
  - intros [Hk|Hk].
    + apply String.eqb_neq in Hk. rewrite Hk. apply get_set_same.
    + rewrite Hk, andb_false_r. apply get_set_same.
  - intros -> Hk. rewrite Hk. reflexivity.
  - intros k Hk. destruct (_ && _); [reflexivity|].
    apply get_set_other. congruence.
Qed.

Lemma addMeta_lookup_witness :
  exists m,
    ApiResponse.meta
      (ApiResponse.addMeta "__proto__" (CStr "x")
         (ApiResponse.new 200 (Some 1) "ok" None)) = Some m /\
    m = [] /\
    Obj.get m "__proto__" = None.
Proof.
  destruct (addMeta_lookup "__proto__" (CStr "x")
              (ApiResponse.new 200 (Some 1) "ok" None))
    as (m & Hm & _ & Hproto & _).
  exists m. split; [exact Hm|].
  assert (H : m = []) by (apply Hproto; reflexivity).
  split; [exact H|]. rewrite H. reflexivity.
Defined.

Section SearchAnswer.
Context {doc : Type} {store : Store doc}.

(** X17. The factory search never answers with a page of results: its
    only answer is the 400 for a missing keyword, given without a store
    call. For a keyword that is not blank, with page and limit read as
    numbers, it sends the find and the count and then ends in an error:
    the one of the store if the store refused the find or the count, and
    otherwise a ReferenceError, since the file that defines it binds no
    [ApiResponse]. *)
Theorem searchDocuments_never_answers_a_page (M : Model doc)
    (searchFields : list string) (populateOptions : option cond)
    (req : Request) :
  (forall calls answer,
     searchDocuments M searchFields populateOptions req = (calls, Ok answer) ->
     calls = [] /\ answer = Failed 400 "Search query is required") /\
  (forall (s : string) (np nl il : jsnum),
     Obj.get (req_query req) "q" = Some (JLeaf s) ->
     trim s <> "" ->
     Number (Some (defaulted (Obj.get (req_query req) "page") "1"))
       = Some np ->
     Number (Some (defaulted (Obj.get (req_query req) "limit") "10"))
       = Some nl ->
     parseInt (Some (defaulted (Obj.get (req_query req) "limit") "10"))
       = Some il ->
     exists sent conditions e,
       searchDocuments M searchFields populateOptions req =
         ([FindCall (modelName M) sent;
           CountCall (modelName M) (Some conditions)], Err e) /\
       (forall found total,
          exec sent (documents M) = Ok found ->
          countDocuments M (Some conditions) = Ok total ->
          e = ReferenceError)).
Proof.
  split.
  - intros calls answer. unfold searchDocuments.
    destruct (negb _); [intros [= <- <-]; split; reflexivity|].
    destruct (Obj.get (req_query req) "q") as [[s|items|entries]|];
      try discriminate.
    destruct (String.eqb (trim s) "");
      [intros [= <- <-]; split; reflexivity|].
    rewrite !hbind_pure.
    repeat (match goal with
            | |- context [in_model ?o] => destruct (in_model o)
            end; [rewrite ?hbind_pure|discriminate]).
    unfold hbind, both, run_find, run_count, respond.
    cbn [fst snd]. unfold pure.
    destruct (exec _ _); [destruct (countDocuments M _)|]; discriminate.
  - intros s np nl il Hq Htrim Hnp Hnl Hil.
    rewrite (searchDocuments_calls M searchFields populateOptions req s
               np nl il Hq Htrim Hnp Hnl Hil).
    destruct (exec _ _) as [found|e] eqn:Hfind;
      [destruct (countDocuments M _) as [total|e] eqn:Hcount|].
    + do 3 eexists. split; [reflexivity|]. reflexivity.
    + do 3 eexists. split; [reflexivity|].
      intros found' total' _ H.
      discriminate (eq_trans (eq_sym H) Hcount).
    + do 3 eexists. split; [reflexivity|].
      intros found' total' H.
      discriminate (eq_trans (eq_sym H) Hfind).
Qed.
End SearchAnswer.

Lemma searchDocuments_never_answers_a_page_witness :
  (exists sent conditions,
     searchDocuments uploads upload_search_fields None sunset_request =
       ([FindCall "Upload" sent; CountCall "Upload" (Some conditions)],
        Err ReferenceError)) /\
  searchDocuments uploads upload_search_fields None (mkRequest [] None) =
    ([], Ok (Failed 400 "Search query is required")).
Proof.
  destruct (searchDocuments_never_answers_a_page uploads upload_search_fields
              None sunset_request) as [_ Hsent].
  destruct (searchDocuments_never_answers_a_page uploads upload_search_fields
              None (mkRequest [] None)) as [Hanswer _].
  split.
  - destruct (Hsent "sunset" (Num 1) (Num 10) (Num 10))
      as (sent & conditions & e & H & He);
      [reflexivity|discriminate|reflexivity|reflexivity|reflexivity|].
    exists sent, conditions. rewrite H. f_equal. f_equal.
    assert (Hv : snd (searchDocuments uploads upload_search_fields None
                        sunset_request) = Err ReferenceError)
      by (vm_compute; reflexivity).
    rewrite H in Hv. cbn [snd] in Hv. injection Hv as ->. reflexivity.
  - destruct (searchDocuments uploads upload_search_fields None
                (mkRequest [] None)) as [calls [answer|e]] eqn:Hr;
      [|vm_compute in Hr; discriminate].
    destruct (Hanswer calls answer eq_refl) as [-> ->]. reflexivity.
Defined.

(** ** Likes, applications and tags *)

Lemma Set_fold_In (l seen : list string) (y : string) :
  In y (fold_left (fun seen x =>
                     if existsb (String.eqb x) seen then seen
                     else seen ++ [x]) l seen) <->
  In y seen \/ In y l.
Proof.
  revert seen. induction l as [|x l IH]; intros seen; cbn [fold_left].
  - cbn [In]. tauto.
  - rewrite IH. cbn [In]. destruct (existsb (String.eqb x) seen) eqn:Hx.
    + apply existsb_exists in Hx as (z & Hz & Heq).
      apply String.eqb_eq in Heq. subst z.
      split; [tauto|]. intros [H|[<-|H]]; tauto.
    + rewrite in_app_iff. cbn [In]. tauto.
Qed.

Lemma Set_fold_NoDup (l seen : list string) :
  NoDup seen ->
  NoDup (fold_left (fun seen x =>
                      if existsb (String.eqb x) seen then seen
                      else seen ++ [x]) l seen).
Proof.
  revert seen. induction l as [|x l IH]; intros seen H; cbn [fold_left];
    [exact H|].
  apply IH. destruct (existsb (String.eqb x) seen) eqn:Hx; [exact H|].
  apply NoDup_app; [exact H|repeat constructor; intros []|].
  intros z Hz [->|[]].
  assert (existsb (String.eqb z) seen = true); [|congruence].
  apply existsb_exists. exists z. split; [exact Hz|apply String.eqb_refl].
Qed.

Lemma Set_fold_fresh (l seen : list string) :
  NoDup (seen ++ l) ->
  fold_left (fun seen x =>
               if existsb (String.eqb x) seen then seen
               else seen ++ [x]) l seen = seen ++ l.
Proof.
  revert seen. induction l as [|x l IH]; intros seen H; cbn [fold_left].
  - rewrite app_nil_r. reflexivity.
  - destruct (existsb (String.eqb x) seen) eqn:Hx.
    + apply existsb_exists in Hx as (z & Hz & Heq).
      apply String.eqb_eq in Heq. subst z.
      apply NoDup_remove_2 in H. exfalso. apply H.
      apply in_or_app. left. exact Hz.
    + rewrite IH; rewrite <- app_assoc; [reflexivity|exact H].
Qed.

Lemma Set_values_In (l : list string) (y : string) :
  In y (Set_values l) <-> In y l.
Proof.
  unfold Set_values. rewrite Set_fold_In. cbn [In]. tauto.
Qed.

Lemma Set_values_NoDup (l : list string) : NoDup (Set_values l).
Proof. apply Set_fold_NoDup. constructor. Qed.

(** Lower case keeps white space, and what is not, as it is. *)
Lemma is_ws_lower_char (c : ascii) : is_ws (lower_char c) = is_ws c.
Proof.
  destruct c as [[] [] [] [] [] [] [] []]; vm_compute; reflexivity.
Qed.

Lemma lower_char_again (c : ascii) : lower_char (lower_char c) = lower_char c.
Proof.
  destruct c as [[] [] [] [] [] [] [] []]; vm_compute; reflexivity.
Qed.

Lemma drop_ws_lower (l : list ascii) :
  drop_ws (map lower_char l) = map lower_char (drop_ws l).
Proof.
  induction l as [|c l IH]; [reflexivity|].
  cbn [map drop_ws]. rewrite is_ws_lower_char.
  destruct (is_ws c); [exact IH|reflexivity].
Qed.

Lemma trim_chars_lower (l : list ascii) :
  trim_chars (map lower_char l) = map lower_char (trim_chars l).
Proof.
  unfold trim_chars.
  rewrite drop_ws_lower, <- map_rev, drop_ws_lower, <- map_rev.
  reflexivity.
Qed.

Lemma drop_ws_headed (l : list ascii) : headed (drop_ws l).
Proof.
  induction l as [|c l IH]; [exact I|].
  cbn [drop_ws]. destruct (is_ws c) eqn:Hc; [exact IH|exact Hc].
Qed.

Lemma headed_drop_ws (l : list ascii) : headed l -> drop_ws l = l.
Proof.
  destruct l as [|c l]; [reflexivity|].
  cbn [headed drop_ws]. intros ->. reflexivity.
Qed.

Lemma drop_ws_split (l : list ascii) :
  exists p, l = p ++ drop_ws l /\ forallb is_ws p = true.
Proof.
  induction l as [|c l (p & Hl & Hp)]; [exists []; split; reflexivity|].
  cbn [drop_ws]. destruct (is_ws c) eqn:Hc.
  - exists (c :: p). cbn [app forallb]. rewrite Hc, Hp.
    split; [f_equal; exact Hl|reflexivity].
  - exists []. split; reflexivity.
Qed.

(** What is left of a headed list after dropping the white space at its
    end is headed. *)
Lemma headed_trimmed_end (a : list ascii) :
  headed a -> headed (rev (drop_ws (rev a))).
Proof.
  intros Ha. destruct (drop_ws_split (rev a)) as (p & Hl & Hp).
  apply (f_equal (@rev ascii)) in Hl.
  rewrite rev_involutive, rev_app_distr in Hl.
  destruct (rev (drop_ws (rev a))) as [|c r]; [exact I|].
  rewrite Hl in Ha. exact Ha.
Qed.

Lemma trim_chars_again (l : list ascii) :
  trim_chars (trim_chars l) = trim_chars l.
Proof.
  unfold trim_chars.
  rewrite (headed_drop_ws (rev (drop_ws (rev (drop_ws l)))))
    by (apply headed_trimmed_end, drop_ws_headed).
  rewrite rev_involutive.
  rewrite (headed_drop_ws (drop_ws _)) by apply drop_ws_headed.
  reflexivity.
Qed.

(** The trimmed form of a tag that went through the setters. *)
Lemma trim_tag_setters (tag : string) :
  trim (tag_setters tag) = tag_setters tag.
Proof.
  unfold tag_setters, toLowerCase, trim. rewrite !chars_text.
  rewrite trim_chars_lower, trim_chars_again. reflexivity.
Qed.

(** The setters change no tag that went through them. *)
Lemma tag_setters_again (tag : string) :
  tag_setters (tag_setters tag) = tag_setters tag.
Proof.
  unfold tag_setters at 1. rewrite trim_tag_setters.
  unfold tag_setters, toLowerCase, trim. rewrite !chars_text.
  rewrite map_map. f_equal. apply map_ext. apply lower_char_again.
Qed.

Lemma tag_setters_blank (tag : string) :
  tag_setters tag = "" <-> trim tag = "".
Proof.
  unfold tag_setters, toLowerCase. rewrite text_nil. split.
  - intros H. apply map_eq_nil in H. rewrite <- (text_chars (trim tag)), H.
    reflexivity.
  - intros ->. reflexivity.
Qed.

Lemma clean_tags_In (tags : list string) (tag : string) :
  In tag (clean_tags tags) <->
  exists t0, In t0 tags /\ trim t0 <> "" /\ tag = tag_setters t0.
Proof.
  unfold clean_tags. destruct tags as [|t tags].
  - cbn [In]. split; [intros []|intros (t0 & [] & _)].
  - rewrite in_map_iff. split.
    + intros (t0 & <- & H). apply Set_values_In, filter_In in H as [H Ht].
      exists t0. split; [exact H|]. split; [|reflexivity].
      apply negb_true_iff, String.eqb_neq in Ht. exact Ht.
    + intros (t0 & H & Ht & ->). exists t0. split; [reflexivity|].
      apply Set_values_In, filter_In. split; [exact H|].
      apply negb_true_iff, String.eqb_neq. exact Ht.
Qed.

(** The tags that a save leaves went through the setters and are not
    blank. *)
Lemma clean_tags_normal (tags : list string) (tag : string) :
  (forall t, In t tags -> tag_setters t = t) \/ tags <> [] ->
  In tag (clean_tags tags) ->
  tag_setters tag = tag /\ trim tag <> "".
Proof.
  intros Hn Hin. destruct tags as [|t0 tags].
  - destruct Hin.
  - apply clean_tags_In in Hin as (t1 & _ & Ht & ->).
    split; [apply tag_setters_again|].
    rewrite trim_tag_setters. intros H. apply tag_setters_blank in H.
    contradiction.
Qed.

Lemma map_fixed {A : Type} (f : A -> A) (l : list A) :
  (forall x, In x l -> f x = x) -> map f l = l.
Proof.
  intros H. rewrite <- (map_id l) at 2. apply map_ext_in. exact H.
Qed.

(** On tags that went through the setters, the hook keeps the distinct
    ones that are not blank. *)
Lemma clean_tags_of_normal (tags : list string) :
  (forall t, In t tags -> tag_setters t = t) ->
  clean_tags tags =
    Set_values (List.filter (fun tag => negb (String.eqb (trim tag) "")) tags).
Proof.
  intros Hn. unfold clean_tags. destruct tags as [|t0 tags]; [reflexivity|].
  apply map_fixed. intros t Ht.
  apply Set_values_In, filter_In in Ht as [Ht _]. apply Hn, Ht.
Qed.

Lemma clean_tags_NoDup (tags : list string) :
  (forall t, In t tags -> tag_setters t = t) -> NoDup (clean_tags tags).
Proof.
  intros Hn. rewrite (clean_tags_of_normal tags Hn). apply Set_values_NoDup.
Qed.

(** A second save keeps the distinct tags of the first. *)
Lemma clean_tags_again (tags : list string) :
  clean_tags (clean_tags tags) = Set_values (clean_tags tags).
Proof.
  destruct tags as [|t0 tags]; [reflexivity|].
  assert (Hn : forall tag, In tag (clean_tags (t0 :: tags)) ->
                 tag_setters tag = tag /\ trim tag <> "").
  { intros tag. apply clean_tags_normal. right. discriminate. }
  rewrite clean_tags_of_normal by (intros t Ht; apply Hn, Ht).
  f_equal. apply forallb_filter_id, forallb_forall. intros t Ht.
  apply negb_true_iff, String.eqb_neq, Hn, Ht.
Qed.

(** X18. Saving an upload or a mission leaves as tags the former tags
    that are not white space only, each trimmed and in lower case by the
    setters of the path; they are distinct if the former tags had gone
    through the setters, and after a second save in any case, which keeps
    the same tags. The mission is not saved when its budget has min above
    max. *)
Theorem pre_save_cleans_tags (isModified_status again : bool) (now later : Z)
    (upload : Upload.t) (mission : Mission.t) :
  let clean (tags tags' : list string) :=
    (forall tag, In tag tags' <->
                 exists t0, In t0 tags /\ trim t0 <> "" /\
                            tag = tag_setters t0) /\
    ((forall t, In t tags -> tag_setters t = t) -> NoDup tags') in
  let first := Upload.pre_save isModified_status now upload in
  let second := Upload.pre_save again later first in
  clean (Upload.tags upload) (Upload.tags first) /\
  NoDup (Upload.tags second) /\
  (forall tag, In tag (Upload.tags second) <-> In tag (Upload.tags first)) /\
  match Mission.pre_save isModified_status now mission with
  | Returned saved =>
      clean (Mission.tags mission) (Mission.tags saved) /\
      fst (Mission.budget mission) <= snd (Mission.budget mission)
  | Thrown _ => snd (Mission.budget mission) < fst (Mission.budget mission)
  end.
Proof.
  cbv zeta. cbn [Upload.pre_save Upload.tags].
  split; [|split; [|split]].
  - split; [apply clean_tags_In|apply clean_tags_NoDup].
  - rewrite clean_tags_again. apply Set_values_NoDup.
  - intros tag. rewrite clean_tags_again. apply Set_values_In.
  - unfold Mission.pre_save.
    destruct (Z.ltb_spec (snd (Mission.budget mission))
                         (fst (Mission.budget mission))) as [H|H];
      [exact H|].
    cbn [Mission.tags]. split; [|exact H].
    split; [apply clean_tags_In|apply clean_tags_NoDup].
Qed.

Lemma pre_save_cleans_tags_witness :
  let upload := Upload.mk "u1" "pending" 0 [" Sea "; "sea"; " "; "SEA"] None in
  Upload.tags (Upload.pre_save false 7 upload) = ["sea"; "sea"; "sea"] /\
  NoDup (Upload.tags (Upload.pre_save false 8 (Upload.pre_save false 7 upload))) /\
  Upload.tags (Upload.pre_save false 8 (Upload.pre_save false 7 upload)) =
    ["sea"].
Proof.
  cbv zeta. split; [vm_compute; reflexivity|]. split; [|vm_compute; reflexivity].
  destruct (pre_save_cleans_tags false false 7 8
              (Upload.mk "u1" "pending" 0 [" Sea "; "sea"; " "; "SEA"] None)
              (Mission.mk [] None "open" None (1, 2) None None None None []))
    as (_ & Hn & _).
  exact Hn.
Defined.

Lemma save_ids (m : bool) (now : Z) (upload : Upload.t)
    (uploads : list Upload.t) :
  map Upload._id (Upload.save m now upload uploads) = map Upload._id uploads.
Proof.
  unfold Upload.save. rewrite map_map. apply map_ext. intros u.
  destruct (String.eqb_spec (Upload._id u)
              (Upload._id (Upload.pre_save m now upload))) as [->|];
    reflexivity.
Qed.

Lemma findOne_approved_found (uploads : list Upload.t) (id : string)
    (upload : Upload.t) :
  Upload.findOne_approved uploads id = Some upload ->
  In upload uploads /\ Upload._id upload = id /\
  Upload.status upload = "approved".
Proof.
  unfold Upload.findOne_approved. intros H.
  apply find_some in H as [Hin H]. apply andb_true_iff in H as [Hi Hs].
  apply String.eqb_eq in Hi, Hs. auto.
Qed.

(** X19. [toggleLike] keeps the like counters from going below zero: if
    no upload has a negative count, none has one afterwards, whatever the
    action; and the collection holds the same uploads. *)
Theorem toggleLike_likes_not_negative (now : Z) (uploads : list Upload.t)
    (id : string) (action : option json) :
  Forall (fun u => 0 <= Upload.likes u) uploads ->
  Forall (fun u => 0 <= Upload.likes u)
         (fst (toggleLike now uploads id action)) /\
  map Upload._id (fst (toggleLike now uploads id action)) =
    map Upload._id uploads.
Proof.
  intros Hall. unfold toggleLike.
  destruct (Upload.findOne_approved uploads id) as [upload|] eqn:Hf;
    cbn [fst]; [|split; [exact Hall|reflexivity]].
  split; [|apply save_ids].
  apply findOne_approved_found in Hf as (Hin & _ & _).
  rewrite Forall_forall in Hall. pose proof (Hall upload Hin) as Hup.
  apply Forall_forall. intros u Hu. unfold Upload.save in Hu.
  apply in_map_iff in Hu as (u0 & <- & Hu0).
  destruct (String.eqb _ _); [|apply Hall, Hu0].
  cbn [Upload.pre_save Upload.likes].
  destruct (action_is action "like"); [lia|].
  destruct (action_is action "unlike"); lia.
Qed.

Lemma toggleLike_likes_not_negative_witness :
  let uploads := [Upload.mk "u1" "approved" 0 ["sea"] None] in
  Forall (fun u => 0 <= Upload.likes u)
         (fst (toggleLike 7 uploads "u1" (Some (JStr "unlike")))) /\
  map Upload._id (fst (toggleLike 7 uploads "u1" (Some (JStr "unlike")))) =
    map Upload._id uploads.
Proof.
  apply (toggleLike_likes_not_negative 7
           [Upload.mk "u1" "approved" 0 ["sea"] None] "u1"
           (Some (JStr "unlike"))).
  repeat constructor. simpl. lia.
Defined.

Lemma unique_id (uploads : list Upload.t) (u v : Upload.t) :
  NoDup (map Upload._id uploads) ->
  In u uploads -> In v uploads -> Upload._id u = Upload._id v -> u = v.
Proof.
  induction uploads as [|w uploads IH]; intros Hn Hu Hv Heq; [destruct Hu|].
  cbn [map] in Hn. inversion Hn as [|? ? Hnot Hn']. subst.
  destruct Hu as [->|Hu], Hv as [->|Hv].
  - reflexivity.
  - exfalso. apply Hnot. rewrite Heq. apply in_map, Hv.
  - exfalso. apply Hnot. rewrite <- Heq. apply in_map, Hu.
  - apply IH; assumption.
Qed.

(** Over a collection with distinct ids, a save changes the likes of the
    saved upload only. *)
Lemma save_likes (m : bool) (now : Z) (old upload : Upload.t)
    (uploads : list Upload.t) :
  NoDup (map Upload._id uploads) -> In old uploads ->
  Upload._id upload = Upload._id old ->
  map Upload.likes (Upload.save m now upload uploads) =
    map (fun u => if String.eqb (Upload._id u) (Upload._id old)
                  then Upload.likes upload else Upload.likes u) uploads.
Proof.
  intros Hn Hin Hid. unfold Upload.save. rewrite map_map.
  apply map_ext. intros u. cbn [Upload.pre_save Upload._id]. rewrite Hid.
  destruct (String.eqb (Upload._id u) (Upload._id old)); reflexivity.
Qed.

Lemma findOne_approved_saved (m : bool) (now : Z) (old upload : Upload.t)
    (uploads : list Upload.t) (id : string) :
  NoDup (map Upload._id uploads) ->
  Upload.findOne_approved uploads id = Some old ->
  Upload._id upload = Upload._id old ->
  Upload.status upload = Upload.status old ->
  Upload.findOne_approved (Upload.save m now upload uploads) id =
    Some (Upload.pre_save m now upload).
Proof.
  intros Hn Hf Hid Hst.
  pose proof (findOne_approved_found _ _ _ Hf) as (Hin & Hi & Hs).
  unfold Upload.findOne_approved, Upload.save in *.
  cbn [Upload.pre_save Upload._id].
  induction uploads as [|u uploads IH]; [discriminate|].
  cbn [map find] in *.
  destruct (String.eqb_spec (Upload._id u) (Upload._id upload)) as [He|He].
  - assert (u = old) as ->.
    { apply (unique_id (u :: uploads)); [exact Hn|left; reflexivity|
                                         exact Hin|congruence]. }
    unfold Upload.pre_save. cbn [Upload._id Upload.status].
    rewrite Hid, Hi, Hst, Hs.
    rewrite !String.eqb_refl. reflexivity.
  - destruct (String.eqb (Upload._id u) id && _) eqn:Hp.
    + injection Hf as ->. congruence.
    + inversion Hn; subst. apply IH; [assumption|exact Hf|].
      destruct Hin as [->|Hin]; [congruence|exact Hin].
Qed.

(** X20. Over a collection with distinct ids and no negative count, a
    like followed by an unlike of the same upload gives every upload the
    likes it had. *)
Theorem toggleLike_like_then_unlike (now later : Z)
    (uploads : list Upload.t) (id : string) :
  NoDup (map Upload._id uploads) ->
  Forall (fun u => 0 <= Upload.likes u) uploads ->
  map Upload.likes
      (fst (toggleLike later
              (fst (toggleLike now uploads id (Some (JStr "like"))))
              id (Some (JStr "unlike")))) =
    map Upload.likes uploads.
Proof.
  intros Hn Hall. unfold toggleLike at 2.
  destruct (Upload.findOne_approved uploads id) as [old|] eqn:Hf; cbn [fst].
  - pose proof (findOne_approved_found _ _ _ Hf) as (Hin & Hi & Hs).
    cbn [action_is JStr String.eqb Ascii.eqb Bool.eqb].
    unfold toggleLike.
    match goal with
    | |- context [Upload.save false now ?up uploads] =>
        rewrite (findOne_approved_saved false now old up uploads id Hn Hf
                   eq_refl eq_refl)
    end.
    cbn [fst action_is JStr String.eqb Ascii.eqb Bool.eqb].
    match goal with
    | |- map Upload.likes (Upload.save false later ?up2 ?coll) = _ =>
        match coll with
        | Upload.save false now ?up1 uploads =>
            rewrite (save_likes false later (Upload.pre_save false now up1)
                       up2 coll)
        end
    end.
    + unfold Upload.save. rewrite map_map.
      cbn [Upload.pre_save Upload._id Upload.likes].
      rewrite <- (map_id (map Upload.likes uploads)), map_map.
      apply map_ext_in. intros u Hu.
      destruct (String.eqb_spec (Upload._id u) (Upload._id old)) as [He|He].
      * cbn [Upload._id Upload.likes]. rewrite String.eqb_refl.
        rewrite (unique_id uploads u old Hn Hu Hin He).
        rewrite Forall_forall in Hall. pose proof (Hall old Hin). lia.
      * destruct (String.eqb_spec (Upload._id u) (Upload._id old));
          [contradiction|reflexivity].
    + rewrite save_ids. exact Hn.
    + unfold Upload.save. apply in_map_iff. exists old.
      split; [|exact Hin]. cbn [Upload.pre_save Upload._id].
      rewrite String.eqb_refl. reflexivity.
    + reflexivity.
  - unfold toggleLike. rewrite Hf. reflexivity.
Qed.

Lemma toggleLike_like_then_unlike_witness :
  let uploads := [Upload.mk "u1" "approved" 3 ["sea"] None;
                  Upload.mk "u2" "pending" 0 [] None] in
  map Upload.likes
      (fst (toggleLike 8
              (fst (toggleLike 7 uploads "u1" (Some (JStr "like"))))
              "u1" (Some (JStr "unlike")))) =
    map Upload.likes uploads.
Proof.
  apply (toggleLike_like_then_unlike 7 8
           [Upload.mk "u1" "approved" 3 ["sea"] None;
            Upload.mk "u2" "pending" 0 [] None] "u1").
  - repeat constructor; simpl; intuition discriminate.
  - repeat constructor; simpl; lia.
Defined.

(** X21. An action that is neither "like" nor "unlike" leaves the likes
    of every upload as they were, and, when the approved upload is found,
    is answered 200 like the others, with the count as it was. *)
Theorem toggleLike_other_action (now : Z) (uploads : list Upload.t)
    (id : string) (action : option json) :
  NoDup (map Upload._id uploads) ->
  action_is action "like" = false ->
  action_is action "unlike" = false ->
  map Upload.likes (fst (toggleLike now uploads id action)) =
    map Upload.likes uploads /\
  forall upload,
    Upload.findOne_approved uploads id = Some upload ->
    snd (toggleLike now uploads id action) =
      inr (ApiResponse.new 200 (Some (Upload.likes upload, action))
             ("Upload " ++ action_text action ++ "d successfully") None).
Proof.
  intros Hn Hlike Hunlike. unfold toggleLike. rewrite Hlike, Hunlike.
  destruct (Upload.findOne_approved uploads id) as [old|] eqn:Hf;
    cbn [fst snd]; [|split; [reflexivity|discriminate]].
  split; [|intros upload [= <-]; reflexivity].
  pose proof (findOne_approved_found _ _ _ Hf) as (Hin & _ & _).
  match goal with
  | |- map Upload.likes (Upload.save false now ?up uploads) = _ =>
      rewrite (save_likes false now old up uploads Hn Hin eq_refl)
  end.
  cbn [Upload.likes].
  rewrite <- (map_id (map Upload.likes uploads)), map_map.
  apply map_ext_in. intros u Hu.
  destruct (String.eqb_spec (Upload._id u) (Upload._id old)) as [He|He];
    [|reflexivity].
  rewrite (unique_id uploads u old Hn Hu Hin He). reflexivity.
Qed.

Lemma toggleLike_other_action_witness :
  let uploads := [Upload.mk "u1" "approved" 3 ["sea"] None] in
  map Upload.likes (fst (toggleLike 7 uploads "u1" None)) =
    map Upload.likes uploads /\
  snd (toggleLike 7 uploads "u1" None) =
    inr (ApiResponse.new 200 (Some (3, None))
           ("Upload " ++ action_text None ++ "d successfully") None).
Proof.
  cbv zeta.
  destruct (toggleLike_other_action 7
              [Upload.mk "u1" "approved" 3 ["sea"] None] "u1" None)
    as [Hlikes Hfound].
  - repeat constructor; simpl; intuition discriminate.
  - reflexivity.
  - reflexivity.
  - split; [exact Hlikes|].
    exact (Hfound (Upload.mk "u1" "approved" 3 ["sea"] None) eq_refl).
Defined.

Lemma find_applied_none (partnerId : string) (apps : list Application.t) :
  existsb (String.eqb partnerId) (map Application.partner apps) = false ->
  find (Mission.applied_by partnerId) apps = None.
Proof.
  induction apps as [|app apps IH]; [reflexivity|].
  cbn [map existsb find]. unfold Mission.applied_by at 1.
  rewrite (String.eqb_sym (Application.partner app)).
  destruct (String.eqb partnerId (Application.partner app)); [discriminate|].
  exact IH.
Qed.

Lemma find_applied_some (partnerId : string) (apps : list Application.t) :
  existsb (String.eqb partnerId) (map Application.partner apps) = true ->
  exists app, find (Mission.applied_by partnerId) apps = Some app /\
              In app apps /\ Application.partner app = partnerId.
Proof.
  induction apps as [|app apps IH]; [discriminate|].
  cbn [map existsb find]. unfold Mission.applied_by at 1.
  rewrite (String.eqb_sym (Application.partner app)).
  destruct (String.eqb_spec partnerId (Application.partner app)) as [He|He].
  - intros _. exists app. split; [reflexivity|].
    split; [left; reflexivity|symmetry; exact He].
  - intros H. destruct (IH H) as (a & Hf & Hin & Hp).
    exists a. split; [exact Hf|]. split; [right; exact Hin|exact Hp].
Qed.

Section MissionMethods.
Context {A : Type}.
Variable save : Mission.t -> A.

(** X22. A partner applies to a mission once: over distinct applicants,
    [applyForMission] throws for a partner who has applied and otherwise
    saves the mission with this partner added last, the applicants still
    distinct and the status as it was. *)
Theorem applyForMission_once (now : Z) (partnerId : string)
    (proposedBudget : Z) (message : option string) (portfolio : list string)
    (this : Mission.t) :
  NoDup (partners this) ->
  if existsb (String.eqb partnerId) (partners this) then
    Mission.applyForMission save now partnerId proposedBudget message
      portfolio this = Thrown "mission.already_applied"
  else
    exists saved,
      Mission.applyForMission save now partnerId proposedBudget message
        portfolio this = Returned (save saved) /\
      partners saved = partners this ++ [partnerId] /\
      NoDup (partners saved) /\
      Mission.status saved = Mission.status this.
Proof.
  intros Hn. unfold Mission.applyForMission, partners in *.
  destruct (existsb _ _) eqn:He.
  - destruct (find_applied_some _ _ He) as (app & -> & _). reflexivity.
  - rewrite (find_applied_none _ _ He).
    eexists. split; [reflexivity|]. cbn [Mission.applications Mission.status].
    rewrite map_app. cbn [map Application.partner].
    split; [reflexivity|]. split; [|reflexivity].
    apply NoDup_app; [exact Hn|repeat constructor; intros []|].
    intros p Hp [<-|[]].
    assert (existsb (String.eqb partnerId)
              (map Application.partner (Mission.applications this)) = true);
      [|congruence].
    apply existsb_exists. exists partnerId.
    split; [exact Hp|apply String.eqb_refl].
Qed.

Lemma accept_found_partners (partnerId : string)
    (apps : list Application.t) :
  map Application.partner
      (map (Mission.reject_other partnerId)
           (Mission.accept_found partnerId apps)) =
    map Application.partner apps.
Proof.
  rewrite map_map.
  assert (Hr : forall app,
             Application.partner (Mission.reject_other partnerId app) =
               Application.partner app).
  { intros app. unfold Mission.reject_other.
    destruct (negb _); reflexivity. }
  induction apps as [|app apps IH]; [reflexivity|].
  cbn [Mission.accept_found].
  destruct (Mission.applied_by partnerId app); cbn [map].
  - rewrite Hr. cbn [Application.partner]. f_equal.
    apply map_ext. exact Hr.
  - rewrite Hr, IH. reflexivity.
Qed.

Lemma accept_found_statuses (partnerId : string)
    (apps : list Application.t) :
  NoDup (map Application.partner apps) ->
  In partnerId (map Application.partner apps) ->
  Forall (fun app =>
            Application.status app =
              if String.eqb (Application.partner app) partnerId
              then "accepted" else "rejected")
         (map (Mission.reject_other partnerId)
              (Mission.accept_found partnerId apps)).
Proof.
  induction apps as [|app apps IH]; intros Hn Hin; [destruct Hin|].
  cbn [map] in Hn. inversion Hn as [|? ? Hnot Hn']. subst.
  cbn [Mission.accept_found]. unfold Mission.applied_by at 1.
  destruct (String.eqb_spec (Application.partner app) partnerId) as [He|He];
    cbn [map].
  - constructor.
    + unfold Mission.reject_other, Mission.applied_by.
      cbn [Application.partner]. rewrite He, String.eqb_refl.
      cbn [negb Application.partner Application.status].
      rewrite String.eqb_refl. reflexivity.
    + apply Forall_forall. intros a Ha.
      apply in_map_iff in Ha as (a0 & <- & Ha0).
      unfold Mission.reject_other, Mission.applied_by.
      destruct (String.eqb_spec (Application.partner a0) partnerId)
        as [He0|He0]; cbn [negb Application.partner Application.status].
      * exfalso. apply Hnot. rewrite He, <- He0. apply in_map, Ha0.
      * destruct (String.eqb_spec (Application.partner a0) partnerId);
          [contradiction|reflexivity].
  - constructor.
    + unfold Mission.reject_other, Mission.applied_by.
      destruct (String.eqb_spec (Application.partner app) partnerId);
        [contradiction|].
      cbn [negb Application.partner Application.status].
      destruct (String.eqb_spec (Application.partner app) partnerId);
        [contradiction|reflexivity].
    + apply IH; [exact Hn'|].
      destruct Hin as [Hin|Hin]; [contradiction|exact Hin].
Qed.

(** X23. Accepting an application: over distinct applicants,
    [acceptApplication] throws for a partner who has not applied and
    otherwise saves the mission assigned to the partner, with the budget
    this partner proposed, the partner's application accepted and every
    other application rejected. *)
Theorem acceptApplication_one_accepted (now : Z) (partnerId : string)
    (this : Mission.t) :
  NoDup (partners this) ->
  if existsb (String.eqb partnerId) (partners this) then
    exists saved application,
      Mission.acceptApplication save now partnerId this =
        Returned (save saved) /\
      In application (Mission.applications this) /\
      Application.partner application = partnerId /\
      Mission.finalBudget saved =
        Some (Application.proposedBudget application) /\
      Mission.assignedTo saved = Some partnerId /\
      Mission.status saved = "assigned" /\
      partners saved = partners this /\
      Forall (fun app =>
                Application.status app =
                  if String.eqb (Application.partner app) partnerId
                  then "accepted" else "rejected")
             (Mission.applications saved)
  else
    Mission.acceptApplication save now partnerId this =
      Thrown "mission.application_not_found".
Proof.
  intros Hn. unfold Mission.acceptApplication, partners in *.
  destruct (existsb _ _) eqn:He.
  - destruct (find_applied_some _ _ He) as (app & -> & Hin & Hp).
    eexists. exists app. split; [reflexivity|].
    cbn [Mission.applications Mission.finalBudget Mission.assignedTo
         Mission.status].
    repeat (split; [assumption || reflexivity|]).
    split; [apply accept_found_partners|].
    apply accept_found_statuses; [exact Hn|].
    rewrite <- Hp. apply in_map, Hin.
  - rewrite (find_applied_none _ _ He). reflexivity.
Qed.
End MissionMethods.

Lemma applyForMission_once_witness :
  exists saved,
    Mission.applyForMission (fun m => m) 3 "p3" 280 None [] harbour_mission =
      Returned saved /\
    partners saved = partners harbour_mission ++ ["p3"] /\
    NoDup (partners saved) /\
    Mission.status saved = Mission.status harbour_mission.
Proof.
  apply (applyForMission_once (fun m => m) 3 "p3" 280 None []
           harbour_mission).
  repeat constructor; simpl; intuition discriminate.
Defined.

Lemma acceptApplication_one_accepted_witness :
  exists saved application,
    Mission.acceptApplication (fun m => m) 3 "p2" harbour_mission =
      Returned saved /\
    In application (Mission.applications harbour_mission) /\
    Application.partner application = "p2" /\
    Mission.finalBudget saved =
      Some (Application.proposedBudget application) /\
    Mission.assignedTo saved = Some "p2" /\
    Mission.status saved = "assigned" /\
    partners saved = partners harbour_mission /\
    Forall (fun app =>
              Application.status app =
                if String.eqb (Application.partner app) "p2"
                then "accepted" else "rejected")
           (Mission.applications saved).
Proof.
  apply (acceptApplication_one_accepted (fun m => m) 3 "p2"
           harbour_mission).
  repeat constructor; simpl; intuition discriminate.
Defined.
